(** * Favicon and OpenGraph discovery and resolution: a shallow embedding

    The development follows [src/lib/page-analyzer.ts] (page analysis,
    candidate extraction, scoring, URL resolution), the OpenGraph finder
    ([fetchBestOGImage], [detectFormat]) and [handleFallback] of
    [src/index.ts].

    Conventions.
    - A JavaScript string is a [string] holding its UTF-8 bytes.  Every
      pattern the code searches for ('http', '//', 'svg', ...) is ASCII, and
      an ASCII pattern occurs in the UTF-16 text exactly where it occurs in
      the UTF-8 bytes, so [startsWith] and [includes] agree with the
      JavaScript methods.
    - A JavaScript number is [NaN] or an integer ([Num z]).  The scores and
      the sizes read with [parseInt] are integers, and on them the truth
      tests, products and comparisons of the code are those of [Z]; a
      fractional width or height in JSON-LD is outside the model.
    - Asynchronous code is sequential here: every [await] is a bind of the
      monad [M], which threads the state of the outside world and a trace of
      the calls made to it, and which carries exceptions. *)

From Stdlib Require Import ZArith List String Ascii Bool Lia.
From Stdlib Require Import Permutation Sorted.
From Stdlib Require Import Strings.Byte DecimalString.
Import ListNotations.

Set Warnings "-register-all".

Open Scope string_scope.
Open Scope Z_scope.

(** ** Strings *)

(** [s.startsWith(p)] *)
Definition startsWith (s p : string) : bool := String.prefix p s.

(** [s.includes(sub)] *)
Fixpoint includes (s sub : string) : bool :=
  match s with
  | EmptyString => String.prefix sub EmptyString
  | String _ s' => String.prefix sub s || includes s' sub
  end.

(** A string is falsy exactly when it is empty. *)
Definition nonempty (s : string) : bool :=
  match s with EmptyString => false | String _ _ => true end.

(** [a || b] on values of type [string | undefined]. *)
Definition str_or (a b : option string) : option string :=
  match a with
  | Some s => if nonempty s then a else b
  | None => b
  end.

(** Truthiness of a [string | undefined]. *)
Definition str_truthy (a : option string) : bool :=
  match a with Some s => nonempty s | None => false end.

(** [t?.includes(sub)], read in a condition: [undefined] is falsy. *)
Definition opt_includes (t : option string) (sub : string) : bool :=
  match t with Some s => includes s sub | None => false end.

Definition is_digit (c : ascii) : bool :=
  let n := nat_of_ascii c in (48 <=? n)%nat && (n <=? 57)%nat.

(** The longest run of decimal digits at the head of [s], and what follows. *)
Fixpoint span_digits (s : string) : string * string :=
  match s with
  | EmptyString => (EmptyString, EmptyString)
  | String c s' =>
      if is_digit c
      then let (run, rest) := span_digits s' in (String c run, rest)
      else (EmptyString, s)
  end.

(** Decimal rendering of an integer, as a template literal prints it. *)
Definition Z_to_string (z : Z) : string := NilZero.string_of_int (Z.to_int z).

(** ** JavaScript values *)

Inductive number : Type :=
| NaN
| Num (z : Z).

Inductive Value : Type :=
| VUndefined
| VNull
| VBool (b : bool)
| VNumber (n : number)
| VString (s : string)
| VArray (items : list Value)
| VObject (fields : list (string * Value)).

Definition num_truthy (n : number) : bool :=
  match n with NaN => false | Num z => negb (z =? 0) end.

Definition truthy (v : Value) : bool :=
  match v with
  | VUndefined | VNull => false
  | VBool b => b
  | VNumber n => num_truthy n
  | VString s => nonempty s
  | VArray _ | VObject _ => true
  end.

Definition num_mul (a b : number) : number :=
  match a, b with
  | Num x, Num y => Num (x * y)
  | _, _ => NaN
  end.

(** [a >= k] for a numeric constant [k]; a comparison with NaN is false. *)
Definition num_ge (a : number) (k : Z) : bool :=
  match a with NaN => false | Num x => k <=? x end.

Fixpoint assoc (k : string) (l : list (string * Value)) : option Value :=
  match l with
  | [] => None
  | (k', v) :: l' => if String.eqb k k' then Some v else assoc k l'
  end.

(** [Array.isArray(v)] *)
Definition isArray (v : Value) : bool :=
  match v with VArray _ => true | _ => false end.

(** [typeof v === 'object'] *)
Definition typeof_object (v : Value) : bool :=
  match v with VNull | VArray _ | VObject _ => true | _ => false end.

(** A computation that may end in an exception. *)
Inductive Completion (A : Type) : Type :=
| Normal (a : A)
| Abrupt.
Arguments Normal {A} a.
Arguments Abrupt {A}.

(** [v.k], for the keys the code reads ('image', 'url', 'width', 'height',
    'icons', 'src', 'sizes', 'type'): reading a property of [null] or
    [undefined] is a TypeError, an object answers with its own property,
    every other value with [undefined]. *)
Definition get_prop (v : Value) (k : string) : Completion Value :=
  match v with
  | VUndefined | VNull => Abrupt
  | VObject fields =>
      Normal (match assoc k fields with Some x => x | None => VUndefined end)
  | _ => Normal VUndefined
  end.

Definition opt_number_value (n : option number) : Value :=
  match n with Some x => VNumber x | None => VUndefined end.

Definition opt_string_value (s : option string) : Value :=
  match s with Some x => VString x | None => VUndefined end.

(** ** Data model ([src/types/index.ts] and the objects the code builds) *)

Definition Buffer := list byte.

Definition buffer_length (b : Buffer) : Z := Z.of_nat (List.length b).

Inductive FaviconSourceTag : Type :=
| LinkTag        (* 'link-tag' *)
| Manifest       (* 'manifest' *)
| Fallback       (* 'fallback' *)
| FallbackApi.   (* 'fallback-api' *)

Inductive OGSourceTag : Type :=
| OgImage        (* 'og:image' *)
| TwitterImage   (* 'twitter:image' *)
| SchemaOrg      (* 'schema.org' *)
| OgFallback.    (* 'fallback' *)

(** A field the object literal does not set is [None] (or [VUndefined]). *)
Record FaviconSource : Type := {
  fav_url : string;
  fav_size : option number;
  fav_format : Value;
  fav_source : FaviconSourceTag;
  fav_score : Z;
  fav_isFallback : option bool
}.

Record OGImageSource : Type := {
  og_url : string;
  og_width : option number;
  og_height : option number;
  og_alt : option string;
  og_type : option string;
  og_source : OGSourceTag;
  og_score : Z;
  og_isFallback : option bool
}.

Record PageMetadata : Type := {
  title : option string;
  description : option string;
  siteName : option string
}.

Record PageAnalysisResult : Type := {
  favicons : list FaviconSource;
  ogImages : list OGImageSource;
  metadata : PageMetadata
}.

(** What [fetchBestOGImage] returns when it finds an image. *)
Record ResolvedAsset : Type := {
  asset_data : Buffer;
  asset_format : string;
  asset_source : OGSourceTag;
  asset_url : string;
  asset_isFallback : option bool
}.

Record AppConfig : Type := {
  USER_AGENT : string;
  REQUEST_TIMEOUT : Z;
  MAX_IMAGE_SIZE : Z;
  USE_FALLBACK_API : bool
}.

(** ** Scoring *)

Definition calculateFaviconScore
    (size : option number) (type : option string) (rel : string) : Z :=
  let score := 50 in
  let score := if opt_includes type "svg" then score + 100 else score in
  let score :=
    match size with
    | Some n =>
        if num_truthy n then
          if num_ge n 512 then score + 90
          else if num_ge n 256 then score + 80
          else if num_ge n 192 then score + 70
          else if num_ge n 128 then score + 60
          else if num_ge n 64 then score + 50
          else if num_ge n 32 then score + 40
          else score
        else score
    | None => score
    end in
  let score :=
    if opt_includes type "png" then score + 20
    else if opt_includes type "webp" then score + 15
    else if opt_includes type "gif" then score + 10
    else if opt_includes type "ico" then score + 5
    else score in
  let score := if includes rel "apple-touch-icon" then score + 10 else score in
  let score := if includes rel "mask-icon" then score - 10 else score in
  score.

(** ** Format detection *)

Definition byte_is (b : Buffer) (i : nat) (x : byte) : bool :=
  match nth_error b i with
  | Some y => Byte.eqb y x
  | None => false
  end.

(** [buffer.toString('utf8', 0, 5)]: the first five bytes, as text.  The
    decoder maps every ASCII byte to itself and every other byte sequence
    to non-ASCII characters, so the ASCII text '<svg' is found in the
    decoded text exactly when it is found in the bytes. *)
Definition toString_utf8_0_5 (b : Buffer) : string :=
  string_of_list_byte (firstn 5 b).

Definition detectFormat (buffer : Buffer) (hint : option string) : string :=
  if byte_is buffer 0 x89 && byte_is buffer 1 x50 then "png"
  else if byte_is buffer 0 xff && byte_is buffer 1 xd8 then "jpg"
  else if byte_is buffer 0 x52 && byte_is buffer 1 x49 then "webp"
  else if byte_is buffer 0 x47 && byte_is buffer 1 x49 && byte_is buffer 2 x46
  then "gif"
  else if includes (toString_utf8_0_5 buffer) "<svg" then "svg"
  else
    let hintStr := match hint with Some s => s | None => EmptyString end in
    if includes hintStr "png" then "png"
    else if includes hintStr "jpeg" || includes hintStr "jpg" then "jpg"
    else if includes hintStr "webp" then "webp"
    else if includes hintStr "svg" then "svg"
    else if includes hintStr "gif" then "gif"
    else "png".

(** ** Sorting

    [array.sort(cmp)].  ECMAScript requires the sort to be stable and, for a
    consistent comparator, the result to be ordered by it; that fixes the
    result, which insertion computes.  [insert_sorted x l] puts [x], which
    stood before the elements of [l], in front of the first [y] that [x]
    does not have to follow ([cmp x y <= 0]). *)

Fixpoint insert_sorted {A : Type} (cmp : A -> A -> Z) (x : A) (l : list A)
    : list A :=
  match l with
  | [] => [x]
  | y :: l' => if cmp x y <=? 0 then x :: l else y :: insert_sorted cmp x l'
  end.

Definition Array_sort {A : Type} (cmp : A -> A -> Z) (l : list A) : list A :=
  fold_right (insert_sorted cmp) [] l.

(** ** Loops that push to an array and may be cut short by an exception

    The arrays [favicons] and [images] are declared outside the [try]
    blocks, so what was pushed before an exception stays.  A loop body
    gives what it pushed and whether it completed normally. *)

Definition Pushes (B : Type) : Type := (list B * bool)%type.

Fixpoint for_of {A B : Type} (body : A -> Pushes B) (l : list A) : Pushes B :=
  match l with
  | [] => ([], true)
  | x :: rest =>
      let (out, completed) := body x in
      if completed
      then let (out', completed') := for_of body rest in
           ((out ++ out')%list, completed')
      else (out, false)
  end.

(** ** The parsed document (cheerio) *)

Record Element : Type := {
  attrs : list (string * string);
  inner_html : option string;
  inner_text : string
}.

(** The selectors the code uses. *)
Inductive Selector : Type :=
| Tag (tag : string)                       (* tag *)
| AttrEquals (tag a v : string)            (* tag[a="v"] *)
| AttrContains (tag a v : string)          (* tag[a*="v"] *)
| AttrPrefix (tag a v : string).           (* tag[a^="v"] *)

(** [$(selector)]: the matched elements, in document order. *)
Definition CheerioAPI : Type := Selector -> list Element.

Fixpoint lookup_attr (k : string) (l : list (string * string)) : option string :=
  match l with
  | [] => None
  | (k', v) :: l' => if String.eqb k k' then Some v else lookup_attr k l'
  end.

(** [$(element).attr(name)] *)
Definition attr (e : Element) (name : string) : option string :=
  lookup_attr name (attrs e).

(** [$(selector).attr(name)]: the attribute of the first matched element. *)
Definition sel_attr (sel : list Element) (name : string) : option string :=
  match sel with
  | e :: _ => attr e name
  | [] => None
  end.

(** [$(selector).text()]: the text of all matched elements. *)
Definition sel_text (sel : list Element) : string :=
  String.concat EmptyString (map inner_text sel).

(** [src/lib/metadata-extractor.ts] *)
Definition extractMetadata (doc : CheerioAPI) : PageMetadata :=
  {| title :=
       match str_or (sel_attr (doc (AttrEquals "meta" "property" "og:title")) "content")
                    (sel_attr (doc (AttrEquals "meta" "name" "twitter:title")) "content")
       with
       | Some s => if nonempty s then Some s else Some (sel_text (doc (Tag "title")))
       | None => Some (sel_text (doc (Tag "title")))
       end;
     description :=
       str_or (str_or (sel_attr (doc (AttrEquals "meta" "property" "og:description")) "content")
                      (sel_attr (doc (AttrEquals "meta" "name" "twitter:description")) "content"))
              (sel_attr (doc (AttrEquals "meta" "name" "description")) "content");
     siteName := sel_attr (doc (AttrEquals "meta" "property" "og:site_name")) "content" |}.

(** ** The environment of the code *)

(** The fields of a [URL] object that the code reads. *)
Record URL : Type := {
  protocol : string;
  hostname : string;
  origin : string;
  href : string
}.

(** [fetch(url, { headers, ... })].  The timeout signal is part of the
    outside world: a request that runs out of time is a rejected fetch. *)
Record Request : Type := {
  req_url : string;
  req_headers : list (string * string)
}.

(** A [Response]; a body accessor that rejects is [None]. *)
Record Response : Type := {
  resp_ok : bool;
  resp_status : Z;
  resp_url : string;
  resp_text : option string;
  resp_json : option Value;
  resp_arrayBuffer : option Buffer
}.

(** The result of [parseDataUrl]. *)
Record DataUrl : Type := {
  du_buffer : Buffer;
  du_mimeType : option string
}.

(** The result of [fetchCustomDefault] and of [getCachedFallback]. *)
Record DefaultImage : Type := {
  di_buffer : Buffer;
  di_format : string;
  di_sourceUrl : string;
  di_width : number;
  di_height : number
}.

Record ImageProcessOptions : Type := {
  opt_size : option number;
  opt_format : option string
}.

Record ProcessedImage : Type := {
  pi_data : Buffer;
  pi_format : string;
  pi_width : number;
  pi_height : number;
  pi_bytes : Z
}.

Definition Headers : Type := list (string * string).

(** Everything the code calls and that is not part of the embedded
    sources: the network, the JavaScript runtime, cheerio, and the modules
    of the repository that the embedded functions import ([lib/validators],
    [lib/image-processor], [lib/fallback-image], [lib/http-headers]).  The
    theorems hold for every environment. *)
Class Env : Type := {
  (** the outside world and the network *)
  World : Type;
  net : World -> Request -> option Response * World;
  (** the JavaScript runtime *)
  URL_parse : string -> option URL;          (* [new URL(s)], [None]: TypeError *)
  searchParams_set : URL -> string -> string -> URL;
  String_trim : string -> string;
  encodeURIComponent : string -> string;
  parseInt10 : string -> number;             (* [parseInt(s, 10)] *)
  StringToNumber : string -> number;
  ObjectToNumber : Value -> number;
  ToString : Value -> string;                (* [String(v)] *)
  JSON_parse : string -> option Value;       (* [None]: SyntaxError *)
  (** cheerio *)
  cheerio_load : string -> CheerioAPI;
  (** [lib/validators] and [lib/image-processor] *)
  isDataUrl : string -> bool;
  parseDataUrl : string -> Completion (option DataUrl);
  validateImage : Buffer -> Completion bool;
  processImage : Buffer -> ImageProcessOptions -> Completion ProcessedImage;
  (** [lib/fallback-image] *)
  fetchCustomDefault :
    string -> AppConfig -> World -> Completion DefaultImage * World;
  getCachedFallback : World -> Completion DefaultImage;
  (** [lib/http-headers] *)
  generateDefaultHeaders : AppConfig -> Headers;
  generateErrorHeaders : AppConfig -> Headers
}.

(** The abstract operation ToNumber. *)
Definition ToNumber `{Env} (v : Value) : number :=
  match v with
  | VUndefined => NaN
  | VNull => Num 0
  | VBool b => Num (if b then 1 else 0)
  | VNumber n => n
  | VString s => StringToNumber s
  | VArray _ | VObject _ => ObjectToNumber v
  end.

(** The dimensions are passed as they are read: numbers from the meta
    tags, any JSON value from JSON-LD. *)
Definition calculateOGScore `{Env}
    (width height : Value) (source : string) (type : option string) : Z :=
  let score := 50 in
  let score :=
    if String.eqb source "og:image" then score + 100
    else if String.eqb source "twitter:image" then score + 80
    else if String.eqb source "schema.org" then score + 60
    else score in
  let score :=
    if truthy width && truthy height then
      let area := num_mul (ToNumber width) (ToNumber height) in
      if num_ge area (1200 * 630) then score + 90
      else if num_ge area (800 * 600) then score + 80
      else if num_ge area (600 * 400) then score + 70
      else if num_ge area (400 * 300) then score + 60
      else if num_ge area (300 * 200) then score + 50
      else score
    else if truthy width || truthy height then
      let dimension :=
        if truthy width then width
        else if truthy height then height
        else VNumber (Num 0) in
      if num_ge (ToNumber dimension) 1200 then score + 70
      else if num_ge (ToNumber dimension) 800 then score + 60
      else if num_ge (ToNumber dimension) 600 then score + 50
      else score
    else score in
  let score :=
    if opt_includes type "png" then score + 20
    else if opt_includes type "jpeg" || opt_includes type "jpg" then score + 15
    else if opt_includes type "webp" then score + 25
    else score in
  score.

(** ** The monad of effects *)

Inductive Event : Type :=
| EvFetch (r : Request)
| EvFetchCustomDefault (url : string)
| EvGetCachedFallback
| EvLogError (msg : string).

Record State `{Env} : Type := {
  world : World;
  trace : list Event
}.

Definition M `{Env} (A : Type) : Type := State -> Completion A * State.

Definition ret `{Env} {A : Type} (a : A) : M A := fun st => (Normal a, st).

Definition throw `{Env} {A : Type} : M A := fun st => (Abrupt, st).

Definition bind `{Env} {A B : Type} (m : M A) (k : A -> M B) : M B :=
  fun st =>
    match m st with
    | (Normal a, st') => k a st'
    | (Abrupt, st') => (Abrupt, st')
    end.

(** [try { m } catch { handler }]: the effects of [m] up to the exception
    stay. *)
Definition try_catch `{Env} {A : Type} (m : M A) (handler : M A) : M A :=
  fun st =>
    match m st with
    | (Normal a, st') => (Normal a, st')
    | (Abrupt, st') => handler st'
    end.

Definition lift `{Env} {A : Type} (c : Completion A) : M A :=
  match c with
  | Normal a => ret a
  | Abrupt => throw
  end.

(** [await p] for a body accessor or any value that may reject. *)
Definition await_opt `{Env} {A : Type} (o : option A) : M A :=
  match o with
  | Some a => ret a
  | None => throw
  end.

Definition log_event `{Env} (e : Event) : M unit :=
  fun st => (Normal tt, {| world := world st; trace := trace st ++ [e] |}).

Declare Scope monad_scope.
Delimit Scope monad_scope with monad.
Notation "x <- m ;; k" := (bind m (fun x => k))
  (at level 61, m at next level, right associativity) : monad_scope.
Notation "m ;;; k" := (bind m (fun _ => k))
  (at level 61, right associativity) : monad_scope.
Open Scope monad_scope.

(** [await fetch(url, init)] *)
Definition fetch `{Env} (r : Request) : M Response :=
  fun st =>
    let (answer, w) := net (world st) r in
    let st' := {| world := w; trace := trace st ++ [EvFetch r] |} in
    match answer with
    | Some resp => (Normal resp, st')
    | None => (Abrupt, st')
    end.

(** [new URL(s)] *)
Definition new_URL `{Env} (s : string) : M URL := await_opt (URL_parse s).

(** ** URL resolution

    [resolveUrl] is defined twice in the sources, with the same body, in the
    page analyzer and in the OpenGraph finder. *)

Definition resolveUrl `{Env} (url baseUrl : string) : string :=
  if isDataUrl url then url
  else if startsWith url "http" then url
  else if startsWith url "//" then "https:" ++ url
  else if startsWith url "/" then baseUrl ++ url
  else baseUrl ++ "/" ++ url.

(** The same call on a value read from JSON: on anything but a string the
    string methods do not exist and the call is a TypeError. *)
Definition resolveUrl_value `{Env} (url : Value) (baseUrl : string)
    : Completion string :=
  match url with
  | VString s => Normal (resolveUrl s baseUrl)
  | _ => Abrupt
  end.

(** ** Sizes, types *)

(** [s.match(/(\d+)x\d+/)] at the head of [s]: the digits of the first
    group.  A greedy run of digits that is not followed by 'x' and a digit
    cannot match after backtracking either, since a shorter run is followed
    by a digit. *)
Definition match_sizes_here (s : string) : option string :=
  let (run, rest) := span_digits s in
  if nonempty run then
    match rest with
    | String "x" (String d _) => if is_digit d then Some run else None
    | _ => None
    end
  else None.

(** The leftmost match. *)
Fixpoint match_sizes (s : string) : option string :=
  match s with
  | EmptyString => None
  | String _ s' =>
      match match_sizes_here s with
      | Some g => Some g
      | None => match_sizes s'
      end
  end.

Definition parseSizes `{Env} (sizes : option string) : option number :=
  match sizes with
  | None => None
  | Some s =>
      if nonempty s then
        match match_sizes s with
        | Some g => Some (parseInt10 g)
        | None => None
        end
      else None
  end.

(** [parseSizes(icon.sizes)] on a value read from the manifest: a truthy
    value that is not a string has no [match] method. *)
Definition parseSizes_value `{Env} (sizes : Value) : Completion (option number) :=
  if truthy sizes then
    match sizes with
    | VString s => Normal (parseSizes (Some s))
    | _ => Abrupt
    end
  else Normal None.

Definition is_dot (c : ascii) : bool := Ascii.eqb c ".".

Fixpoint has_dot (s : string) : bool :=
  match s with
  | EmptyString => false
  | String c s' => is_dot c || has_dot s'
  end.

(** [s.split('.').pop()]: what follows the last dot, all of [s] without one. *)
Fixpoint last_segment (s : string) : string :=
  match s with
  | EmptyString => EmptyString
  | String c s' =>
      if has_dot s' then last_segment s'
      else if is_dot c then s' else s
  end.

Fixpoint take_mime (s : string) : string :=
  match s with
  | EmptyString => EmptyString
  | String c s' =>
      if Ascii.eqb c ";" || Ascii.eqb c "," then EmptyString
      else String c (take_mime s')
  end.

(** [href.match(/^data:([^;,]+)/)]: the first group. *)
Definition data_mime (href : string) : option string :=
  if startsWith href "data:" then
    let m := take_mime (substring 5 (String.length href - 5) href) in
    if nonempty m then Some m else None
  else None.

(** ** Candidate extractors *)

Definition linkTagFavicon `{Env} (baseUrl : string) (element : Element)
    : list FaviconSource :=
  match attr element "href" with
  | None => []
  | Some href =>
      if nonempty href then
        let sizes := attr element "sizes" in
        let type :=
          match str_or (attr element "type") None with
          | Some t => t
          | None => EmptyString
          end in
        let rel :=
          match attr element "rel" with Some r => r | None => EmptyString end in
        let type :=
          if nonempty type then type
          else if isDataUrl href then
            match data_mime href with Some m => m | None => type end
          else last_segment href in
        let size := parseSizes sizes in
        let score := calculateFaviconScore size (Some type) rel in
        [ {| fav_url := resolveUrl href baseUrl;
             fav_size := size;
             fav_format := VString type;
             fav_source := LinkTag;
             fav_score := score;
             fav_isFallback := None |} ]
      else []
  end.

Definition extractFaviconFromLinkTags `{Env} (doc : CheerioAPI) (baseUrl : string)
    : list FaviconSource :=
  flat_map (linkTagFavicon baseUrl) (doc (AttrContains "link" "rel" "icon")).

(** The body of the loop over [manifest.icons]. *)
Definition manifestIcon `{Env} (baseUrl : string) (icon : Value)
    : Pushes FaviconSource :=
  match get_prop icon "src" with
  | Abrupt => ([], false)
  | Normal src =>
      if truthy src then
        match resolveUrl_value src baseUrl,
              parseSizes_value
                (match get_prop icon "sizes" with Normal v => v | Abrupt => VUndefined end)
        with
        | Normal url, Normal size =>
            ([ {| fav_url := url;
                  fav_size := size;
                  fav_format :=
                    match get_prop icon "type" with Normal v => v | Abrupt => VUndefined end;
                  fav_source := Manifest;
                  fav_score := 40;
                  fav_isFallback := None |} ], true)
        | _, _ => ([], false)
        end
      else ([], true)
  end.

Definition manifestRequest (baseUrl : string) (config : AppConfig) : Request :=
  {| req_url := baseUrl ++ "/manifest.json";
     req_headers := [("User-Agent", USER_AGENT config)] |}.

Definition extractFaviconFromManifest `{Env} (baseUrl : string) (config : AppConfig)
    : M (list FaviconSource) :=
  try_catch
    (response <- fetch (manifestRequest baseUrl config) ;;
     if resp_ok response then
       manifest <- await_opt (resp_json response) ;;
       icons <- lift (get_prop manifest "icons") ;;
       match icons with
       | VArray items => ret (fst (for_of (manifestIcon baseUrl) items))
       | _ => ret []
       end
     else ret [])
    (ret []).

(** The object collected for an [og:image] tag before it is scored. *)
Record OgTag : Type := {
  tag_url : string;
  tag_width : option string;
  tag_height : option string;
  tag_alt : option string;
  tag_type : option string
}.

Definition og_url_property (property : string) : bool :=
  String.eqb property "og:image" || String.eqb property "og:image:url"
  || String.eqb property "og:image:secure_url".

(** First pass: one object per image URL. *)
Definition collectOgTag (element : Element) : list OgTag :=
  match attr element "property", attr element "content" with
  | Some property, Some content =>
      if nonempty property && nonempty content && og_url_property property
      then [ {| tag_url := content; tag_width := None; tag_height := None;
                tag_alt := None; tag_type := None |} ]
      else []
  | _, _ => []
  end.

(** Second pass: every width, height, alt and type tag is written to the
    first collected image, [ogImages[0]]. *)
Definition associateOgTag (currentImage : OgTag) (element : Element) : OgTag :=
  match attr element "property", attr element "content" with
  | Some property, Some content =>
      if nonempty property && nonempty content then
        if String.eqb property "og:image:width" then
          {| tag_url := tag_url currentImage; tag_width := Some content;
             tag_height := tag_height currentImage; tag_alt := tag_alt currentImage;
             tag_type := tag_type currentImage |}
        else if String.eqb property "og:image:height" then
          {| tag_url := tag_url currentImage; tag_width := tag_width currentImage;
             tag_height := Some content; tag_alt := tag_alt currentImage;
             tag_type := tag_type currentImage |}
        else if String.eqb property "og:image:alt" then
          {| tag_url := tag_url currentImage; tag_width := tag_width currentImage;
             tag_height := tag_height currentImage; tag_alt := Some content;
             tag_type := tag_type currentImage |}
        else if String.eqb property "og:image:type" then
          {| tag_url := tag_url currentImage; tag_width := tag_width currentImage;
             tag_height := tag_height currentImage; tag_alt := tag_alt currentImage;
             tag_type := Some content |}
        else currentImage
      else currentImage
  | _, _ => currentImage
  end.

Definition ogTagImage `{Env} (baseUrl : string) (ogImage : OgTag)
    : list OGImageSource :=
  if nonempty (tag_url ogImage) then
    let width :=
      if str_truthy (tag_width ogImage)
      then option_map parseInt10 (tag_width ogImage) else None in
    let height :=
      if str_truthy (tag_height ogImage)
      then option_map parseInt10 (tag_height ogImage) else None in
    [ {| og_url := resolveUrl (tag_url ogImage) baseUrl;
         og_width := width;
         og_height := height;
         og_alt := tag_alt ogImage;
         og_type := tag_type ogImage;
         og_source := OgImage;
         og_score :=
           calculateOGScore (opt_number_value width)
             (opt_number_value height) "og:image" (tag_type ogImage);
         og_isFallback := Some false |} ]
  else [].

Definition extractOGFromTags `{Env} (doc : CheerioAPI) (baseUrl : string)
    : list OGImageSource :=
  let metas := doc (AttrPrefix "meta" "property" "og:image") in
  let ogImages := flat_map collectOgTag metas in
  let ogImages :=
    match ogImages with
    | [] => []
    | first :: others => fold_left associateOgTag metas first :: others
    end in
  flat_map (ogTagImage baseUrl) ogImages.

Definition extractOGFromTwitterTags `{Env} (doc : CheerioAPI) (baseUrl : string)
    : list OGImageSource :=
  let twitterImage :=
    sel_attr (doc (AttrEquals "meta" "name" "twitter:image")) "content" in
  let twitterImageAlt :=
    sel_attr (doc (AttrEquals "meta" "name" "twitter:image:alt")) "content" in
  match twitterImage with
  | Some image =>
      if nonempty image then
        [ {| og_url := resolveUrl image baseUrl;
             og_width := None;
             og_height := None;
             og_alt := twitterImageAlt;
             og_type := None;
             og_source := TwitterImage;
             og_score :=
               calculateOGScore VUndefined VUndefined "twitter:image" None;
             og_isFallback := Some false |} ]
      else []
  | None => []
  end.

(** The body of the loop over the images of one JSON-LD item. *)
Definition jsonLdImage `{Env} (baseUrl : string) (imageUrl : Value)
    : Pushes OGImageSource :=
  match (match imageUrl with
         | VString _ => Normal imageUrl
         | _ => get_prop imageUrl "url"
         end) with
  | Abrupt => ([], false)
  | Normal url =>
      let prop k :=
        if typeof_object imageUrl
        then match get_prop imageUrl k with Normal v => v | Abrupt => VUndefined end
        else VUndefined in
      let width := prop "width" in
      let height := prop "height" in
      if truthy url then
        match resolveUrl_value url baseUrl with
        | Abrupt => ([], false)
        | Normal resolved =>
            ([ {| og_url := resolved;
                  og_width :=
                    if truthy width then Some (parseInt10 (ToString width)) else None;
                  og_height :=
                    if truthy height then Some (parseInt10 (ToString height)) else None;
                  og_alt := None;
                  og_type := None;
                  og_source := SchemaOrg;
                  og_score := calculateOGScore width height "schema.org" None;
                  og_isFallback := Some false |} ], true)
        end
      else ([], true)
  end.

(** The body of the loop over the items of one JSON-LD block. *)
Definition jsonLdItem `{Env} (baseUrl : string) (schemaItem : Value)
    : Pushes OGImageSource :=
  match get_prop schemaItem "image" with
  | Abrupt => ([], false)
  | Normal image =>
      if truthy image then
        let imageUrls :=
          match image with VArray items => items | _ => [image] end in
        for_of (jsonLdImage baseUrl) imageUrls
      else ([], true)
  end.

(** One script block, inside its own [try]: a block that does not parse,
    or that raises part way, keeps what it pushed and the next block is read. *)
Definition jsonLdBlock `{Env} (baseUrl : string) (element : Element)
    : list OGImageSource :=
  match inner_html element with
  | None => []
  | Some jsonText =>
      if nonempty jsonText then
        match JSON_parse jsonText with
        | None => []
        | Some schema =>
            let schemas :=
              match schema with VArray items => items | _ => [schema] end in
            fst (for_of (jsonLdItem baseUrl) schemas)
        end
      else []
  end.

Definition extractOGFromJsonLd `{Env} (doc : CheerioAPI) (baseUrl : string)
    : list OGImageSource :=
  flat_map (jsonLdBlock baseUrl)
           (doc (AttrEquals "script" "type" "application/ld+json")).

(** ** Fetching the page *)

Definition BROWSER_USER_AGENT : string :=
  "Mozilla/5.0 (Macintosh; Intel Mac OS X 10_15_7) AppleWebKit/537.36 (KHTML, like Gecko) Chrome/131.0.0.0 Safari/537.36".

Definition htmlRequest (url userAgent : string) : Request :=
  {| req_url := url;
     req_headers :=
       [ ("User-Agent", userAgent);
         ("Accept", "text/html,application/xhtml+xml,application/xml;q=0.9,*/*;q=0.8");
         ("Accept-Language", "en-US,en;q=0.9") ] |}.

Definition fetchHtml `{Env} (url : string) (config : AppConfig)
    : M (string * string) :=
  first <-
    try_catch
      (response <- fetch (htmlRequest url (USER_AGENT config)) ;;
       if resp_ok response then
         html <- await_opt (resp_text response) ;;
         ret (Some (html, resp_url response))
       else ret None)
      (ret None) ;;
  match first with
  | Some page => ret page
  | None =>
      response <- fetch (htmlRequest url BROWSER_USER_AGENT) ;;
      if negb (resp_ok response) then throw
      else
        html <- await_opt (resp_text response) ;;
        ret (html, resp_url response)
  end.

(** ** Page analysis *)

(** [url.startsWith('http') ? url : `https://${url}`] *)
Definition withProtocol (url : string) : string :=
  if startsWith url "http" then url else "https://" ++ url.

Definition staticFavicon (baseUrl path : string) (score : Z) : FaviconSource :=
  {| fav_url := baseUrl ++ path;
     fav_size := None;
     fav_format := VUndefined;
     fav_source := Fallback;
     fav_score := score;
     fav_isFallback := None |}.

Definition fallbackApiFavicon `{Env} (formattedDomain : string) (size : option number)
    : FaviconSource :=
  let sz :=
    match size with
    | Some (Num z) => if z =? 0 then 64 else z
    | _ => 64
    end in
  {| fav_url :=
       "https://www.google.com/s2/favicons?domain="
         ++ encodeURIComponent formattedDomain ++ "&sz=" ++ Z_to_string sz;
     fav_size := None;
     fav_format := VUndefined;
     fav_source := FallbackApi;
     fav_score := 1;
     fav_isFallback := Some true |}.

(** The local variables [favicons], [ogImages] and [metadata]. *)
Definition Locals : Type :=
  (list FaviconSource * list OGImageSource * PageMetadata)%type.

Definition emptyLocals : Locals :=
  ([], [], {| title := None; description := None; siteName := None |}).

(** The [try] block of [analyzePage].  Only [fetchHtml] and [new URL] can
    raise here, and both come before the first assignment, so the block
    either fills the three variables or leaves them as they were. *)
Definition analyzePage_try `{Env} (targetUrl : string) (config : AppConfig)
    : M Locals :=
  page <- fetchHtml targetUrl config ;;
  let (html, finalUrl) := page in
  finalParsedUrl <- new_URL finalUrl ;;
  let finalBaseUrl := protocol finalParsedUrl ++ "//" ++ hostname finalParsedUrl in
  let doc := cheerio_load html in
  let metadata := extractMetadata doc in
  let favicons := extractFaviconFromLinkTags doc finalBaseUrl in
  let favicons :=
    (favicons ++ [staticFavicon finalBaseUrl "/favicon.ico" 10])%list in
  let favicons :=
    (favicons ++ [staticFavicon finalBaseUrl "/apple-touch-icon.png" 20])%list in
  manifestFavicons <- extractFaviconFromManifest finalBaseUrl config ;;
  let favicons := (favicons ++ manifestFavicons)%list in
  let ogImages :=
    (extractOGFromTags doc finalBaseUrl
       ++ extractOGFromTwitterTags doc finalBaseUrl
       ++ extractOGFromJsonLd doc finalBaseUrl)%list in
  ret (favicons, ogImages, metadata).

(** [analyzePage] up to its [return] statement: the candidates in the order
    in which they were extracted. *)
Definition analyzePage_collect `{Env}
    (url : string) (config : AppConfig) (size : option number) : M Locals :=
  let targetUrl := withProtocol url in
  locals <- try_catch (analyzePage_try targetUrl config) (ret emptyLocals) ;;
  let '(favicons, ogImages, metadata) := locals in
  if USE_FALLBACK_API config then
    let trimmedDomain := String_trim url in
    parsedUrl <- new_URL (withProtocol trimmedDomain) ;;
    let formattedDomain := "https://" ++ hostname parsedUrl in
    ret ((favicons ++ [fallbackApiFavicon formattedDomain size])%list,
         ogImages, metadata)
  else ret (favicons, ogImages, metadata).

Definition byScoreFavicon (a b : FaviconSource) : Z := fav_score b - fav_score a.

Definition byScoreOG (a b : OGImageSource) : Z := og_score b - og_score a.

Definition analyzePage `{Env}
    (url : string) (config : AppConfig) (size : option number)
    : M PageAnalysisResult :=
  locals <- analyzePage_collect url config size ;;
  let '(favicons, ogImages, metadata) := locals in
  ret {| favicons := Array_sort byScoreFavicon favicons;
         ogImages := Array_sort byScoreOG ogImages;
         metadata := metadata |}.

(** ** Candidate resolution *)

Definition imageRequest (url : string) (config : AppConfig) : Request :=
  {| req_url := url;
     req_headers :=
       [ ("User-Agent", USER_AGENT config);
         ("Accept", "image/webp,image/png,image/jpeg,image/*,*/*;q=0.8") ] |}.

(** The statements inside the [try] of the loop of [fetchBestOGImage].
    [None] stands for reaching the next iteration ([continue], or the end of
    the body), [Some] for the [return] of an asset. *)
Definition tryImage `{Env} (image : OGImageSource) (config : AppConfig)
    : M (option ResolvedAsset) :=
  obtained <-
    (if isDataUrl (og_url image) then
       parsed <- lift (parseDataUrl (og_url image)) ;;
       match parsed with
       | None => ret None
       | Some p => ret (Some (du_buffer p, du_mimeType p))
       end
     else
       response <- fetch (imageRequest (og_url image) config) ;;
       if negb (resp_ok response) then ret None
       else
         arrayBuffer <- await_opt (resp_arrayBuffer response) ;;
         ret (Some (arrayBuffer, None))) ;;
  match obtained with
  | None => ret None
  | Some (buffer, mimeType) =>
      if (0 <? buffer_length buffer)
         && (buffer_length buffer <=? MAX_IMAGE_SIZE config)
      then
        isValid <- lift (validateImage buffer) ;;
        if isValid then
          let format := detectFormat buffer (str_or mimeType (og_type image)) in
          ret (Some {| asset_data := buffer;
                       asset_format := format;
                       asset_source := og_source image;
                       asset_url := og_url image;
                       asset_isFallback := og_isFallback image |})
        else ret None
      else ret None
  end.

Fixpoint fetchBestOGImage `{Env} (images : list OGImageSource) (config : AppConfig)
    : M (option ResolvedAsset) :=
  match images with
  | [] => ret None
  | image :: rest =>
      found <- try_catch (tryImage image config) (ret None) ;;
      match found with
      | Some asset => ret (Some asset)
      | None => fetchBestOGImage rest config
      end
  end.

(** ** The fallback response ([handleFallback] of [src/index.ts]) *)

Inductive OutputFormat : Type :=
| image_response   (* 'image' *)
| json_response.   (* 'json' *)

(** What the handler reads from the Hono context. *)
Record Context : Type := {
  c_req_url : string;
  c_req_param_url : option string
}.

Record ImageInfo : Type := {
  info_url : string;
  info_sourceUrl : string;
  info_width : number;
  info_height : number;
  info_format : string;
  info_bytes : Z;
  info_source : string;
  info_isFallback : option bool
}.

Record FaviconResult : Type := {
  res_favicon : ImageInfo;
  res_ogImage : option ImageInfo;
  res_metadata : PageMetadata
}.

Inductive JsonBody : Type :=
| ErrorBody (error : string)               (* { error } *)
| ResultBody (result : FaviconResult).

Inductive HttpResponse : Type :=
| c_json (body : JsonBody) (status : Z) (headers : Headers)
| c_body (data : Buffer) (status : Z) (headers : Headers).

(** [{ ...headers, [k]: v }] *)
Definition with_header (headers : Headers) (k v : string) : Headers :=
  (filter (fun kv => negb (String.eqb (fst kv) k)) headers ++ [(k, v)])%list.

Definition call_fetchCustomDefault `{Env} (url : string) (config : AppConfig)
    : M DefaultImage :=
  fun st =>
    let (answer, w) := fetchCustomDefault url config (world st) in
    (answer, {| world := w; trace := trace st ++ [EvFetchCustomDefault url] |}).

Definition call_getCachedFallback `{Env} : M DefaultImage :=
  fun st =>
    (getCachedFallback (world st),
     {| world := world st; trace := trace st ++ [EvGetCachedFallback] |}).

Definition handleFallback `{Env}
    (c : Context) (config : AppConfig) (response : OutputFormat)
    (defaultImage : option string) (size : option number)
    (format : option string) : M HttpResponse :=
  try_catch
    (image <-
       (if str_truthy defaultImage then
          call_fetchCustomDefault
            (match defaultImage with Some d => d | None => EmptyString end) config
        else call_getCachedFallback) ;;
     image <-
       (if match size with Some n => num_truthy n | None => false end
           || str_truthy format
        then
          processed <-
            lift (processImage (di_buffer image)
                    {| opt_size := size; opt_format := format |}) ;;
          ret {| di_buffer := pi_data processed;
                 di_format := pi_format processed;
                 di_sourceUrl := di_sourceUrl image;
                 di_width := pi_width processed;
                 di_height := pi_height processed |}
        else ret image) ;;
     match response with
     | json_response =>
       requestUrl <- new_URL (c_req_url c) ;;
       let originalUrl := c_req_param_url c in
       apiUrl <-
         new_URL (origin requestUrl ++ "/"
                    ++ match str_or originalUrl None with
                       | Some u => u
                       | None => EmptyString
                       end) ;;
       let apiUrl :=
         match defaultImage with
         | Some d => if nonempty d then searchParams_set apiUrl "default" d else apiUrl
         | None => apiUrl
         end in
       ret (c_json
              (ResultBody
                 {| res_favicon :=
                      {| info_url := href apiUrl;
                         info_sourceUrl := di_sourceUrl image;
                         info_width := di_width image;
                         info_height := di_height image;
                         info_format := di_format image;
                         info_bytes := buffer_length (di_buffer image);
                         info_source := "default";
                         info_isFallback := Some true |};
                    res_ogImage := None;
                    res_metadata :=
                      {| title := None; description := None; siteName := None |} |})
              200 (generateDefaultHeaders config))
     | image_response =>
       let contentType :=
         if String.eqb (di_format image) "svg" then "image/svg+xml" else "image/png" in
       ret (c_body (di_buffer image) 200
              (with_header (generateDefaultHeaders config) "Content-Type" contentType))
     end)
    (log_event (EvLogError "Error fetching default image") ;;;
     ret (c_json (ErrorBody "Failed to fetch default image") 500
            (generateErrorHeaders config))).

(** ** The resolver, as the specification words it

    A candidate is fetched (a data URI is decoded, anything else is one
    network request), the payload is checked, and the first candidate that
    passes is the result. *)

Inductive SkipReason : Type :=
| FetchError        (* the fetch, or the decoding of a data URI, failed *)
| Non2xxStatus
| ZeroLength
| ExceedsMaxSize
| InvalidImage.

Inductive Obtained : Type :=
| NotObtained (why : SkipReason)
| Payload (buffer : Buffer) (mimeType : option string).

Definition spec_obtain `{Env} (image : OGImageSource) (config : AppConfig)
    (st : State) : Obtained * State :=
  if isDataUrl (og_url image) then
    (match parseDataUrl (og_url image) with
     | Normal (Some p) => Payload (du_buffer p) (du_mimeType p)
     | _ => NotObtained FetchError
     end, st)
  else
    let r := imageRequest (og_url image) config in
    let (answer, w) := net (world st) r in
    (match answer with
     | None => NotObtained FetchError
     | Some response =>
         if resp_ok response then
           match resp_arrayBuffer response with
           | Some buffer => Payload buffer None
           | None => NotObtained FetchError
           end
         else NotObtained Non2xxStatus
     end,
     {| world := w; trace := trace st ++ [EvFetch r] |}).

(** Why a candidate is skipped; [None] when it passes every check. *)
Definition spec_skip `{Env} (config : AppConfig) (o : Obtained) : option SkipReason :=
  match o with
  | NotObtained why => Some why
  | Payload buffer _ =>
      if buffer_length buffer =? 0 then Some ZeroLength
      else if MAX_IMAGE_SIZE config <? buffer_length buffer then Some ExceedsMaxSize
      else match validateImage buffer with
           | Normal true => None
           | _ => Some InvalidImage
           end
  end.

Definition spec_asset (image : OGImageSource) (o : Obtained) : option ResolvedAsset :=
  match o with
  | NotObtained _ => None
  | Payload buffer mimeType =>
      Some {| asset_data := buffer;
              asset_format := detectFormat buffer (str_or mimeType (og_type image));
              asset_source := og_source image;
              asset_url := og_url image;
              asset_isFallback := og_isFallback image |}
  end.

Fixpoint spec_first_success `{Env} (images : list OGImageSource) (config : AppConfig)
    (st : State) : option ResolvedAsset * State :=
  match images with
  | [] => (None, st)
  | image :: rest =>
      let (o, st') := spec_obtain image config st in
      match spec_skip config o with
      | Some _ => spec_first_success rest config st'
      | None => (spec_asset image o, st')
      end
  end.

(** The requests of a run: the [EvFetch] events of a trace. *)
Definition fetched (events : list Event) : list Request :=
  flat_map (fun e => match e with EvFetch r => [r] | _ => [] end) events.

(** The candidates that are not data URIs. *)
Definition networkImages `{Env} (images : list OGImageSource) : list OGImageSource :=
  filter (fun image => negb (isDataUrl (og_url image))) images.

(** ** Format detection, as the specification words it *)

Fixpoint starts_with_bytes (buffer magic : Buffer) {struct magic} : bool :=
  match magic, buffer with
  | [], _ => true
  | _ :: _, [] => false
  | m :: magic', b :: buffer' => Byte.eqb b m && starts_with_bytes buffer' magic'
  end.

(** One of the five magic-byte rules applies. *)
Definition magic_rule_matches (buffer : Buffer) : bool :=
  starts_with_bytes buffer [x89; x50]
  || starts_with_bytes buffer [xff; xd8]
  || starts_with_bytes buffer [x52; x49]
  || starts_with_bytes buffer [x47; x49; x46]
  || includes (toString_utf8_0_5 buffer) "<svg".

(** The hint names none of the known formats. *)
Definition hint_matches_nothing (hint : option string) : bool :=
  negb (opt_includes hint "png" || opt_includes hint "jpeg" || opt_includes hint "jpg"
        || opt_includes hint "webp" || opt_includes hint "svg" || opt_includes hint "gif").

(** ** Ordered by score *)

Definition descending {A : Type} (score : A -> Z) (l : list A) : Prop :=
  StronglySorted (fun a b => score a >= score b) l.

(** The candidates of [l] with score [s], in the order of [l]. *)
Definition with_score {A : Type} (score : A -> Z) (s : Z) (l : list A) : list A :=
  filter (fun a => score a =? s) l.

(** ** A concrete environment

    A small site, used to run the definitions on concrete inputs. *)

Inductive DemoWorld : Type :=
| Online
| Offline.

Definition is_space (c : ascii) : bool := Ascii.eqb c " ".

Fixpoint drop_spaces (l : list ascii) : list ascii :=
  match l with
  | c :: l' => if is_space c then drop_spaces l' else l
  | [] => []
  end.

(** Spaces are removed at both ends. *)
Definition demo_trim (s : string) : string :=
  string_of_list_ascii
    (rev (drop_spaces (rev (drop_spaces (list_ascii_of_string s))))).

Fixpoint up_to_slash (s : string) : string :=
  match s with
  | EmptyString => EmptyString
  | String c s' => if Ascii.eqb c "/" then EmptyString else String c (up_to_slash s')
  end.

Definition demo_url (proto rest whole : string) : option URL :=
  let host := up_to_slash rest in
  if nonempty host
  then Some {| protocol := proto; hostname := host;
               origin := proto ++ "//" ++ host; href := whole |}
  else None.

(** Accepts [http://host...] and [https://host...] without spaces. *)
Definition demo_URL_parse (s : string) : option URL :=
  if includes s " " then None
  else if startsWith s "https://"
  then demo_url "https:" (substring 8 (String.length s - 8) s) s
  else if startsWith s "http://"
  then demo_url "http:" (substring 7 (String.length s - 7) s) s
  else None.

Definition demo_searchParams_set (u : URL) (k v : string) : URL :=
  {| protocol := protocol u; hostname := hostname u; origin := origin u;
     href := href u ++ "?" ++ k ++ "=" ++ v |}.

Definition hex_digit (n : nat) : ascii :=
  ascii_of_nat (if (n <? 10)%nat then 48 + n else 55 + n)%nat.

Definition unreserved (c : ascii) : bool :=
  let n := nat_of_ascii c in
  is_digit c
  || ((65 <=? n)%nat && (n <=? 90)%nat)
  || ((97 <=? n)%nat && (n <=? 122)%nat)
  || includes "-_.!~*'()" (String c EmptyString).

Fixpoint demo_encodeURIComponent (s : string) : string :=
  match s with
  | EmptyString => EmptyString
  | String c s' =>
      if unreserved c then String c (demo_encodeURIComponent s')
      else
        let n := nat_of_ascii c in
        String "%" (String (hex_digit (n / 16)) (String (hex_digit (n mod 16))
          (demo_encodeURIComponent s')))
  end.

Fixpoint digits_value (acc : Z) (s : string) : Z :=
  match s with
  | EmptyString => acc
  | String c s' => digits_value (10 * acc + Z.of_nat (nat_of_ascii c - 48)) s'
  end.

(** Reads the decimal digits at the head of the string. *)
Definition demo_parseInt10 (s : string) : number :=
  let (run, _) := span_digits s in
  if nonempty run then Num (digits_value 0 run) else NaN.

Definition demo_ToString (v : Value) : string :=
  match v with
  | VString s => s
  | VNumber (Num z) => Z_to_string z
  | VNumber NaN => "NaN"
  | VBool true => "true"
  | VBool false => "false"
  | VNull => "null"
  | VUndefined => "undefined"
  | VArray _ => EmptyString
  | VObject _ => "[object Object]"
  end.

Definition png_bytes : Buffer := [x89; x50; x4e; x47; x0d; x0a; x1a; x0a].

Definition demo_response (ok : bool) (status : Z) (url : string)
    (text : option string) (body : option Buffer) : Response :=
  {| resp_ok := ok; resp_status := status; resp_url := url;
     resp_text := text; resp_json := None; resp_arrayBuffer := body |}.

(** The site [example.com]: a page, one image, nothing else. *)
Definition demo_net (w : DemoWorld) (r : Request) : option Response * DemoWorld :=
  match w with
  | Offline => (None, Offline)
  | Online =>
      (Some
         (if String.eqb (req_url r) "https://example.com"
          then demo_response true 200 "https://example.com/" (Some "<html>") None
          else if String.eqb (req_url r) "https://example.com/og.png"
          then demo_response true 200 (req_url r) None (Some png_bytes)
          else demo_response false 404 (req_url r) None None),
       Online)
  end.

Definition element (attributes : list (string * string)) : Element :=
  {| attrs := attributes; inner_html := None; inner_text := EmptyString |}.

(** The page of [example.com]: two icons, an OpenGraph image with its size,
    and a Twitter image. *)
Definition demo_document (html : string) : CheerioAPI :=
  fun selector =>
    match selector with
    | AttrContains tag a v =>
        if String.eqb tag "link" && String.eqb a "rel" && String.eqb v "icon"
        then [ element [("rel", "icon"); ("href", "/icon-32.png"); ("sizes", "32x32")];
               element [("rel", "apple-touch-icon"); ("href", "/touch.png");
                        ("sizes", "180x180")] ]
        else []
    | AttrPrefix tag a v =>
        if String.eqb tag "meta" && String.eqb a "property" && String.eqb v "og:image"
        then [ element [("property", "og:image"); ("content", "/og.png")];
               element [("property", "og:image:width"); ("content", "1200")];
               element [("property", "og:image:height"); ("content", "630")] ]
        else []
    | AttrEquals tag a v =>
        if String.eqb tag "meta" && String.eqb a "name" && String.eqb v "twitter:image"
        then [ element [("name", "twitter:image");
                        ("content", "https://example.com/tw.png")] ]
        else []
    | Tag _ => []
    end.

(** Modelled from the spec: [isDataUrl] of [lib/validators], which is not
    among the sources; a data URI is a reference that starts with 'data:'. *)
Definition demo_isDataUrl (url : string) : bool := startsWith url "data:".

(** Decodes one data URI, an eight byte PNG header. *)
Definition demo_parseDataUrl (url : string) : Completion (option DataUrl) :=
  if String.eqb url "data:image/png;base64,iVBORw0KGgo="
  then Normal (Some {| du_buffer := png_bytes; du_mimeType := Some "image/png" |})
  else Normal None.

Definition demo_default : DefaultImage :=
  {| di_buffer := png_bytes; di_format := "png"; di_sourceUrl := "default";
     di_width := Num 1; di_height := Num 1 |}.

Definition demoEnv : Env :=
  {| World := DemoWorld;
     net := demo_net;
     URL_parse := demo_URL_parse;
     searchParams_set := demo_searchParams_set;
     String_trim := demo_trim;
     encodeURIComponent := demo_encodeURIComponent;
     parseInt10 := demo_parseInt10;
     StringToNumber := demo_parseInt10;
     ObjectToNumber := fun _ => NaN;
     ToString := demo_ToString;
     JSON_parse := fun _ => None;
     cheerio_load := demo_document;
     isDataUrl := demo_isDataUrl;
     parseDataUrl := demo_parseDataUrl;
     validateImage := fun buffer => Normal (magic_rule_matches buffer);
     processImage := fun _ _ => Abrupt;
     fetchCustomDefault := fun _ _ w => (Abrupt, w);
     getCachedFallback := fun _ => Normal demo_default;
     generateDefaultHeaders := fun _ => [("Cache-Control", "public")];
     generateErrorHeaders := fun _ => [("Cache-Control", "no-store")] |}.

Definition demo_config : AppConfig :=
  {| USER_AGENT := "favicon-api"; REQUEST_TIMEOUT := 5000;
     MAX_IMAGE_SIZE := 5242880; USE_FALLBACK_API := true |}.

Definition demo_config_without_api : AppConfig :=
  {| USER_AGENT := "favicon-api"; REQUEST_TIMEOUT := 5000;
     MAX_IMAGE_SIZE := 5242880; USE_FALLBACK_API := false |}.

Definition demo_image (url : string) : OGImageSource :=
  {| og_url := url; og_width := None; og_height := None; og_alt := None;
     og_type := None; og_source := OgImage; og_score := 150;
     og_isFallback := Some false |}.

Definition demo_context : Context :=
  {| c_req_url := "http://localhost:3000/example.com";
     c_req_param_url := Some "example.com" |}.

Definition demo_state (w : DemoWorld) : @State demoEnv :=
  @Build_State demoEnv w [].

(** The value a run returned, if it returned. *)
Definition returned `{Env} {A : Type} (run : Completion A * State) : option A :=
  match fst run with
  | Normal a => Some a
  | Abrupt => None
  end.

(** ** The fallback flag *)

(** A favicon candidate that carries no [isFallback] flag and is not the
    candidate of the fallback API. *)
Definition unflagged (c : FaviconSource) : Prop :=
  fav_isFallback c = None /\ fav_source c <> FallbackApi.

(** An OpenGraph candidate read from the page. *)
Definition notFallback (c : OGImageSource) : Prop :=
  og_isFallback c = Some false /\ og_source c <> OgFallback.

(** ** The OpenGraph finder: [findOGImages] and its extractors

    The finder has its own copies of the extractors.  They build the same
    candidates as those of the page analyzer, without the [isFallback]
    field; its [fetchHtml] and [resolveUrl] have the bodies of the ones
    above, and its two passes over the [og:image] tags are [collectOgTag]
    and [associateOgTag] (the second pass repeats the test on
    [currentImage], which changes nothing). *)

Definition calculateScore `{Env}
    (width height : Value) (source : string) (type : option string) : Z :=
  let score := 50 in
  let score :=
    if String.eqb source "og:image" then score + 100
    else if String.eqb source "twitter:image" then score + 80
    else if String.eqb source "schema.org" then score + 60
    else score in
  let score :=
    if truthy width && truthy height then
      let area := num_mul (ToNumber width) (ToNumber height) in
      if num_ge area (1200 * 630) then score + 90
      else if num_ge area (800 * 600) then score + 80
      else if num_ge area (600 * 400) then score + 70
      else if num_ge area (400 * 300) then score + 60
      else if num_ge area (300 * 200) then score + 50
      else score
    else if truthy width || truthy height then
      let dimension :=
        if truthy width then width
        else if truthy height then height
        else VNumber (Num 0) in
      if num_ge (ToNumber dimension) 1200 then score + 70
      else if num_ge (ToNumber dimension) 800 then score + 60
      else if num_ge (ToNumber dimension) 600 then score + 50
      else score
    else score in
  let score :=
    if opt_includes type "png" then score + 20
    else if opt_includes type "jpeg" || opt_includes type "jpg" then score + 15
    else if opt_includes type "webp" then score + 25
    else score in
  score.

Definition finderOgTagImage `{Env} (baseUrl : string) (ogImage : OgTag)
    : list OGImageSource :=
  if nonempty (tag_url ogImage) then
    let width :=
      if str_truthy (tag_width ogImage)
      then option_map parseInt10 (tag_width ogImage) else None in
    let height :=
      if str_truthy (tag_height ogImage)
      then option_map parseInt10 (tag_height ogImage) else None in
    [ {| og_url := resolveUrl (tag_url ogImage) baseUrl;
         og_width := width;
         og_height := height;
         og_alt := tag_alt ogImage;
         og_type := tag_type ogImage;
         og_source := OgImage;
         og_score :=
           calculateScore (opt_number_value width) (opt_number_value height)
             "og:image" (tag_type ogImage);
         og_isFallback := None |} ]
  else [].

Definition extractFromOGTags `{Env} (doc : CheerioAPI) (baseUrl : string)
    : list OGImageSource :=
  let metas := doc (AttrPrefix "meta" "property" "og:image") in
  let ogImages := flat_map collectOgTag metas in
  let ogImages :=
    match ogImages with
    | [] => []
    | first :: others => fold_left associateOgTag metas first :: others
    end in
  flat_map (finderOgTagImage baseUrl) ogImages.

Definition extractFromTwitterTags `{Env} (doc : CheerioAPI) (baseUrl : string)
    : list OGImageSource :=
  let twitterImage :=
    sel_attr (doc (AttrEquals "meta" "name" "twitter:image")) "content" in
  let twitterImageAlt :=
    sel_attr (doc (AttrEquals "meta" "name" "twitter:image:alt")) "content" in
  match twitterImage with
  | Some image =>
      if nonempty image then
        [ {| og_url := resolveUrl image baseUrl;
             og_width := None;
             og_height := None;
             og_alt := twitterImageAlt;
             og_type := None;
             og_source := TwitterImage;
             og_score := calculateScore VUndefined VUndefined "twitter:image" None;
             og_isFallback := None |} ]
      else []
  | None => []
  end.

Definition finderJsonLdImage `{Env} (baseUrl : string) (imageUrl : Value)
    : Pushes OGImageSource :=
  match (match imageUrl with
         | VString _ => Normal imageUrl
         | _ => get_prop imageUrl "url"
         end) with
  | Abrupt => ([], false)
  | Normal url =>
      let prop k :=
        if typeof_object imageUrl
        then match get_prop imageUrl k with Normal v => v | Abrupt => VUndefined end
        else VUndefined in
      let width := prop "width" in
      let height := prop "height" in
      if truthy url then
        match resolveUrl_value url baseUrl with
        | Abrupt => ([], false)
        | Normal resolved =>
            ([ {| og_url := resolved;
                  og_width :=
                    if truthy width then Some (parseInt10 (ToString width)) else None;
                  og_height :=
                    if truthy height then Some (parseInt10 (ToString height)) else None;
                  og_alt := None;
                  og_type := None;
                  og_source := SchemaOrg;
                  og_score := calculateScore width height "schema.org" None;
                  og_isFallback := None |} ], true)
        end
      else ([], true)
  end.

Definition finderJsonLdItem `{Env} (baseUrl : string) (schemaItem : Value)
    : Pushes OGImageSource :=
  match get_prop schemaItem "image" with
  | Abrupt => ([], false)
  | Normal image =>
      if truthy image then
        let imageUrls :=
          match image with VArray items => items | _ => [image] end in
        for_of (finderJsonLdImage baseUrl) imageUrls
      else ([], true)
  end.

Definition finderJsonLdBlock `{Env} (baseUrl : string) (element : Element)
    : list OGImageSource :=
  match inner_html element with
  | None => []
  | Some jsonText =>
      if nonempty jsonText then
        match JSON_parse jsonText with
        | None => []
        | Some schema =>
            let schemas :=
              match schema with VArray items => items | _ => [schema] end in
            fst (for_of (finderJsonLdItem baseUrl) schemas)
        end
      else []
  end.

Definition extractFromJsonLd `{Env} (doc : CheerioAPI) (baseUrl : string)
    : list OGImageSource :=
  flat_map (finderJsonLdBlock baseUrl)
           (doc (AttrEquals "script" "type" "application/ld+json")).

(** The [try] block of [findOGImages]; as in [analyzePage], what can raise
    comes before the first push. *)
Definition findOGImages_try `{Env} (targetUrl : string) (config : AppConfig)
    : M (list OGImageSource) :=
  page <- fetchHtml targetUrl config ;;
  let (html, finalUrl) := page in
  finalParsedUrl <- new_URL finalUrl ;;
  let finalBaseUrl := protocol finalParsedUrl ++ "//" ++ hostname finalParsedUrl in
  let doc := cheerio_load html in
  ret (extractFromOGTags doc finalBaseUrl
         ++ extractFromTwitterTags doc finalBaseUrl
         ++ extractFromJsonLd doc finalBaseUrl)%list.

Definition findOGImages `{Env} (url : string) (config : AppConfig)
    : M (list OGImageSource) :=
  let targetUrl := withProtocol url in
  images <- try_catch (findOGImages_try targetUrl config) (ret []) ;;
  ret (Array_sort byScoreOG images).

(** A candidate without its [isFallback] field. *)
Definition withoutFlag (c : OGImageSource) : OGImageSource :=
  {| og_url := og_url c; og_width := og_width c; og_height := og_height c;
     og_alt := og_alt c; og_type := og_type c; og_source := og_source c;
     og_score := og_score c; og_isFallback := None |}.

(** ** Words for the further properties *)

(** All characters of [s] are decimal digits. *)
Fixpoint all_digits (s : string) : bool :=
  match s with
  | EmptyString => true
  | String c s' => is_digit c && all_digits s'
  end.

(** The formats [detectFormat] knows. *)
Definition known_formats : list string := ["png"; "jpg"; "webp"; "gif"; "svg"].

(** [headers[k]] *)
Fixpoint header (k : string) (headers : Headers) : option string :=
  match headers with
  | [] => None
  | (k', v) :: rest =>
      match header k rest with
      | Some v' => Some v'
      | None => if String.eqb k' k then Some v else None
      end
  end.

(** The status of a response. *)
Definition status_of (r : HttpResponse) : Z :=
  match r with
  | c_json _ status _ => status
  | c_body _ status _ => status
  end.

(** The parts of the favicon score; [calculateFaviconScore_sum] shows that
    the score is their sum. *)
Definition sizeBonus (size : option number) : Z :=
  match size with
  | Some n =>
      if num_truthy n then
        if num_ge n 512 then 90
        else if num_ge n 256 then 80
        else if num_ge n 192 then 70
        else if num_ge n 128 then 60
        else if num_ge n 64 then 50
        else if num_ge n 32 then 40
        else 0
      else 0
  | None => 0
  end.

Definition typeBonus (type : option string) : Z :=
  (if opt_includes type "svg" then 100 else 0)
  + (if opt_includes type "png" then 20
     else if opt_includes type "webp" then 15
     else if opt_includes type "gif" then 10
     else if opt_includes type "ico" then 5
     else 0).

Definition relBonus (rel : string) : Z :=
  (if includes rel "apple-touch-icon" then 10 else 0)
  - (if includes rel "mask-icon" then 10 else 0).

(** The parts of the OpenGraph score; [calculateOGScore_sum] shows that the
    score is their sum. *)
Definition sourceBonus (source : string) : Z :=
  if String.eqb source "og:image" then 100
  else if String.eqb source "twitter:image" then 80
  else if String.eqb source "schema.org" then 60
  else 0.

Definition dimensionBonus `{Env} (width height : Value) : Z :=
  if truthy width && truthy height then
    let area := num_mul (ToNumber width) (ToNumber height) in
    if num_ge area (1200 * 630) then 90
    else if num_ge area (800 * 600) then 80
    else if num_ge area (600 * 400) then 70
    else if num_ge area (400 * 300) then 60
    else if num_ge area (300 * 200) then 50
    else 0
  else if truthy width || truthy height then
    let dimension := if truthy width then width else height in
    if num_ge (ToNumber dimension) 1200 then 70
    else if num_ge (ToNumber dimension) 800 then 60
    else if num_ge (ToNumber dimension) 600 then 50
    else 0
  else 0.

Definition imageTypeBonus (type : option string) : Z :=
  if opt_includes type "png" then 20
  else if opt_includes type "jpeg" || opt_includes type "jpg" then 15
  else if opt_includes type "webp" then 25
  else 0.

(** The scores a favicon candidate of each source can have. *)
Definition faviconBand (c : FaviconSource) : Prop :=
  match fav_source c with
  | LinkTag => 40 <= fav_score c <= 270
  | Manifest => fav_score c = 40
  | Fallback => fav_score c = 10 \/ fav_score c = 20
  | FallbackApi => fav_score c = 1
  end.

(** The scores an OpenGraph candidate of each source can have. *)
Definition imageBand (c : OGImageSource) : Prop :=
  match og_source c with
  | OgImage => 150 <= og_score c <= 265
  | TwitterImage => og_score c = 130
  | SchemaOrg => 110 <= og_score c <= 200
  | OgFallback => False
  end.

(** The state after a request. *)
Definition after_fetch `{Env} (st : State) (r : Request) : State :=
  {| world := snd (net (world st) r); trace := trace st ++ [EvFetch r] |}.

(** No character of [s] is ';' or ','. *)
Fixpoint no_separator (s : string) : bool :=
  match s with
  | EmptyString => true
  | String c s' => negb (Ascii.eqb c ";" || Ascii.eqb c ",") && no_separator s'
  end.

(** The page a response gives: the body and the final URL of a 2xx answer
    whose body can be read. *)
Definition page_of (answer : option Response) : option (string * string) :=
  match answer with
  | Some response =>
      if resp_ok response then
        match resp_text response with
        | Some html => Some (html, resp_url response)
        | None => None
        end
      else None
  | None => None
  end.

(** The value of a request header. *)
Definition request_header (k : string) (r : Request) : option string :=
  lookup_attr k (req_headers r).

(** The requests for the candidates that are not data URIs, as events. *)
Definition imageFetches `{Env} (images : list OGImageSource) (config : AppConfig)
    : list Event :=
  map (fun image => EvFetch (imageRequest (og_url image) config))
    (networkImages images).

(** Where the bytes of an asset resolved from [image] in state [st] come
    from: the decoded data URI, or the 2xx answer to the request for the URL
    of the candidate. *)
Definition bytes_of_candidate `{Env} (image : OGImageSource) (config : AppConfig)
    (st : State) (data : Buffer) : Prop :=
  if isDataUrl (og_url image) then
    exists p, parseDataUrl (og_url image) = Normal (Some p) /\ du_buffer p = data
  else
    exists response,
      fst (net (world st) (imageRequest (og_url image) config)) = Some response
      /\ resp_ok response = true
      /\ resp_arrayBuffer response = Some data.

(** ** A site with a web manifest

    The site of the concrete environment, with a manifest that lists the
    same icon at two sizes. *)

Definition manifest_json : Value :=
  VObject
    [ ("name", VString "Example");
      ("icons",
       VArray
         [ VObject [ ("src", VString "/icon.png"); ("sizes", VString "256x256");
                     ("type", VString "image/png") ];
           VObject [ ("src", VString "/icon.png"); ("sizes", VString "512x512");
                     ("type", VString "image/png") ] ]) ].

Definition manifest_net (w : DemoWorld) (r : Request) : option Response * DemoWorld :=
  match w with
  | Offline => (None, Offline)
  | Online =>
      if String.eqb (req_url r) "https://example.com/manifest.json"
      then (Some {| resp_ok := true; resp_status := 200; resp_url := req_url r;
                    resp_text := None; resp_json := Some manifest_json;
                    resp_arrayBuffer := None |}, Online)
      else demo_net Online r
  end.

Definition manifestEnv : Env :=
  {| World := DemoWorld;
     net := manifest_net;
     URL_parse := demo_URL_parse;
     searchParams_set := demo_searchParams_set;
     String_trim := demo_trim;
     encodeURIComponent := demo_encodeURIComponent;
     parseInt10 := demo_parseInt10;
     StringToNumber := demo_parseInt10;
     ObjectToNumber := fun _ => NaN;
     ToString := demo_ToString;
     JSON_parse := fun _ => None;
     cheerio_load := demo_document;
     isDataUrl := demo_isDataUrl;
     parseDataUrl := demo_parseDataUrl;
     validateImage := fun buffer => Normal (magic_rule_matches buffer);
     processImage := fun _ _ => Abrupt;
     fetchCustomDefault := fun _ _ w => (Abrupt, w);
     getCachedFallback := fun _ => Normal demo_default;
     generateDefaultHeaders := fun _ => [("Cache-Control", "public")];
     generateErrorHeaders := fun _ => [("Cache-Control", "no-store")] |}.

Definition manifest_state : @State manifestEnv :=
  @Build_State manifestEnv Online [].

(** The attributes of a favicon candidate other than its size and score. *)
Definition same_icon (a b : FaviconSource) : Prop :=
  fav_url a = fav_url b /\ fav_format a = fav_format b
  /\ fav_source a = fav_source b /\ fav_isFallback a = fav_isFallback b.

(** * Properties *)

(** ** Scoring *)

(** The claim C9 as it is written fails on the icons of a web manifest:
    they keep their declared size and are all scored 40, so two manifest
    icons that differ only in their size, 256 and 512, tie. *)
Lemma manifest_icons_tie_counterexample :
  option_map
    (fun r => map (fun c => (fav_url c, fav_size c, fav_source c, fav_score c))
                (favicons r))
    (returned (@analyzePage manifestEnv "example.com" demo_config None
                 manifest_state))
  = Some
      [ ("https://example.com/touch.png", Some (Num 180), LinkTag, 140);
        ("https://example.com/icon-32.png", Some (Num 32), LinkTag, 110);
        ("https://example.com/icon.png", Some (Num 256), Manifest, 40);
        ("https://example.com/icon.png", Some (Num 512), Manifest, 40);
        ("https://example.com/apple-touch-icon.png", None, Fallback, 20);
        ("https://example.com/favicon.ico", None, Fallback, 10);
        ("https://www.google.com/s2/favicons?domain=https%3A%2F%2Fexample.com&sz=64",
         None, FallbackApi, 1) ]
  /\ ~ (forall r,
          returned (@analyzePage manifestEnv "example.com" demo_config None
                      manifest_state) = Some r ->
          forall c256 c512,
            In c256 (favicons r) -> In c512 (favicons r) ->
            same_icon c256 c512 ->
            fav_size c256 = Some (Num 256) -> fav_size c512 = Some (Num 512) ->
            fav_score c512 > fav_score c256).
Proof.
  split; [vm_compute; reflexivity|].
  intros Hall.
  pose (icon := fun n =>
          {| fav_url := "https://example.com/icon.png";
             fav_size := Some (Num n);
             fav_format := VString "image/png";
             fav_source := Manifest;
             fav_score := 40;
             fav_isFallback := None |}).
  assert (Hgt : fav_score (icon 512) > fav_score (icon 256)).
  { apply (Hall _ eq_refl).
    - cbn. right. right. left. reflexivity.
    - cbn. right. right. right. left. reflexivity.
    - repeat split.
    - reflexivity.
    - reflexivity. }
  cbn in Hgt. lia.
Qed.

(** C9, as the code has it. The score of [calculateFaviconScore] is
    monotonic in the declared size: at the same type and rel, width 512 is
    scored ten points above width 256.  So of two icons declared by link
    tags that differ only in their [sizes] attribute, one of width 256 and
    one of width 512, the second is scored strictly higher and they agree
    in every other field.  The icons of a web manifest are not scored by
    size: each is given the score 40. *)
Theorem calculateFaviconScore_512_above_256 :
  forall `{Env},
    (forall (type : option string) (rel : string),
        calculateFaviconScore (Some (Num 512)) type rel
          > calculateFaviconScore (Some (Num 256)) type rel
        /\ calculateFaviconScore (Some (Num 512)) type rel
           = calculateFaviconScore (Some (Num 256)) type rel + 10)
    /\ (forall baseUrl e256 e512 c256 c512,
          attr e256 "href" = attr e512 "href" ->
          attr e256 "type" = attr e512 "type" ->
          attr e256 "rel" = attr e512 "rel" ->
          parseSizes (attr e256 "sizes") = Some (Num 256) ->
          parseSizes (attr e512 "sizes") = Some (Num 512) ->
          In c256 (linkTagFavicon baseUrl e256) ->
          In c512 (linkTagFavicon baseUrl e512) ->
          fav_size c256 = Some (Num 256) /\ fav_size c512 = Some (Num 512)
          /\ same_icon c256 c512
          /\ fav_score c512 > fav_score c256
          /\ fav_score c512 = fav_score c256 + 10)
    /\ (forall baseUrl icon c,
          In c (fst (manifestIcon baseUrl icon)) ->
          fav_source c = Manifest /\ fav_score c = 40).
Proof.
  intros E.
  assert (Hscore :
            forall (type : option string) (rel : string),
              calculateFaviconScore (Some (Num 512)) type rel
              = calculateFaviconScore (Some (Num 256)) type rel + 10).
  { intros type rel. unfold calculateFaviconScore. simpl.
    destruct (opt_includes type "svg"), (opt_includes type "png"),
      (opt_includes type "webp"), (opt_includes type "gif"),
      (opt_includes type "ico"), (includes rel "apple-touch-icon"),
      (includes rel "mask-icon"); lia. }
  split; [|split].
  - intros type rel. specialize (Hscore type rel). split; [lia | exact Hscore].
  - intros baseUrl e256 e512 c256 c512 Hhref Htype Hrel H256 H512.
    unfold linkTagFavicon. rewrite <- Hhref, <- Htype, <- Hrel, H256, H512.
    destruct (attr e256 "href") as [href|]; [|intros []].
    destruct (nonempty href); [|intros []].
    intros [<- | []] [<- | []]. cbn [fav_size fav_score].
    split; [reflexivity|]. split; [reflexivity|].
    split; [repeat split|].
    rewrite Hscore. split; [lia | reflexivity].
  - intros baseUrl icon c. unfold manifestIcon.
    destruct (get_prop icon "src") as [src|]; [|intros []].
    destruct (truthy src); [|intros []].
    destruct (resolveUrl_value src baseUrl); [|intros []].
    destruct (parseSizes_value _); [|intros []].
    intros [<- | []]. split; reflexivity.
Qed.

Lemma calculateFaviconScore_512_above_256_witness :
  exists c256 c512,
    @linkTagFavicon demoEnv "https://example.com"
      (element [("rel", "icon"); ("href", "/icon.png"); ("sizes", "256x256")])
    = [c256]
    /\ @linkTagFavicon demoEnv "https://example.com"
         (element [("rel", "icon"); ("href", "/icon.png"); ("sizes", "512x512")])
       = [c512]
    /\ fav_size c256 = Some (Num 256) /\ fav_size c512 = Some (Num 512)
    /\ same_icon c256 c512
    /\ fav_score c512 > fav_score c256
    /\ fav_score c512 = fav_score c256 + 10.
Proof.
  eexists. eexists. split; [reflexivity|]. split; [reflexivity|].
  apply (proj1 (proj2 (@calculateFaviconScore_512_above_256 demoEnv))
           "https://example.com"
           (element [("rel", "icon"); ("href", "/icon.png"); ("sizes", "256x256")])
           (element [("rel", "icon"); ("href", "/icon.png"); ("sizes", "512x512")])).
  - reflexivity.
  - reflexivity.
  - reflexivity.
  - reflexivity.
  - reflexivity.
  - left. reflexivity.
  - left. reflexivity.
Defined.

(** ** URL resolution *)

Lemma startsWith_slashes_not_http :
  forall url, startsWith url "//" = true -> startsWith url "http" = false.
Proof.
  intros url H. unfold startsWith in *.
  destruct url as [|c url]; cbn [String.prefix] in *; [discriminate H|].
  destruct (ascii_dec "/" c) as [e|n]; [|discriminate H].
  subst c. reflexivity.
Qed.

Lemma startsWith_slash_not_http :
  forall url, startsWith url "/" = true -> startsWith url "http" = false.
Proof.
  intros url H. unfold startsWith in *.
  destruct url as [|c url]; cbn [String.prefix] in *; [discriminate H|].
  destruct (ascii_dec "/" c) as [e|n]; [|discriminate H].
  subst c. reflexivity.
Qed.

(** C7, as the code has it. A data URI is returned unchanged; a reference
    that starts with 'http' (every http:// and https:// URL) is returned
    unchanged; '//host/path' gets 'https:' in front; '/path' gets the base
    origin in front; anything else, a reference with another scheme
    included, gets the base origin and one '/' in front. *)
Theorem resolveUrl_cases :
  forall `{Env} (url baseUrl : string),
    (isDataUrl url = true -> resolveUrl url baseUrl = url)
    /\ (startsWith url "http" = true -> resolveUrl url baseUrl = url)
    /\ (isDataUrl url = false -> startsWith url "//" = true ->
        resolveUrl url baseUrl = "https:" ++ url)
    /\ (isDataUrl url = false -> startsWith url "/" = true ->
        startsWith url "//" = false ->
        resolveUrl url baseUrl = baseUrl ++ url)
    /\ (isDataUrl url = false -> startsWith url "http" = false ->
        startsWith url "/" = false ->
        resolveUrl url baseUrl = baseUrl ++ "/" ++ url).
Proof.
  intros E url baseUrl. unfold resolveUrl. repeat split.
  - intros ->. reflexivity.
  - intros ->. destruct (isDataUrl url); reflexivity.
  - intros -> Hs. rewrite (startsWith_slashes_not_http _ Hs), Hs. reflexivity.
  - intros -> Hs Hss. rewrite (startsWith_slash_not_http _ Hs), Hss, Hs.
    reflexivity.
  - intros -> Hh Hs. rewrite Hh, Hs.
    destruct (startsWith url "//") eqn:Hss; [|reflexivity].
    unfold startsWith in *.
    destruct url as [|c url]; cbn [String.prefix] in *; [discriminate Hss|].
    destruct (ascii_dec "/" c); [destruct url; discriminate Hs | discriminate Hss].
Qed.

(** The claim C7 as it is written fails on a reference with a scheme other
    than http or https: it is not returned unchanged. *)
Lemma resolveUrl_ftp_counterexample :
  @resolveUrl demoEnv "ftp://files.example.com/logo.png" "https://example.com"
    = "https://example.com/ftp://files.example.com/logo.png"
  /\ @resolveUrl demoEnv "ftp://files.example.com/logo.png" "https://example.com"
     <> "ftp://files.example.com/logo.png".
Proof. split; [reflexivity | discriminate]. Qed.

Lemma resolveUrl_cases_witness :
  @resolveUrl demoEnv "data:image/png;base64,iVBORw0KGgo=" "https://example.com"
    = "data:image/png;base64,iVBORw0KGgo="
  /\ @resolveUrl demoEnv "https://cdn.example.com/a.png" "https://example.com"
     = "https://cdn.example.com/a.png"
  /\ @resolveUrl demoEnv "//cdn.example.com/a.png" "https://example.com"
     = "https://cdn.example.com/a.png"
  /\ @resolveUrl demoEnv "/img/a.png" "https://example.com"
     = "https://example.com/img/a.png"
  /\ @resolveUrl demoEnv "img/a.png" "https://example.com"
     = "https://example.com/img/a.png".
Proof.
  split; [|split; [|split; [|split]]].
  - apply (proj1 (@resolveUrl_cases demoEnv "data:image/png;base64,iVBORw0KGgo="
                    "https://example.com")).
    reflexivity.
  - apply (proj1 (proj2 (@resolveUrl_cases demoEnv "https://cdn.example.com/a.png"
                           "https://example.com"))).
    reflexivity.
  - apply (proj1 (proj2 (proj2 (@resolveUrl_cases demoEnv "//cdn.example.com/a.png"
                                  "https://example.com")))); reflexivity.
  - apply (proj1 (proj2 (proj2 (proj2 (@resolveUrl_cases demoEnv "/img/a.png"
                                         "https://example.com"))))); reflexivity.
  - apply (proj2 (proj2 (proj2 (proj2 (@resolveUrl_cases demoEnv "img/a.png"
                                         "https://example.com"))))); reflexivity.
Defined.

(** ** Format detection *)

Lemma starts_with_two :
  forall buffer a b,
    byte_is buffer 0 a && byte_is buffer 1 b = starts_with_bytes buffer [a; b].
Proof.
  intros [|p [|q r]] a b; unfold byte_is; simpl;
    repeat rewrite ?andb_false_r, ?andb_true_r, ?andb_assoc; reflexivity.
Qed.

Lemma starts_with_three :
  forall buffer a b c,
    byte_is buffer 0 a && byte_is buffer 1 b && byte_is buffer 2 c
    = starts_with_bytes buffer [a; b; c].
Proof.
  intros [|p [|q [|r t]]] a b c; unfold byte_is; simpl;
    repeat rewrite ?andb_false_r, ?andb_true_r, ?andb_assoc; reflexivity.
Qed.

(** Splits [a || b || ... = false] into its parts. *)
Ltac break_orb H :=
  repeat match type of H with
         | (_ || _) = false =>
             let H' := fresh "Hb" in apply orb_false_elim in H as [H H']
         end.

(** Rewrites with every test that is known to fail. *)
Ltac rewrite_false :=
  repeat match goal with
         | Hx : ?t = false |- context [?t] => rewrite Hx
         end.

(** [detectFormat], with its five tests named. *)
Lemma detectFormat_rules :
  forall buffer hint,
    detectFormat buffer hint =
    if starts_with_bytes buffer [x89; x50] then "png"
    else if starts_with_bytes buffer [xff; xd8] then "jpg"
    else if starts_with_bytes buffer [x52; x49] then "webp"
    else if starts_with_bytes buffer [x47; x49; x46] then "gif"
    else if includes (toString_utf8_0_5 buffer) "<svg" then "svg"
    else detectFormat [] hint.
Proof.
  intros buffer hint. unfold detectFormat.
  rewrite !starts_with_three, !starts_with_two. reflexivity.
Qed.

(** C6. The format is decided by the magic bytes first: a buffer that
    starts with 89 50 is png, with FF D8 jpg, with 52 49 webp, with 47 49 46
    gif, and with the text '<svg' svg, whatever the hint.  When one of the
    magic-byte rules applies the hint has no influence.  Only when none
    applies is the hint read, and then it decides: a hint that contains
    'png' gives png, otherwise one that contains 'jpeg' or 'jpg' gives jpg,
    otherwise 'webp' gives webp, otherwise 'svg' gives svg, otherwise 'gif'
    gives gif; a hint that names none of them, or no hint, gives png. *)
Theorem detectFormat_magic_first :
  (forall rest hint, detectFormat (x89 :: x50 :: rest) hint = "png")
  /\ (forall rest hint, detectFormat (xff :: xd8 :: rest) hint = "jpg")
  /\ (forall rest hint, detectFormat (x52 :: x49 :: rest) hint = "webp")
  /\ (forall rest hint, detectFormat (x47 :: x49 :: x46 :: rest) hint = "gif")
  /\ (forall rest hint,
        detectFormat (x3c :: x73 :: x76 :: x67 :: rest) hint = "svg")
  /\ (forall buffer hint hint',
        magic_rule_matches buffer = true ->
        detectFormat buffer hint = detectFormat buffer hint')
  /\ (forall buffer buffer' hint,
        magic_rule_matches buffer = false ->
        magic_rule_matches buffer' = false ->
        detectFormat buffer hint = detectFormat buffer' hint)
  /\ (forall buffer hint,
        magic_rule_matches buffer = false ->
        hint_matches_nothing hint = true ->
        detectFormat buffer hint = "png")
  /\ (forall buffer,
        magic_rule_matches buffer = false ->
        detectFormat buffer None = "png")
  /\ (forall buffer h,
        magic_rule_matches buffer = false ->
        includes h "png" = true ->
        detectFormat buffer (Some h) = "png")
  /\ (forall buffer h,
        magic_rule_matches buffer = false ->
        includes h "png" = false ->
        includes h "jpeg" = true \/ includes h "jpg" = true ->
        detectFormat buffer (Some h) = "jpg")
  /\ (forall buffer h,
        magic_rule_matches buffer = false ->
        includes h "png" = false -> includes h "jpeg" = false ->
        includes h "jpg" = false ->
        includes h "webp" = true ->
        detectFormat buffer (Some h) = "webp")
  /\ (forall buffer h,
        magic_rule_matches buffer = false ->
        includes h "png" = false -> includes h "jpeg" = false ->
        includes h "jpg" = false -> includes h "webp" = false ->
        includes h "svg" = true ->
        detectFormat buffer (Some h) = "svg")
  /\ (forall buffer h,
        magic_rule_matches buffer = false ->
        includes h "png" = false -> includes h "jpeg" = false ->
        includes h "jpg" = false -> includes h "webp" = false ->
        includes h "svg" = false ->
        includes h "gif" = true ->
        detectFormat buffer (Some h) = "gif").
Proof.
  assert (Hhint :
            forall buffer hint,
              magic_rule_matches buffer = false ->
              detectFormat buffer hint
              = let hintStr := match hint with Some s => s | None => EmptyString end in
                if includes hintStr "png" then "png"
                else if includes hintStr "jpeg" || includes hintStr "jpg" then "jpg"
                else if includes hintStr "webp" then "webp"
                else if includes hintStr "svg" then "svg"
                else if includes hintStr "gif" then "gif"
                else "png").
  { intros buffer hint H. rewrite (detectFormat_rules buffer hint).
    unfold magic_rule_matches in H. break_orb H. rewrite_false. reflexivity. }
  split; [reflexivity|]. split; [reflexivity|]. split; [reflexivity|].
  split; [reflexivity|].
  split; [|split; [|split; [|split; [|split; [|split; [|split; [|split;
    [|split]]]]]]]].
  - intros rest hint. destruct rest; lazy; reflexivity.
  - intros buffer hint hint' H.
    rewrite (detectFormat_rules buffer hint), (detectFormat_rules buffer hint').
    unfold magic_rule_matches in H.
    destruct (starts_with_bytes buffer [x89; x50]); [reflexivity|].
    destruct (starts_with_bytes buffer [xff; xd8]); [reflexivity|].
    destruct (starts_with_bytes buffer [x52; x49]); [reflexivity|].
    destruct (starts_with_bytes buffer [x47; x49; x46]); [reflexivity|].
    destruct (includes (toString_utf8_0_5 buffer) "<svg"); [reflexivity|].
    discriminate H.
  - intros buffer buffer' hint H H'.
    rewrite (detectFormat_rules buffer hint), (detectFormat_rules buffer' hint).
    unfold magic_rule_matches in H, H'.
    break_orb H. break_orb H'. rewrite_false. reflexivity.
  - intros buffer hint H Hhint'. rewrite (Hhint _ _ H). cbv zeta.
    unfold hint_matches_nothing in Hhint'. apply negb_true_iff in Hhint'.
    destruct hint as [h|]; cbn [opt_includes] in Hhint'; [|reflexivity].
    break_orb Hhint'. rewrite_false. reflexivity.
  - intros buffer H. rewrite (Hhint _ _ H). reflexivity.
  - intros buffer h H Hpng. rewrite (Hhint _ _ H). cbv zeta.
    rewrite Hpng. reflexivity.
  - intros buffer h H Hpng Hjpg. rewrite (Hhint _ _ H). cbv zeta.
    rewrite Hpng. destruct Hjpg as [-> | ->]; [reflexivity|].
    rewrite orb_true_r. reflexivity.
  - intros buffer h H Hpng Hjpeg Hjpg Hwebp. rewrite (Hhint _ _ H). cbv zeta.
    rewrite Hpng, Hjpeg, Hjpg, Hwebp. reflexivity.
  - intros buffer h H Hpng Hjpeg Hjpg Hwebp Hsvg. rewrite (Hhint _ _ H). cbv zeta.
    rewrite Hpng, Hjpeg, Hjpg, Hwebp, Hsvg. reflexivity.
  - intros buffer h H Hpng Hjpeg Hjpg Hwebp Hsvg Hgif. rewrite (Hhint _ _ H).
    cbv zeta. rewrite Hpng, Hjpeg, Hjpg, Hwebp, Hsvg, Hgif. reflexivity.
Qed.

Lemma detectFormat_magic_first_witness :
  (magic_rule_matches png_bytes = true
   /\ detectFormat png_bytes (Some "image/jpeg") = detectFormat png_bytes None)
  /\ (magic_rule_matches [x00] = false /\ magic_rule_matches [x01; x02] = false
      /\ detectFormat [x00] (Some "image/webp")
         = detectFormat [x01; x02] (Some "image/webp"))
  /\ (magic_rule_matches [x00; x01] = false
      /\ hint_matches_nothing (Some "text/plain") = true
      /\ detectFormat [x00; x01] (Some "text/plain") = "png")
  /\ (magic_rule_matches [x00; x01] = false
      /\ detectFormat [x00; x01] (Some "image/png") = "png"
      /\ detectFormat [x00; x01] (Some "image/jpeg") = "jpg"
      /\ detectFormat [x00; x01] (Some "image/jpg") = "jpg"
      /\ detectFormat [x00; x01] (Some "image/webp") = "webp"
      /\ detectFormat [x00; x01] (Some "image/svg+xml") = "svg"
      /\ detectFormat [x00; x01] (Some "image/gif") = "gif").
Proof.
  pose proof detectFormat_magic_first
    as (_ & _ & _ & _ & _ & Hmagic & Hsame & Hnothing & _
        & Hpng & Hjpg & Hwebp & Hsvg & Hgif).
  split; [|split; [|split]].
  - split; [reflexivity|]. apply Hmagic. reflexivity.
  - split; [reflexivity|]. split; [reflexivity|]. apply Hsame; reflexivity.
  - split; [reflexivity|]. split; [reflexivity|]. apply Hnothing; reflexivity.
  - split; [reflexivity|].
    split; [apply Hpng; reflexivity|].
    split; [apply Hjpg; [reflexivity | reflexivity | left; reflexivity]|].
    split; [apply Hjpg; [reflexivity | reflexivity | right; reflexivity]|].
    split; [apply Hwebp; reflexivity|].
    split; [apply Hsvg; reflexivity|].
    apply Hgif; reflexivity.
Defined.

(** ** Sorting *)

Section SortByScore.

Variable A : Type.
Variable score : A -> Z.

(** The comparator [(a, b) => b.score - a.score]. *)
Let byScore (a b : A) : Z := score b - score a.

Lemma insert_sorted_perm :
  forall x l, Permutation (x :: l) (insert_sorted byScore x l).
Proof.
  intros x l. induction l as [|y l IH]; simpl.
  - apply Permutation_refl.
  - destruct (byScore x y <=? 0).
    + apply Permutation_refl.
    + apply perm_trans with (y :: x :: l).
      * apply perm_swap.
      * apply perm_skip, IH.
Qed.

Lemma Array_sort_perm :
  forall l, Permutation l (Array_sort byScore l).
Proof.
  induction l as [|x l IH]; simpl.
  - apply perm_nil.
  - apply perm_trans with (x :: Array_sort byScore l).
    + apply perm_skip, IH.
    + apply insert_sorted_perm.
Qed.

Lemma insert_sorted_descending :
  forall x l, descending score l -> descending score (insert_sorted byScore x l).
Proof.
  unfold descending. intros x l Hl. induction Hl as [|y l Hl IH Hy]; simpl.
  - repeat constructor.
  - destruct (byScore x y <=? 0) eqn:Hc.
    + apply Z.leb_le in Hc. unfold byScore in Hc.
      constructor; [constructor; assumption|].
      constructor; [lia|].
      eapply Forall_impl; [|exact Hy]. intros a Ha. simpl in Ha. lia.
    + apply Z.leb_gt in Hc. unfold byScore in Hc.
      constructor; [exact IH|].
      eapply Permutation_Forall; [apply insert_sorted_perm|].
      constructor; [lia | exact Hy].
Qed.

Lemma Array_sort_descending :
  forall l, descending score (Array_sort byScore l).
Proof.
  induction l as [|x l IH]; simpl.
  - constructor.
  - apply insert_sorted_descending, IH.
Qed.

Lemma insert_sorted_stable :
  forall s x l,
    with_score score s (insert_sorted byScore x l) = with_score score s (x :: l).
Proof.
  intros s x l. unfold with_score. induction l as [|y l IH]; simpl.
  - reflexivity.
  - destruct (byScore x y <=? 0) eqn:Hc.
    + reflexivity.
    + apply Z.leb_gt in Hc. unfold byScore in Hc.
      simpl. rewrite IH. simpl.
      destruct (score x =? s) eqn:Hx; [|reflexivity].
      apply Z.eqb_eq in Hx.
      destruct (score y =? s) eqn:Hy; [|reflexivity].
      apply Z.eqb_eq in Hy. lia.
Qed.

Lemma Array_sort_stable :
  forall s l, with_score score s (Array_sort byScore l) = with_score score s l.
Proof.
  intros s l. induction l as [|x l IH]; simpl.
  - reflexivity.
  - rewrite insert_sorted_stable. unfold with_score in *. simpl.
    rewrite IH. reflexivity.
Qed.

Lemma Array_sort_In :
  forall x l, In x l <-> In x (Array_sort byScore l).
Proof.
  intros x l. split; apply Permutation_in.
  - apply Array_sort_perm.
  - apply Permutation_sym, Array_sort_perm.
Qed.

End SortByScore.

(** ** Running the monad *)

Section Runs.

Context `{Env}.

Lemma bind_normal :
  forall (A B : Type) (m : M A) (k : A -> M B) st a st',
    m st = (Normal a, st') -> bind m k st = k a st'.
Proof. intros A B m k st a st' Hm. unfold bind. rewrite Hm. reflexivity. Qed.

Lemma bind_abrupt :
  forall (A B : Type) (m : M A) (k : A -> M B) st st',
    m st = (Abrupt, st') -> bind m k st = (Abrupt, st').
Proof. intros A B m k st st' Hm. unfold bind. rewrite Hm. reflexivity. Qed.

(** A [try] whose handler only gives a value always completes normally. *)
Lemma try_catch_ret_total :
  forall (A : Type) (m : M A) (a : A) st,
    exists x st', try_catch m (ret a) st = (Normal x, st').
Proof.
  intros A m a st. unfold try_catch.
  destruct (m st) as [[x|] st']; [exists x, st' | exists a, st']; reflexivity.
Qed.

Lemma try_catch_normal :
  forall (A : Type) (m handler : M A) st a st',
    m st = (Normal a, st') -> try_catch m handler st = (Normal a, st').
Proof.
  intros A m handler st a st' Hm. unfold try_catch. rewrite Hm. reflexivity.
Qed.

Lemma try_catch_abrupt :
  forall (A : Type) (m handler : M A) st st',
    m st = (Abrupt, st') -> try_catch m handler st = handler st'.
Proof.
  intros A m handler st st' Hm. unfold try_catch. rewrite Hm. reflexivity.
Qed.

Lemma extractFaviconFromManifest_total :
  forall baseUrl config st,
    exists l st', extractFaviconFromManifest baseUrl config st = (Normal l, st').
Proof. intros. apply try_catch_ret_total. Qed.

(** The [try] block of [analyzePage] after a page was fetched. *)
Lemma analyzePage_try_fetched :
  forall targetUrl config st html finalUrl st1 u,
    fetchHtml targetUrl config st = (Normal (html, finalUrl), st1) ->
    URL_parse finalUrl = Some u ->
    let baseUrl := protocol u ++ "//" ++ hostname u in
    let doc := cheerio_load html in
    exists manifestFavicons st2,
      analyzePage_try targetUrl config st =
      (Normal
         ((((extractFaviconFromLinkTags doc baseUrl
              ++ [staticFavicon baseUrl "/favicon.ico" 10])
             ++ [staticFavicon baseUrl "/apple-touch-icon.png" 20])
            ++ manifestFavicons)%list,
          (extractOGFromTags doc baseUrl
             ++ extractOGFromTwitterTags doc baseUrl
             ++ extractOGFromJsonLd doc baseUrl)%list,
          extractMetadata doc),
       st2)
      /\ extractFaviconFromManifest baseUrl config st1
         = (Normal manifestFavicons, st2).
Proof.
  intros targetUrl config st html finalUrl st1 u Hfetch Hurl baseUrl doc.
  destruct (extractFaviconFromManifest_total baseUrl config st1)
    as (l & st2 & Hm).
  exists l, st2. split; [|exact Hm].
  unfold analyzePage_try. rewrite (bind_normal _ _ _ _ _ _ _ Hfetch).
  unfold new_URL. rewrite Hurl. cbn [await_opt].
  unfold bind at 1. cbn [ret].
  fold baseUrl. fold doc.
  rewrite (bind_normal _ _ _ _ _ _ _ Hm). reflexivity.
Qed.

(** The [try] block of [analyzePage] when the page cannot be used: the
    exception is caught and the three variables stay empty. *)
Lemma analyzePage_try_failed :
  forall targetUrl config st st1,
    fetchHtml targetUrl config st = (Abrupt, st1) ->
    try_catch (analyzePage_try targetUrl config) (ret emptyLocals) st
    = (Normal emptyLocals, st1).
Proof.
  intros targetUrl config st st1 Hfetch.
  apply try_catch_abrupt with (st' := st1).
  unfold analyzePage_try. apply bind_abrupt. exact Hfetch.
Qed.

Lemma analyzePage_of_collect :
  forall url config size st favs ogs md st',
    analyzePage_collect url config size st = (Normal (favs, ogs, md), st') ->
    analyzePage url config size st
    = (Normal {| favicons := Array_sort byScoreFavicon favs;
                 ogImages := Array_sort byScoreOG ogs;
                 metadata := md |}, st').
Proof.
  intros url config size st favs ogs md st' Hc.
  unfold analyzePage. rewrite (bind_normal _ _ _ _ _ _ _ Hc). reflexivity.
Qed.

Lemma analyzePage_collect_without_api :
  forall url config size st favs ogs md st1,
    try_catch (analyzePage_try (withProtocol url) config) (ret emptyLocals) st
      = (Normal (favs, ogs, md), st1) ->
    USE_FALLBACK_API config = false ->
    analyzePage_collect url config size st = (Normal (favs, ogs, md), st1).
Proof.
  intros url config size st favs ogs md st1 Htry Hflag.
  unfold analyzePage_collect. rewrite (bind_normal _ _ _ _ _ _ _ Htry).
  rewrite Hflag. reflexivity.
Qed.

Lemma analyzePage_collect_with_api :
  forall url config size st favs ogs md st1 parsedUrl,
    try_catch (analyzePage_try (withProtocol url) config) (ret emptyLocals) st
      = (Normal (favs, ogs, md), st1) ->
    USE_FALLBACK_API config = true ->
    URL_parse (withProtocol (String_trim url)) = Some parsedUrl ->
    analyzePage_collect url config size st
    = (Normal ((favs ++ [fallbackApiFavicon ("https://" ++ hostname parsedUrl) size])%list,
               ogs, md), st1).
Proof.
  intros url config size st favs ogs md st1 parsedUrl Htry Hflag Hurl.
  unfold analyzePage_collect. rewrite (bind_normal _ _ _ _ _ _ _ Htry).
  rewrite Hflag. unfold new_URL. rewrite Hurl. reflexivity.
Qed.

Lemma analyzePage_collect_api_throws :
  forall url config size st locals st1,
    try_catch (analyzePage_try (withProtocol url) config) (ret emptyLocals) st
      = (Normal locals, st1) ->
    USE_FALLBACK_API config = true ->
    URL_parse (withProtocol (String_trim url)) = None ->
    analyzePage_collect url config size st = (Abrupt, st1).
Proof.
  intros url config size st [[favs ogs] md] st1 Htry Hflag Hurl.
  unfold analyzePage_collect. rewrite (bind_normal _ _ _ _ _ _ _ Htry).
  rewrite Hflag. unfold new_URL. rewrite Hurl. reflexivity.
Qed.

End Runs.

(** ** Page analysis *)

(** C8. The favicon list and the OpenGraph list that [analyzePage] returns
    are the extracted candidates ordered by descending score, and the
    candidates of equal score keep the order in which they were extracted. *)
Theorem analyzePage_sorted_stable :
  forall `{Env} url config size st extractedFavicons extractedOgImages md st',
    analyzePage_collect url config size st
      = (Normal (extractedFavicons, extractedOgImages, md), st') ->
    exists r,
      analyzePage url config size st = (Normal r, st')
      /\ descending fav_score (favicons r)
      /\ descending og_score (ogImages r)
      /\ Permutation extractedFavicons (favicons r)
      /\ Permutation extractedOgImages (ogImages r)
      /\ (forall s, with_score fav_score s (favicons r)
                    = with_score fav_score s extractedFavicons)
      /\ (forall s, with_score og_score s (ogImages r)
                    = with_score og_score s extractedOgImages).
Proof.
  intros E url config size st favs ogs md st' Hcollect.
  eexists. split; [apply analyzePage_of_collect, Hcollect|].
  cbn [favicons ogImages].
  split; [apply Array_sort_descending|].
  split; [apply Array_sort_descending|].
  split; [apply (Array_sort_perm _ fav_score)|].
  split; [apply (Array_sort_perm _ og_score)|].
  split; intros s; [apply (Array_sort_stable _ fav_score)
                   | apply (Array_sort_stable _ og_score)].
Qed.

Lemma analyzePage_sorted_stable_witness :
  exists r,
    @analyzePage demoEnv "example.com" demo_config None (demo_state Online)
      = (Normal r, snd (@analyzePage_collect demoEnv "example.com" demo_config None
                          (demo_state Online)))
    /\ descending fav_score (favicons r)
    /\ descending og_score (ogImages r).
Proof.
  destruct (@analyzePage_sorted_stable demoEnv "example.com" demo_config None
              (demo_state Online) _ _ _ _ eq_refl) as (r & Hrun & Hf & Ho & _).
  exists r. split; [exact Hrun|]. split; assumption.
Defined.

(** C10. With the fallback API enabled, [analyzePage] raises for an input
    that [new URL] rejects once it is trimmed and prefixed with https://,
    whatever the fetch did; with the fallback API disabled it always
    returns, and a page that cannot be fetched gives two empty lists. *)
Theorem analyzePage_throws_on_unparsable_url :
  forall `{Env} url config size st,
    (USE_FALLBACK_API config = true ->
     URL_parse (withProtocol (String_trim url)) = None ->
     exists st', analyzePage url config size st = (Abrupt, st'))
    /\ (USE_FALLBACK_API config = false ->
        exists r st', analyzePage url config size st = (Normal r, st'))
    /\ (USE_FALLBACK_API config = false ->
        forall st1,
          fetchHtml (withProtocol url) config st = (Abrupt, st1) ->
          exists r,
            analyzePage url config size st = (Normal r, st1)
            /\ favicons r = [] /\ ogImages r = []).
Proof.
  intros E url config size st.
  destruct (try_catch_ret_total _
              (analyzePage_try (withProtocol url) config) emptyLocals st)
    as ([[favs ogs] md] & st1 & Htry).
  split; [|split].
  - intros Hflag Hurl. exists st1.
    unfold analyzePage. apply bind_abrupt.
    apply analyzePage_collect_api_throws with (locals := (favs, ogs, md));
      [exact Htry | exact Hflag | exact Hurl].
  - intros Hflag. eexists. exists st1.
    apply analyzePage_of_collect, analyzePage_collect_without_api;
      [exact Htry | exact Hflag].
  - intros Hflag st2 Hfetch. eexists. split.
    + apply analyzePage_of_collect, analyzePage_collect_without_api;
        [apply analyzePage_try_failed, Hfetch | exact Hflag].
    + split; reflexivity.
Qed.

Lemma analyzePage_throws_on_unparsable_url_witness :
  (USE_FALLBACK_API demo_config = true
   /\ @URL_parse demoEnv (withProtocol (@String_trim demoEnv "exam ple.com")) = None
   /\ exists st',
        @analyzePage demoEnv "exam ple.com" demo_config None (demo_state Online)
        = (Abrupt, st'))
  /\ (exists r st',
        @analyzePage demoEnv "exam ple.com" demo_config_without_api None
          (demo_state Online) = (Normal r, st'))
  /\ (exists r,
        @analyzePage demoEnv "example.com" demo_config_without_api None
          (demo_state Offline)
        = (Normal r, snd (@fetchHtml demoEnv "https://example.com"
                            demo_config_without_api (demo_state Offline)))
        /\ favicons r = [] /\ ogImages r = []).
Proof.
  split; [|split].
  - split; [reflexivity|]. split; [reflexivity|].
    apply (proj1 (@analyzePage_throws_on_unparsable_url demoEnv "exam ple.com"
                    demo_config None (demo_state Online))); reflexivity.
  - apply (proj1 (proj2 (@analyzePage_throws_on_unparsable_url demoEnv
                           "exam ple.com" demo_config_without_api None
                           (demo_state Online)))); reflexivity.
  - apply (proj2 (proj2 (@analyzePage_throws_on_unparsable_url demoEnv
                           "example.com" demo_config_without_api None
                           (demo_state Offline)))); reflexivity.
Defined.

(** C2, as the code has it. When the page was fetched and its final URL
    parses, the favicon list contains the two static candidates
    {origin}/favicon.ico (score 10) and {origin}/apple-touch-icon.png
    (score 20), with the origin of the final URL, whatever the markup and the
    manifest hold; [analyzePage] returns that list unless the fallback API
    is enabled and [new URL] rejects the input.  When the page could not be
    fetched, the only candidate the list can hold is the one of the
    fallback API. *)
Theorem analyzePage_static_fallbacks :
  forall `{Env} url config size st,
    (forall html finalUrl st1 u,
        fetchHtml (withProtocol url) config st = (Normal (html, finalUrl), st1) ->
        URL_parse finalUrl = Some u ->
        USE_FALLBACK_API config = false
        \/ URL_parse (withProtocol (String_trim url)) <> None ->
        exists r st',
          analyzePage url config size st = (Normal r, st')
          /\ In (staticFavicon (protocol u ++ "//" ++ hostname u) "/favicon.ico" 10)
                (favicons r)
          /\ In (staticFavicon (protocol u ++ "//" ++ hostname u)
                   "/apple-touch-icon.png" 20)
                (favicons r))
    /\ (forall st1 r st',
          fetchHtml (withProtocol url) config st = (Abrupt, st1) ->
          analyzePage url config size st = (Normal r, st') ->
          forall c, In c (favicons r) -> fav_source c = FallbackApi).
Proof.
  intros E url config size st. split.
  - intros html finalUrl st1 u Hfetch Hu Hapi.
    destruct (analyzePage_try_fetched _ config _ _ _ _ _ Hfetch Hu)
      as (mf & st2 & Htry & _).
    apply try_catch_normal with (handler := ret emptyLocals) in Htry.
    set (baseUrl := protocol u ++ "//" ++ hostname u) in *.
    destruct (USE_FALLBACK_API config) eqn:Hflag.
    + destruct Hapi as [Hno | Hparse]; [discriminate Hno|].
      destruct (URL_parse (withProtocol (String_trim url))) as [p|] eqn:Hp;
        [|contradiction Hparse; reflexivity].
      eexists. exists st2. split.
      * apply analyzePage_of_collect.
        apply analyzePage_collect_with_api with (parsedUrl := p);
          [exact Htry | exact Hflag | exact Hp].
      * cbn [favicons].
        split; apply -> (Array_sort_In _ fav_score);
          rewrite !in_app_iff; simpl; tauto.
    + eexists. exists st2. split.
      * apply analyzePage_of_collect.
        apply analyzePage_collect_without_api; [exact Htry | exact Hflag].
      * cbn [favicons].
        split; apply -> (Array_sort_In _ fav_score);
          rewrite !in_app_iff; simpl; tauto.
  - intros st1 r st' Hfetch Hrun c Hc.
    pose proof (analyzePage_try_failed _ config _ _ Hfetch) as Htry.
    destruct (USE_FALLBACK_API config) eqn:Hflag.
    + destruct (URL_parse (withProtocol (String_trim url))) as [p|] eqn:Hp.
      * rewrite (analyzePage_of_collect _ _ _ _ _ _ _ _
                   (analyzePage_collect_with_api _ _ size _ _ _ _ _ _
                      Htry Hflag Hp)) in Hrun.
        injection Hrun as <- _. cbn in Hc.
        destruct Hc as [<- | []]. reflexivity.
      * unfold analyzePage in Hrun.
        rewrite (bind_abrupt _ _ _ _ _ _
                   (analyzePage_collect_api_throws _ _ size _ _ _
                      Htry Hflag Hp)) in Hrun.
        discriminate Hrun.
    + rewrite (analyzePage_of_collect _ _ _ _ _ _ _ _
                 (analyzePage_collect_without_api _ _ size _ _ _ _ _
                    Htry Hflag)) in Hrun.
      injection Hrun as <- _. destruct Hc.
Qed.

(** The claim C2 as it is written fails when the page cannot be fetched:
    the favicon list then holds the candidate of the fallback API and no
    static candidate. *)
Lemma analyzePage_offline_counterexample :
  option_map (fun r => map (fun c => (fav_url c, fav_source c)) (favicons r))
    (returned (@analyzePage demoEnv "example.com" demo_config None
                 (demo_state Offline)))
  = Some [("https://www.google.com/s2/favicons?domain=https%3A%2F%2Fexample.com&sz=64",
           FallbackApi)]
  /\ ~ (forall r,
          returned (@analyzePage demoEnv "example.com" demo_config None
                      (demo_state Offline)) = Some r ->
          In (staticFavicon "https://example.com" "/favicon.ico" 10) (favicons r)
          /\ In (staticFavicon "https://example.com" "/apple-touch-icon.png" 20)
                (favicons r)).
Proof.
  split; [vm_compute; reflexivity|].
  intros Hall. destruct (Hall _ eq_refl) as [Hico _].
  cbn in Hico. destruct Hico as [Heq | []]. discriminate Heq.
Qed.

Lemma analyzePage_static_fallbacks_witness :
  (exists r st',
      @analyzePage demoEnv "example.com" demo_config None (demo_state Online)
      = (Normal r, st')
      /\ In (staticFavicon "https://example.com" "/favicon.ico" 10) (favicons r)
      /\ In (staticFavicon "https://example.com" "/apple-touch-icon.png" 20)
            (favicons r))
  /\ (exists r st',
        @analyzePage demoEnv "example.com" demo_config None (demo_state Offline)
        = (Normal r, st')
        /\ forall c, In c (favicons r) -> fav_source c = FallbackApi).
Proof.
  split.
  - apply (proj1 (@analyzePage_static_fallbacks demoEnv "example.com" demo_config
                    None (demo_state Online))
             "<html>" "https://example.com/"
             (snd (@fetchHtml demoEnv "https://example.com" demo_config
                     (demo_state Online)))
             {| protocol := "https:"; hostname := "example.com";
                origin := "https://example.com"; href := "https://example.com/" |}).
    + reflexivity.
    + reflexivity.
    + right. discriminate.
  - eexists. eexists. split; [reflexivity|].
    apply (proj2 (@analyzePage_static_fallbacks demoEnv "example.com" demo_config
                    None (demo_state Offline))
             (snd (@fetchHtml demoEnv "https://example.com" demo_config
                     (demo_state Offline)))
             _ _ eq_refl eq_refl).
Defined.

(** ** Candidate resolution *)

Section Resolver.

Context `{Env}.

Lemma buffer_length_nonneg : forall b, 0 <= buffer_length b.
Proof. intros b. unfold buffer_length. lia. Qed.

(** The size test of the code, against the two size reasons of the
    specification. *)
Lemma size_test :
  forall buffer config,
    (0 <? buffer_length buffer) && (buffer_length buffer <=? MAX_IMAGE_SIZE config)
    = negb (buffer_length buffer =? 0)
      && negb (MAX_IMAGE_SIZE config <? buffer_length buffer).
Proof.
  intros buffer config. pose proof (buffer_length_nonneg buffer).
  destruct (Z.ltb_spec 0 (buffer_length buffer)),
    (Z.leb_spec (buffer_length buffer) (MAX_IMAGE_SIZE config)),
    (Z.eqb_spec (buffer_length buffer) 0),
    (Z.ltb_spec (MAX_IMAGE_SIZE config) (buffer_length buffer));
    simpl; try reflexivity; lia.
Qed.

(** One iteration of the loop: the candidate is obtained, checked, and
    either skipped or returned. *)
Lemma tryImage_spec :
  forall image config st,
    try_catch (tryImage image config) (ret None) st
    = (Normal (match spec_skip config (fst (spec_obtain image config st)) with
               | Some _ => None
               | None => spec_asset image (fst (spec_obtain image config st))
               end),
       snd (spec_obtain image config st)).
Proof.
  intros image config st.
  unfold try_catch, tryImage, spec_obtain, bind, fetch, lift, await_opt, ret, throw.
  destruct (isDataUrl (og_url image)).
  - destruct (parseDataUrl (og_url image)) as [[p|]|]; cbn; try reflexivity.
    rewrite size_test.
    destruct (buffer_length (du_buffer p) =? 0); cbn; [reflexivity|].
    destruct (MAX_IMAGE_SIZE config <? buffer_length (du_buffer p)); cbn;
      [reflexivity|].
    destruct (validateImage (du_buffer p)) as [[|]|]; reflexivity.
  - destruct (net (world st) (imageRequest (og_url image) config))
      as [[response|] w]; cbn; [|reflexivity].
    destruct (resp_ok response); cbn; [|reflexivity].
    destruct (resp_arrayBuffer response) as [buffer|]; cbn; [|reflexivity].
    rewrite size_test.
    destruct (buffer_length buffer =? 0); cbn; [reflexivity|].
    destruct (MAX_IMAGE_SIZE config <? buffer_length buffer); cbn; [reflexivity|].
    destruct (validateImage buffer) as [[|]|]; reflexivity.
Qed.

Lemma fetchBestOGImage_cons :
  forall image rest config st,
    fetchBestOGImage (image :: rest) config st
    = match spec_skip config (fst (spec_obtain image config st)) with
      | Some _ => fetchBestOGImage rest config (snd (spec_obtain image config st))
      | None => (Normal (spec_asset image (fst (spec_obtain image config st))),
                 snd (spec_obtain image config st))
      end.
Proof.
  intros image rest config st. cbn [fetchBestOGImage].
  rewrite (bind_normal _ _ _ _ _ _ _ (tryImage_spec image config st)).
  destruct (spec_skip config (fst (spec_obtain image config st))) eqn:Hskip;
    [reflexivity|].
  destruct (fst (spec_obtain image config st)) eqn:Ho; cbn in *.
  - discriminate Hskip.
  - reflexivity.
Qed.

(** The loop of the code computes the first success of the specification. *)
Lemma fetchBestOGImage_refines :
  forall images config st,
    fetchBestOGImage images config st
    = (Normal (fst (spec_first_success images config st)),
       snd (spec_first_success images config st)).
Proof.
  induction images as [|image rest IH]; intros config st.
  - reflexivity.
  - rewrite fetchBestOGImage_cons. cbn [spec_first_success].
    destruct (spec_obtain image config st) as [o st1]. cbn [fst snd].
    destruct (spec_skip config o); [apply IH | reflexivity].
Qed.

(** What one iteration does to the state. *)
Lemma spec_obtain_state :
  forall image config st,
    snd (spec_obtain image config st)
    = if isDataUrl (og_url image) then st
      else {| world := snd (net (world st) (imageRequest (og_url image) config));
              trace := trace st ++ [EvFetch (imageRequest (og_url image) config)] |}.
Proof.
  intros image config st. unfold spec_obtain.
  destruct (isDataUrl (og_url image)); [reflexivity|].
  destruct (net (world st) (imageRequest (og_url image) config)); reflexivity.
Qed.

Lemma fetched_app :
  forall a b, fetched (a ++ b) = (fetched a ++ fetched b)%list.
Proof. intros a b. unfold fetched. apply flat_map_app. Qed.

Lemma imageFetches_app :
  forall a b config,
    imageFetches (a ++ b) config
    = (imageFetches a config ++ imageFetches b config)%list.
Proof.
  intros a b config. unfold imageFetches, networkImages.
  rewrite filter_app, map_app. reflexivity.
Qed.

(** The events of one iteration. *)
Lemma spec_obtain_trace :
  forall image config st,
    trace (snd (spec_obtain image config st))
    = (trace st ++ imageFetches [image] config)%list.
Proof.
  intros image config st. rewrite spec_obtain_state.
  unfold imageFetches, networkImages. cbn [filter].
  destruct (isDataUrl (og_url image)); cbn [negb map trace].
  - rewrite app_nil_r. reflexivity.
  - reflexivity.
Qed.

(** The loop on one candidate. *)
Lemma fetchBestOGImage_single :
  forall image config st,
    fetchBestOGImage [image] config st
    = (Normal (match spec_skip config (fst (spec_obtain image config st)) with
               | Some _ => None
               | None => spec_asset image (fst (spec_obtain image config st))
               end),
       snd (spec_obtain image config st)).
Proof.
  intros image config st. rewrite fetchBestOGImage_cons.
  destruct (spec_skip config (fst (spec_obtain image config st))); reflexivity.
Qed.

(** An asset that the loop returns on one candidate is made of that
    candidate and of the bytes its reference gave. *)
Lemma fetchBestOGImage_single_asset :
  forall image config st asset st',
    fetchBestOGImage [image] config st = (Normal (Some asset), st') ->
    asset_isFallback asset = og_isFallback image
    /\ asset_source asset = og_source image
    /\ asset_url asset = og_url image
    /\ bytes_of_candidate image config st (asset_data asset).
Proof.
  intros image config st asset st' Hrun.
  rewrite fetchBestOGImage_single in Hrun. injection Hrun as Hasset _.
  destruct (spec_skip config (fst (spec_obtain image config st)));
    [discriminate Hasset|].
  destruct (fst (spec_obtain image config st)) as [why|buffer mimeType] eqn:Ho;
    cbn [spec_asset] in Hasset; [discriminate Hasset|].
  injection Hasset as <-. cbn [asset_isFallback asset_source asset_url asset_data].
  split; [reflexivity|]. split; [reflexivity|]. split; [reflexivity|].
  unfold bytes_of_candidate. unfold spec_obtain in Ho.
  destruct (isDataUrl (og_url image)).
  - cbn [fst] in Ho.
    destruct (parseDataUrl (og_url image)) as [[p|]|]; try discriminate Ho.
    injection Ho as <- _. exists p. split; reflexivity.
  - destruct (net (world st) (imageRequest (og_url image) config))
      as [[response|] w]; cbn [fst] in Ho |- *; [|discriminate Ho].
    destruct (resp_ok response) eqn:Hok; [|discriminate Ho].
    destruct (resp_arrayBuffer response) as [body|] eqn:Hbody; [|discriminate Ho].
    injection Ho as <- _. exists response. repeat split; assumption.
Qed.

(** A run of the loop: either every candidate is skipped, or the
    candidates before the first that passes are skipped and the result is
    the asset of that candidate; the events are the requests for the
    candidates that were reached and are not data URIs. *)
Lemma fetchBestOGImage_run :
  forall images config st,
    (exists st',
        fetchBestOGImage images config st = (Normal None, st')
        /\ trace st' = (trace st ++ imageFetches images config)%list)
    \/ (exists pre image post st_pre asset st',
          images = (pre ++ image :: post)%list
          /\ fetchBestOGImage pre config st = (Normal None, st_pre)
          /\ trace st_pre = (trace st ++ imageFetches pre config)%list
          /\ fetchBestOGImage [image] config st_pre = (Normal (Some asset), st')
          /\ fetchBestOGImage images config st = (Normal (Some asset), st')
          /\ trace st' = (trace st ++ imageFetches (pre ++ [image]) config)%list).
Proof.
  induction images as [|image rest IH]; intros config st.
  - left. exists st. split; [reflexivity|]. cbn. rewrite app_nil_r. reflexivity.
  - pose proof (spec_obtain_trace image config st) as Htrace.
    pose proof (fetchBestOGImage_single image config st) as Hsingle.
    rewrite fetchBestOGImage_cons.
    destruct (spec_skip config (fst (spec_obtain image config st))) as [why|]
      eqn:Hskip.
    + destruct (IH config (snd (spec_obtain image config st)))
        as [(st' & Hrun & Hst') | (pre & found & post & st_pre & asset & st'
                                   & -> & Hpre & Hst_pre & Hfound & Hrun & Hst')].
      * left. exists st'. split; [exact Hrun|].
        rewrite Hst', Htrace, <- app_assoc.
        change (image :: rest) with ([image] ++ rest)%list.
        rewrite imageFetches_app. reflexivity.
      * right. exists (image :: pre), found, post, st_pre, asset, st'.
        split; [reflexivity|]. split.
        { rewrite fetchBestOGImage_cons, Hskip. exact Hpre. }
        split.
        { rewrite Hst_pre, Htrace, <- app_assoc.
          change (image :: pre) with ([image] ++ pre)%list.
          rewrite imageFetches_app. reflexivity. }
        split; [exact Hfound|]. split; [exact Hrun|].
        rewrite Hst', Htrace, <- app_assoc.
        change ((image :: pre) ++ [found])%list
          with ([image] ++ (pre ++ [found]))%list.
        rewrite (imageFetches_app [image]). reflexivity.
    + destruct (fst (spec_obtain image config st)) as [why|buffer mimeType] eqn:Ho;
        [discriminate Hskip|].
      right. exists [], image, rest, st. eexists. eexists.
      split; [reflexivity|]. split; [reflexivity|].
      split; [cbn; rewrite app_nil_r; reflexivity|].
      split; [exact Hsingle|]. split; [reflexivity|].
      cbn [app snd]. exact Htrace.
Qed.

End Resolver.

(** C4. [fetchBestOGImage] never raises.  It goes through the candidates
    in list order; a candidate is skipped exactly when its fetch fails,
    answers with a status that is not 2xx, gives an empty payload, gives a
    payload above MAX_IMAGE_SIZE, or gives bytes that are not a valid image;
    the first candidate that is not skipped is returned; and the result is
    null when every candidate is skipped. *)
Theorem fetchBestOGImage_first_success :
  forall `{Env} config,
    (forall images st,
        fetchBestOGImage images config st
        = (Normal (fst (spec_first_success images config st)),
           snd (spec_first_success images config st)))
    /\ (forall st, fetchBestOGImage [] config st = (Normal None, st))
    /\ (forall image rest st why,
          spec_skip config (fst (spec_obtain image config st)) = Some why ->
          fetchBestOGImage (image :: rest) config st
          = fetchBestOGImage rest config (snd (spec_obtain image config st)))
    /\ (forall image rest st,
          spec_skip config (fst (spec_obtain image config st)) = None ->
          exists asset,
            spec_asset image (fst (spec_obtain image config st)) = Some asset
            /\ fetchBestOGImage (image :: rest) config st
               = (Normal (Some asset), snd (spec_obtain image config st))).
Proof.
  intros E config. split; [|split; [|split]].
  - intros images st. apply fetchBestOGImage_refines.
  - reflexivity.
  - intros image rest st why Hskip.
    rewrite fetchBestOGImage_cons, Hskip. reflexivity.
  - intros image rest st Hskip.
    rewrite fetchBestOGImage_cons, Hskip.
    destruct (fst (spec_obtain image config st)) as [why|buffer mimeType].
    + discriminate Hskip.
    + eexists. split; reflexivity.
Qed.

Lemma fetchBestOGImage_first_success_witness :
  (@spec_skip demoEnv demo_config
     (fst (@spec_obtain demoEnv (demo_image "https://example.com/missing.png")
             demo_config (demo_state Online)))
   = Some Non2xxStatus
   /\ @fetchBestOGImage demoEnv
        [demo_image "https://example.com/missing.png";
         demo_image "https://example.com/og.png"] demo_config (demo_state Online)
      = @fetchBestOGImage demoEnv [demo_image "https://example.com/og.png"]
          demo_config
          (snd (@spec_obtain demoEnv (demo_image "https://example.com/missing.png")
                  demo_config (demo_state Online))))
  /\ (@spec_skip demoEnv demo_config
        (fst (@spec_obtain demoEnv (demo_image "https://example.com/og.png")
                demo_config (demo_state Online)))
      = None
      /\ exists asset,
           @spec_asset (demo_image "https://example.com/og.png")
             (fst (@spec_obtain demoEnv (demo_image "https://example.com/og.png")
                     demo_config (demo_state Online)))
           = Some asset
           /\ @fetchBestOGImage demoEnv [demo_image "https://example.com/og.png"]
                demo_config (demo_state Online)
              = (Normal (Some asset),
                 snd (@spec_obtain demoEnv (demo_image "https://example.com/og.png")
                        demo_config (demo_state Online)))).
Proof.
  split.
  - split; [reflexivity|].
    apply (proj1 (proj2 (proj2 (@fetchBestOGImage_first_success demoEnv demo_config))))
      with (why := Non2xxStatus).
    reflexivity.
  - split; [reflexivity|].
    apply (proj2 (proj2 (proj2 (@fetchBestOGImage_first_success demoEnv demo_config)))).
    reflexivity.
Defined.

(** C5. Resolving a candidate whose reference is a data URI makes no
    network request: [fetchBestOGImage] on that candidate leaves the state
    of the network and the trace of calls as they were.  Resolving any
    other candidate makes exactly one request, for the URL of that
    candidate.  The same holds of one iteration of the loop.  Over a whole
    run, which never raises, the candidates are resolved in order up to the
    one that is returned, or all of them when the result is null, and the
    events of the run are exactly one request for each of the resolved
    candidates that is not a data URI, in order, and nothing else. *)
Theorem data_urls_never_fetched :
  forall `{Env} config st,
    (forall image,
        isDataUrl (og_url image) = true ->
        snd (try_catch (tryImage image config) (ret None) st) = st)
    /\ (forall image,
          isDataUrl (og_url image) = false ->
          trace (snd (try_catch (tryImage image config) (ret None) st))
          = (trace st ++ [EvFetch (imageRequest (og_url image) config)])%list
          /\ req_url (imageRequest (og_url image) config) = og_url image)
    /\ (forall image,
          isDataUrl (og_url image) = true ->
          snd (fetchBestOGImage [image] config st) = st)
    /\ (forall image,
          isDataUrl (og_url image) = false ->
          snd (fetchBestOGImage [image] config st)
          = after_fetch st (imageRequest (og_url image) config)
          /\ trace (snd (fetchBestOGImage [image] config st))
             = (trace st ++ [EvFetch (imageRequest (og_url image) config)])%list)
    /\ (forall images,
          exists resolved rest,
            images = (resolved ++ rest)%list
            /\ trace (snd (fetchBestOGImage images config st))
               = (trace st ++ imageFetches resolved config)%list
            /\ match fst (fetchBestOGImage images config st) with
               | Normal None => rest = []
               | Normal (Some asset) =>
                   exists pre image,
                     resolved = (pre ++ [image])%list
                     /\ asset_url asset = og_url image
                     /\ fst (fetchBestOGImage pre config st) = Normal None
               | Abrupt => False
               end).
Proof.
  intros E config st. split; [|split; [|split; [|split]]].
  - intros image Hdata.
    rewrite tryImage_spec. cbn [snd]. rewrite spec_obtain_state, Hdata. reflexivity.
  - intros image Hdata. split; [|reflexivity].
    rewrite tryImage_spec. cbn [snd]. rewrite spec_obtain_state, Hdata. reflexivity.
  - intros image Hdata.
    rewrite fetchBestOGImage_single. cbn [snd].
    rewrite spec_obtain_state, Hdata. reflexivity.
  - intros image Hdata.
    rewrite fetchBestOGImage_single. cbn [snd].
    rewrite spec_obtain_state, Hdata. split; reflexivity.
  - intros images.
    destruct (fetchBestOGImage_run images config st)
      as [(st' & Hrun & Hst')
         | (pre & image & post & st_pre & asset & st'
            & -> & Hpre & _ & Hfound & Hrun & Hst')].
    + exists images, []. rewrite Hrun. cbn [fst snd].
      split; [rewrite app_nil_r; reflexivity|]. split; [exact Hst' | reflexivity].
    + exists (pre ++ [image])%list, post. rewrite Hrun. cbn [fst snd].
      split; [rewrite <- app_assoc; reflexivity|]. split; [exact Hst'|].
      exists pre, image. split; [reflexivity|]. split.
      * apply (fetchBestOGImage_single_asset _ _ _ _ _ Hfound).
      * rewrite Hpre. reflexivity.
Qed.

Lemma data_urls_never_fetched_witness :
  (@isDataUrl demoEnv "data:image/png;base64,iVBORw0KGgo=" = true
   /\ snd (@try_catch demoEnv _
             (@tryImage demoEnv (demo_image "data:image/png;base64,iVBORw0KGgo=")
                demo_config)
             (@ret demoEnv _ None) (demo_state Online))
      = demo_state Online)
  /\ (@isDataUrl demoEnv "https://example.com/og.png" = false
      /\ trace (snd (@try_catch demoEnv _
                       (@tryImage demoEnv (demo_image "https://example.com/og.png")
                          demo_config)
                       (@ret demoEnv _ None) (demo_state Online)))
         = [EvFetch (imageRequest "https://example.com/og.png" demo_config)])
  /\ snd (@fetchBestOGImage demoEnv
            [demo_image "data:image/png;base64,iVBORw0KGgo="] demo_config
            (demo_state Online))
     = demo_state Online
  /\ trace (snd (@fetchBestOGImage demoEnv
                   [demo_image "https://example.com/missing.png"] demo_config
                   (demo_state Online)))
     = [EvFetch (imageRequest "https://example.com/missing.png" demo_config)].
Proof.
  split; [|split; [|split]].
  - split; [reflexivity|].
    apply (proj1 (@data_urls_never_fetched demoEnv demo_config (demo_state Online))
             (demo_image "data:image/png;base64,iVBORw0KGgo=")).
    reflexivity.
  - split; [reflexivity|].
    apply (proj1 (proj2 (@data_urls_never_fetched demoEnv demo_config
                           (demo_state Online)))
             (demo_image "https://example.com/og.png")).
    reflexivity.
  - apply (proj1 (proj2 (proj2 (@data_urls_never_fetched demoEnv demo_config
                                  (demo_state Online))))
             (demo_image "data:image/png;base64,iVBORw0KGgo=")).
    reflexivity.
  - apply (proj1 (proj2 (proj2 (proj2 (@data_urls_never_fetched demoEnv demo_config
                                         (demo_state Online)))))
             (demo_image "https://example.com/missing.png")).
    reflexivity.
Defined.

(** ** The fallback response *)

(** C3. When the caller supplied a default image and fetching it fails,
    [handleFallback] answers with the error response (status 500, 'Failed to
    fetch default image'); the cached default is not read.  More generally,
    whenever a default image was supplied the cached default is not read,
    whatever happens afterwards. *)
Theorem handleFallback_custom_default_failure :
  forall `{Env} c config response defaultImage size format st,
    nonempty defaultImage = true ->
    (forall w',
        fetchCustomDefault defaultImage config (world st) = (Abrupt, w') ->
        handleFallback c config response (Some defaultImage) size format st
        = (Normal (c_json (ErrorBody "Failed to fetch default image") 500
                     (generateErrorHeaders config)),
           {| world := w';
              trace := trace st
                         ++ [EvFetchCustomDefault defaultImage;
                             EvLogError "Error fetching default image"] |}))
    /\ (exists events,
          trace (snd (handleFallback c config response (Some defaultImage)
                        size format st))
          = (trace st ++ EvFetchCustomDefault defaultImage :: events)%list
          /\ ~ In EvGetCachedFallback events).
Proof.
  intros E c config response defaultImage size format st Hdefault.
  unfold handleFallback, try_catch, bind, call_fetchCustomDefault, log_event,
    lift, new_URL, await_opt, ret, throw.
  cbn [str_truthy]. rewrite Hdefault.
  destruct (fetchCustomDefault defaultImage config (world st)) as [[image|] w] eqn:Hf.
  - split; [intros w' Hw; discriminate Hw|].
    destruct (match size with Some n => num_truthy n | None => false end
              || str_truthy format).
    + destruct (processImage (di_buffer image)
                  {| opt_size := size; opt_format := format |}) as [processed|];
        cbn [world trace].
      * destruct response.
        -- exists []. split; [reflexivity | intros []].
        -- destruct (URL_parse (c_req_url c)) as [requestUrl|]; cbn [world trace].
           ++ destruct (URL_parse _) as [apiUrl|]; cbn [world trace snd].
              ** exists []. split; [reflexivity | intros []].
              ** exists [EvLogError "Error fetching default image"].
                 split; [rewrite <- app_assoc; reflexivity|].
                 intros [Hin | []]; discriminate Hin.
           ++ exists [EvLogError "Error fetching default image"].
              split; [cbn; rewrite <- app_assoc; reflexivity|].
              intros [Hin | []]; discriminate Hin.
      * exists [EvLogError "Error fetching default image"].
        split; [cbn; rewrite <- app_assoc; reflexivity|].
        intros [Hin | []]; discriminate Hin.
    + cbn [world trace]. destruct response.
      * exists []. split; [reflexivity | intros []].
      * destruct (URL_parse (c_req_url c)) as [requestUrl|]; cbn [world trace].
        -- destruct (URL_parse _) as [apiUrl|]; cbn [world trace snd].
           ++ exists []. split; [reflexivity | intros []].
           ++ exists [EvLogError "Error fetching default image"].
              split; [rewrite <- app_assoc; reflexivity|].
              intros [Hin | []]; discriminate Hin.
        -- exists [EvLogError "Error fetching default image"].
           split; [cbn; rewrite <- app_assoc; reflexivity|].
           intros [Hin | []]; discriminate Hin.
  - split.
    + intros w' Hw. injection Hw as <-. cbn [world trace].
      rewrite <- app_assoc. reflexivity.
    + exists [EvLogError "Error fetching default image"].
      split; [cbn; rewrite <- app_assoc; reflexivity|].
      intros [Hin | []]; discriminate Hin.
Qed.

Lemma handleFallback_custom_default_failure_witness :
  nonempty "https://mysite.com/fallback.png" = true
  /\ @fetchCustomDefault demoEnv "https://mysite.com/fallback.png" demo_config Online
     = (Abrupt, Online)
  /\ @handleFallback demoEnv demo_context demo_config image_response
       (Some "https://mysite.com/fallback.png") None None (demo_state Online)
     = (Normal (c_json (ErrorBody "Failed to fetch default image") 500
                  (@generateErrorHeaders demoEnv demo_config)),
        @Build_State demoEnv Online
          [EvFetchCustomDefault "https://mysite.com/fallback.png";
           EvLogError "Error fetching default image"]).
Proof.
  split; [reflexivity|]. split; [reflexivity|].
  apply (proj1 (@handleFallback_custom_default_failure demoEnv demo_context
                  demo_config image_response "https://mysite.com/fallback.png"
                  None None (demo_state Online) eq_refl)
           Online).
  reflexivity.
Defined.

(** ** The fallback flag *)

Section Flags.

Context `{Env}.

Lemma for_of_Forall :
  forall (A B : Type) (P : B -> Prop) (body : A -> Pushes B) l,
    (forall x, Forall P (fst (body x))) ->
    Forall P (fst (for_of body l)).
Proof.
  intros A B P body l Hbody. induction l as [|x l IH]; cbn [for_of].
  - constructor.
  - specialize (Hbody x). destruct (body x) as [out completed].
    destruct completed; [|exact Hbody].
    destruct (for_of body l) as [out' completed'].
    cbn [fst] in *. apply Forall_app. split; assumption.
Qed.

Lemma Forall_flat_map_each :
  forall (A B : Type) (P : B -> Prop) (f : A -> list B) l,
    (forall x, Forall P (f x)) -> Forall P (flat_map f l).
Proof.
  intros A B P f l Hf. induction l as [|x l IH]; cbn [flat_map].
  - constructor.
  - apply Forall_app. split; [apply Hf | exact IH].
Qed.

Lemma extractFaviconFromLinkTags_unflagged :
  forall doc baseUrl, Forall unflagged (extractFaviconFromLinkTags doc baseUrl).
Proof.
  intros doc baseUrl. apply Forall_flat_map_each. intros element.
  unfold linkTagFavicon. destruct (attr element "href") as [href|]; [|constructor].
  destruct (nonempty href); [|constructor].
  constructor; [|constructor]. split; [reflexivity | discriminate].
Qed.

Lemma manifestIcon_unflagged :
  forall baseUrl icon, Forall unflagged (fst (manifestIcon baseUrl icon)).
Proof.
  intros baseUrl icon. unfold manifestIcon.
  destruct (get_prop icon "src") as [src|]; [|constructor].
  destruct (truthy src); [|constructor].
  destruct (resolveUrl_value src baseUrl); [|constructor].
  destruct (parseSizes_value _); [|constructor].
  constructor; [|constructor]. split; [reflexivity | discriminate].
Qed.

Lemma extractFaviconFromManifest_unflagged :
  forall baseUrl config st l st',
    extractFaviconFromManifest baseUrl config st = (Normal l, st') ->
    Forall unflagged l.
Proof.
  intros baseUrl config st l st'.
  unfold extractFaviconFromManifest, try_catch, bind, fetch, await_opt, lift,
    ret, throw.
  destruct (net (world st) (manifestRequest baseUrl config)) as [[response|] w].
  - destruct (resp_ok response).
    + destruct (resp_json response) as [manifest|].
      * destruct (get_prop manifest "icons") as [icons|].
        -- destruct icons; intros Hrun; injection Hrun as <- _;
             try constructor.
           apply for_of_Forall. apply manifestIcon_unflagged.
        -- intros Hrun; injection Hrun as <- _. constructor.
      * intros Hrun; injection Hrun as <- _. constructor.
    + intros Hrun; injection Hrun as <- _. constructor.
  - intros Hrun; injection Hrun as <- _. constructor.
Qed.

Lemma extractOGFromTags_notFallback :
  forall doc baseUrl, Forall notFallback (extractOGFromTags doc baseUrl).
Proof.
  intros doc baseUrl. unfold extractOGFromTags.
  apply Forall_flat_map_each. intros ogImage. unfold ogTagImage.
  destruct (nonempty (tag_url ogImage)); [|constructor].
  constructor; [|constructor]. split; [reflexivity | discriminate].
Qed.

Lemma extractOGFromTwitterTags_notFallback :
  forall doc baseUrl, Forall notFallback (extractOGFromTwitterTags doc baseUrl).
Proof.
  intros doc baseUrl. unfold extractOGFromTwitterTags.
  destruct (sel_attr _ "content") as [image|]; [|constructor].
  destruct (nonempty image); [|constructor].
  constructor; [|constructor]. split; [reflexivity | discriminate].
Qed.

Lemma jsonLdImage_notFallback :
  forall baseUrl imageUrl, Forall notFallback (fst (jsonLdImage baseUrl imageUrl)).
Proof.
  intros baseUrl imageUrl. unfold jsonLdImage.
  destruct (match imageUrl with VString _ => Normal imageUrl
                              | _ => get_prop imageUrl "url" end) as [url|];
    [|constructor].
  destruct (truthy url); [|constructor].
  destruct (resolveUrl_value url baseUrl); [|constructor].
  constructor; [|constructor]. split; [reflexivity | discriminate].
Qed.

Lemma extractOGFromJsonLd_notFallback :
  forall doc baseUrl, Forall notFallback (extractOGFromJsonLd doc baseUrl).
Proof.
  intros doc baseUrl. apply Forall_flat_map_each. intros element.
  unfold jsonLdBlock. destruct (inner_html element) as [jsonText|]; [|constructor].
  destruct (nonempty jsonText); [|constructor].
  destruct (JSON_parse jsonText) as [schema|]; [|constructor].
  apply for_of_Forall. intros schemaItem. unfold jsonLdItem.
  destruct (get_prop schemaItem "image") as [image|]; [|constructor].
  destruct (truthy image); [|constructor].
  apply for_of_Forall. apply jsonLdImage_notFallback.
Qed.

(** What the [try] block leaves in the local variables. *)
Lemma analyzePage_try_flags :
  forall targetUrl config st favs ogs md st',
    try_catch (analyzePage_try targetUrl config) (ret emptyLocals) st
      = (Normal (favs, ogs, md), st') ->
    Forall unflagged favs /\ Forall notFallback ogs.
Proof.
  intros targetUrl config st favs ogs md st' Hrun.
  destruct (fetchHtml targetUrl config st) as [[[html finalUrl]|] st1] eqn:Hfetch.
  - destruct (URL_parse finalUrl) as [u|] eqn:Hu.
    + destruct (analyzePage_try_fetched _ config _ _ _ _ _ Hfetch Hu)
        as (mf & st2 & Htry & Hm).
      rewrite (try_catch_normal _ _ _ _ _ _ Htry) in Hrun.
      injection Hrun as <- <- _ _. split.
      * repeat (apply Forall_app; split).
        -- apply extractFaviconFromLinkTags_unflagged.
        -- constructor; [|constructor]. split; [reflexivity | discriminate].
        -- constructor; [|constructor]. split; [reflexivity | discriminate].
        -- apply (extractFaviconFromManifest_unflagged _ _ _ _ _ Hm).
      * repeat (apply Forall_app; split).
        -- apply extractOGFromTags_notFallback.
        -- apply extractOGFromTwitterTags_notFallback.
        -- apply extractOGFromJsonLd_notFallback.
    + unfold try_catch, analyzePage_try in Hrun.
      rewrite (bind_normal _ _ _ _ _ _ _ Hfetch) in Hrun.
      unfold new_URL in Hrun. rewrite Hu in Hrun. cbn in Hrun.
      injection Hrun as <- <- _ _. split; constructor.
  - rewrite (analyzePage_try_failed _ _ _ _ Hfetch) in Hrun.
    injection Hrun as <- <- _ _. split; constructor.
Qed.

End Flags.

(** The claim C1 as it is written fails on the candidates of the static
    fallback locations: their source is 'fallback' and they carry no
    [isFallback] flag. *)
Lemma static_fallback_not_flagged_counterexample :
  option_map
    (fun r => map (fun c => (fav_url c, fav_source c, fav_isFallback c)) (favicons r))
    (returned (@analyzePage demoEnv "example.com" demo_config None
                 (demo_state Online)))
  = Some
      [ ("https://example.com/touch.png", LinkTag, None);
        ("https://example.com/icon-32.png", LinkTag, None);
        ("https://example.com/apple-touch-icon.png", Fallback, None);
        ("https://example.com/favicon.ico", Fallback, None);
        ("https://www.google.com/s2/favicons?domain=https%3A%2F%2Fexample.com&sz=64",
         FallbackApi, Some true) ]
  /\ ~ (forall r,
          returned (@analyzePage demoEnv "example.com" demo_config None
                      (demo_state Online)) = Some r ->
          forall c, In c (favicons r) ->
                    (fav_isFallback c = Some true
                     <-> fav_source c = FallbackApi \/ fav_source c = Fallback)).
Proof.
  split; [vm_compute; reflexivity|].
  intros Hall.
  assert (Hflag : fav_isFallback (staticFavicon "https://example.com" "/favicon.ico" 10)
                  = Some true).
  { apply (Hall _ eq_refl).
    - cbn. right. right. right. left. reflexivity.
    - right. reflexivity. }
  discriminate Hflag.
Qed.

(** C1, as the code has it. Among the candidates that [analyzePage]
    returns, [isFallback] is true exactly on the candidate of the external
    fallback API; every other favicon candidate, those of the static
    fallback locations included, carries no flag, and the OpenGraph
    candidates carry the flag false.  An asset returned by [fetchBestOGImage]
    carries the source, the URL and the flag of the candidate it was
    resolved from: the first candidate of the list that is not skipped,
    whose own reference gave the bytes of the asset. *)
Theorem isFallback_marks_fallback_api :
  forall `{Env},
    (forall url config size st r st',
        analyzePage url config size st = (Normal r, st') ->
        (forall c, In c (favicons r) ->
                   (fav_isFallback c = Some true <-> fav_source c = FallbackApi)
                   /\ (fav_source c <> FallbackApi -> fav_isFallback c = None))
        /\ (forall c, In c (ogImages r) ->
                      og_isFallback c = Some false /\ og_source c <> OgFallback))
    /\ (forall images config st asset st',
          fetchBestOGImage images config st = (Normal (Some asset), st') ->
          exists pre image post st_pre,
            images = (pre ++ image :: post)%list
            /\ In image images
            /\ fetchBestOGImage pre config st = (Normal None, st_pre)
            /\ fetchBestOGImage [image] config st_pre = (Normal (Some asset), st')
            /\ bytes_of_candidate image config st_pre (asset_data asset)
            /\ asset_isFallback asset = og_isFallback image
            /\ asset_source asset = og_source image
            /\ asset_url asset = og_url image).
Proof.
  intros E. split.
  - intros url config size st r st' Hrun.
    destruct (try_catch_ret_total _
                (analyzePage_try (withProtocol url) config) emptyLocals st)
      as ([[favs ogs] md] & st1 & Htry).
    destruct (analyzePage_try_flags _ _ _ _ _ _ _ Htry) as [Hfavs Hogs].
    assert (Hunflagged :
              forall c, unflagged c ->
                        (fav_isFallback c = Some true <-> fav_source c = FallbackApi)
                        /\ (fav_source c <> FallbackApi -> fav_isFallback c = None)).
    { intros c [Hnone Hsrc]. rewrite Hnone. split; [|reflexivity].
      split; [discriminate | contradiction]. }
    assert (Hcollect :
              exists favs', analyzePage_collect url config size st
                            = (Normal (favs', ogs, md), st')
                            /\ r = {| favicons := Array_sort byScoreFavicon favs';
                                      ogImages := Array_sort byScoreOG ogs;
                                      metadata := md |}
                            /\ forall c, In c favs' ->
                                 (fav_isFallback c = Some true
                                  <-> fav_source c = FallbackApi)
                                 /\ (fav_source c <> FallbackApi ->
                                     fav_isFallback c = None)).
    { destruct (USE_FALLBACK_API config) eqn:Hflag.
      - destruct (URL_parse (withProtocol (String_trim url))) as [p|] eqn:Hp.
        + pose proof (analyzePage_collect_with_api _ _ size _ _ _ _ _ _
                        Htry Hflag Hp) as Hc.
          rewrite (analyzePage_of_collect _ _ _ _ _ _ _ _ Hc) in Hrun.
          injection Hrun as <- <-. eexists. split; [exact Hc|].
          split; [reflexivity|].
          intros c Hin. apply in_app_iff in Hin. destruct Hin as [Hin | [<- | []]].
          * apply Hunflagged. rewrite Forall_forall in Hfavs. apply Hfavs, Hin.
          * cbn. split; [split; reflexivity | intros Hne; contradiction Hne; reflexivity].
        + unfold analyzePage in Hrun.
          rewrite (bind_abrupt _ _ _ _ _ _
                     (analyzePage_collect_api_throws _ _ size _ _ _
                        Htry Hflag Hp)) in Hrun.
          discriminate Hrun.
      - pose proof (analyzePage_collect_without_api _ _ size _ _ _ _ _
                      Htry Hflag) as Hc.
        rewrite (analyzePage_of_collect _ _ _ _ _ _ _ _ Hc) in Hrun.
        injection Hrun as <- <-. eexists. split; [exact Hc|].
        split; [reflexivity|].
        intros c Hin. apply Hunflagged. rewrite Forall_forall in Hfavs.
        apply Hfavs, Hin. }
    destruct Hcollect as (favs' & _ & -> & Hfavs').
    cbn [favicons ogImages]. split.
    + intros c Hin. apply Hfavs'. apply (Array_sort_In _ fav_score). exact Hin.
    + intros c Hin. rewrite Forall_forall in Hogs. apply Hogs.
      apply (Array_sort_In _ og_score). exact Hin.
  - intros images config st asset st' Hrun.
    destruct (fetchBestOGImage_run images config st)
      as [(st1 & Hnone & _)
         | (pre & image & post & st_pre & asset1 & st1
            & -> & Hpre & _ & Hfound & Hsome & _)].
    + rewrite Hnone in Hrun. discriminate Hrun.
    + rewrite Hsome in Hrun. injection Hrun as -> ->.
      destruct (fetchBestOGImage_single_asset _ _ _ _ _ Hfound)
        as (Hflag & Hsource & Hurl & Hbytes).
      exists pre, image, post, st_pre.
      split; [reflexivity|].
      split; [apply in_or_app; right; left; reflexivity|].
      split; [exact Hpre|]. split; [exact Hfound|]. split; [exact Hbytes|].
      split; [exact Hflag|]. split; [exact Hsource | exact Hurl].
Qed.

Lemma isFallback_marks_fallback_api_witness :
  (exists r st',
      @analyzePage demoEnv "example.com" demo_config None (demo_state Online)
      = (Normal r, st')
      /\ forall c, In c (favicons r) ->
                   (fav_isFallback c = Some true <-> fav_source c = FallbackApi)
                   /\ (fav_source c <> FallbackApi -> fav_isFallback c = None))
  /\ (exists asset st',
        @fetchBestOGImage demoEnv
          [demo_image "https://example.com/missing.png";
           demo_image "https://example.com/og.png"]
          demo_config (demo_state Online) = (Normal (Some asset), st')
        /\ exists pre image post st_pre,
            [demo_image "https://example.com/missing.png";
             demo_image "https://example.com/og.png"]
            = (pre ++ image :: post)%list
            /\ In image [demo_image "https://example.com/missing.png";
                         demo_image "https://example.com/og.png"]
            /\ @fetchBestOGImage demoEnv pre demo_config (demo_state Online)
               = (Normal None, st_pre)
            /\ @fetchBestOGImage demoEnv [image] demo_config st_pre
               = (Normal (Some asset), st')
            /\ @bytes_of_candidate demoEnv image demo_config st_pre
                 (asset_data asset)
            /\ asset_isFallback asset = og_isFallback image
            /\ asset_source asset = og_source image
            /\ asset_url asset = og_url image).
Proof.
  split.
  - eexists. eexists. split; [reflexivity|].
    apply (proj1 (@isFallback_marks_fallback_api demoEnv)
             "example.com" demo_config None (demo_state Online) _ _ eq_refl).
  - eexists. eexists. split; [reflexivity|].
    apply (proj2 (@isFallback_marks_fallback_api demoEnv)
             [demo_image "https://example.com/missing.png";
              demo_image "https://example.com/og.png"] demo_config
             (demo_state Online) _ _ eq_refl).
Defined.


(** * Further properties *)


(** ** Scoring *)

Lemma calculateFaviconScore_sum :
  forall size type rel,
    calculateFaviconScore size type rel
    = 50 + typeBonus type + sizeBonus size + relBonus rel.
Proof.
  intros size type rel.
  unfold calculateFaviconScore, typeBonus, sizeBonus, relBonus. cbv zeta.
  destruct (opt_includes type "svg"), (opt_includes type "png"),
    (opt_includes type "webp"), (opt_includes type "gif"),
    (opt_includes type "ico"), (includes rel "apple-touch-icon"),
    (includes rel "mask-icon"); cbn beta iota;
    (destruct size as [n|]; [|lia]);
    (destruct (num_truthy n); [|lia]);
    repeat (destruct (num_ge n _); [lia|]); lia.
Qed.

Lemma sizeBonus_range : forall size, 0 <= sizeBonus size <= 90.
Proof.
  intros [n|]; unfold sizeBonus; [|lia].
  destruct (num_truthy n); [|lia].
  repeat (destruct (num_ge n _); [lia|]); lia.
Qed.

Lemma typeBonus_range : forall type, 0 <= typeBonus type <= 120.
Proof.
  intros type. unfold typeBonus.
  destruct (opt_includes type "svg"), (opt_includes type "png"),
    (opt_includes type "webp"), (opt_includes type "gif"),
    (opt_includes type "ico"); lia.
Qed.

Lemma relBonus_range : forall rel, -10 <= relBonus rel <= 10.
Proof.
  intros rel. unfold relBonus.
  destruct (includes rel "apple-touch-icon"), (includes rel "mask-icon"); lia.
Qed.

Lemma calculateFaviconScore_bounds :
  forall size type rel, 40 <= calculateFaviconScore size type rel <= 270.
Proof.
  intros size type rel. rewrite calculateFaviconScore_sum.
  pose proof (sizeBonus_range size). pose proof (typeBonus_range type).
  pose proof (relBonus_range rel). lia.
Qed.

(** X1. A favicon score lies between 40 and 270, whatever the size, the
    type and the rel are, and both ends are reached: 40 by a mask icon
    without size and type, 270 by an apple-touch icon of width 512 whose
    type names svg and png. *)
Theorem calculateFaviconScore_range :
  (forall size type rel, 40 <= calculateFaviconScore size type rel <= 270)
  /\ calculateFaviconScore None None "mask-icon" = 40
  /\ calculateFaviconScore (Some (Num 512)) (Some "image/svg+xml, image/png")
       "apple-touch-icon" = 270.
Proof.
  split; [apply calculateFaviconScore_bounds|]. split; reflexivity.
Qed.

(** X2. The favicon score never decreases when the declared size grows:
    for widths [a <= b], zero and negative ones included, the score with
    [a] is at most the score with [b]; and a candidate without a size
    scores as one of size zero. *)
Theorem calculateFaviconScore_monotone :
  forall a b type rel,
    a <= b ->
    calculateFaviconScore (Some (Num a)) type rel
      <= calculateFaviconScore (Some (Num b)) type rel
    /\ calculateFaviconScore None type rel
       = calculateFaviconScore (Some (Num 0)) type rel.
Proof.
  intros a b type rel Hab. rewrite !calculateFaviconScore_sum. split; [|reflexivity].
  assert (Hsize : sizeBonus (Some (Num a)) <= sizeBonus (Some (Num b))).
  { unfold sizeBonus, num_truthy, num_ge.
    destruct (Z.eqb_spec a 0), (Z.eqb_spec b 0); cbn [negb];
      repeat match goal with
             | |- context [?k <=? ?x] => destruct (Z.leb_spec k x)
             end; lia. }
  lia.
Qed.

Lemma calculateFaviconScore_monotone_witness :
  32 <= 64
  /\ calculateFaviconScore (Some (Num 32)) (Some "image/png") "icon"
     <= calculateFaviconScore (Some (Num 64)) (Some "image/png") "icon".
Proof.
  split; [lia|].
  apply (calculateFaviconScore_monotone 32 64 (Some "image/png") "icon"). lia.
Defined.

(** X3. An icon whose type names svg scores strictly above an icon of the
    same size and rel whose type does not. *)
Theorem calculateFaviconScore_svg_first :
  forall size svgType otherType rel,
    opt_includes svgType "svg" = true ->
    opt_includes otherType "svg" = false ->
    calculateFaviconScore size svgType rel
      > calculateFaviconScore size otherType rel.
Proof.
  intros size svgType otherType rel Hsvg Hother.
  rewrite !calculateFaviconScore_sum. unfold typeBonus. rewrite Hsvg, Hother.
  destruct (opt_includes svgType "png"), (opt_includes svgType "webp"),
    (opt_includes svgType "gif"), (opt_includes svgType "ico"),
    (opt_includes otherType "png"), (opt_includes otherType "webp"),
    (opt_includes otherType "gif"), (opt_includes otherType "ico"); lia.
Qed.

Lemma calculateFaviconScore_svg_first_witness :
  calculateFaviconScore (Some (Num 32)) (Some "image/svg+xml") "icon"
    > calculateFaviconScore (Some (Num 32)) (Some "image/png") "icon".
Proof.
  apply calculateFaviconScore_svg_first; reflexivity.
Defined.

Lemma calculateOGScore_sum :
  forall `{Env} width height source type,
    calculateOGScore width height source type
    = 50 + sourceBonus source + dimensionBonus width height + imageTypeBonus type.
Proof.
  intros E width height source type.
  unfold calculateOGScore, sourceBonus, dimensionBonus, imageTypeBonus. cbv zeta.
  destruct (String.eqb source "og:image"), (String.eqb source "twitter:image"),
    (String.eqb source "schema.org"), (opt_includes type "png"),
    (opt_includes type "jpeg" || opt_includes type "jpg"),
    (opt_includes type "webp"); cbn beta iota;
    (destruct (truthy width), (truthy height); cbn [andb orb];
     repeat (destruct (num_ge _ _); [lia|]); lia).
Qed.

Lemma dimensionBonus_range :
  forall `{Env} width height, 0 <= dimensionBonus width height <= 90.
Proof.
  intros E width height. unfold dimensionBonus. cbv zeta.
  destruct (truthy width), (truthy height); cbn [andb orb];
    repeat (destruct (num_ge _ _); [lia|]); lia.
Qed.

Lemma imageTypeBonus_range : forall type, 0 <= imageTypeBonus type <= 25.
Proof.
  intros type. unfold imageTypeBonus.
  destruct (opt_includes type "png"),
    (opt_includes type "jpeg" || opt_includes type "jpg"),
    (opt_includes type "webp"); lia.
Qed.

(** X4. For the same dimensions and type, an [og:image] scores 20 above a
    [twitter:image], which scores 20 above a [schema.org] image, which
    scores 60 above an image of any other source; and every score lies
    between 50 and 265. *)
Theorem calculateOGScore_source_order :
  forall `{Env} width height type,
    calculateOGScore width height "og:image" type
    = calculateOGScore width height "twitter:image" type + 20
    /\ calculateOGScore width height "twitter:image" type
       = calculateOGScore width height "schema.org" type + 20
    /\ calculateOGScore width height "schema.org" type
       = calculateOGScore width height "fallback" type + 60
    /\ (forall source, 50 <= calculateOGScore width height source type <= 265).
Proof.
  intros E width height type. rewrite !calculateOGScore_sum.
  change (sourceBonus "og:image") with 100.
  change (sourceBonus "twitter:image") with 80.
  change (sourceBonus "schema.org") with 60.
  change (sourceBonus "fallback") with 0.
  repeat split; try lia;
    rewrite calculateOGScore_sum;
    pose proof (dimensionBonus_range width height);
    pose proof (imageTypeBonus_range type);
    unfold sourceBonus;
    destruct (String.eqb source "og:image"), (String.eqb source "twitter:image"),
      (String.eqb source "schema.org"); lia.
Qed.

(** The copy of the scoring function in the OpenGraph finder,
    [calculateScore], and the one of the page analyzer, [calculateOGScore],
    give the same score on every input; the extractors of the finder give
    the candidates of the page analyzer without the [isFallback] field. *)
Lemma finder_extractors_agree :
  forall `{Env},
    (forall width height source type,
        calculateScore width height source type
        = calculateOGScore width height source type)
    /\ (forall doc baseUrl,
          extractFromOGTags doc baseUrl
          = map withoutFlag (extractOGFromTags doc baseUrl))
    /\ (forall doc baseUrl,
          extractFromTwitterTags doc baseUrl
          = map withoutFlag (extractOGFromTwitterTags doc baseUrl))
    /\ (forall doc baseUrl,
          extractFromJsonLd doc baseUrl
          = map withoutFlag (extractOGFromJsonLd doc baseUrl)).
Proof.
  intros E. split; [reflexivity|]. split; [|split].
  - intros doc baseUrl. unfold extractFromOGTags, extractOGFromTags.
    generalize (match flat_map collectOgTag (doc (AttrPrefix "meta" "property" "og:image")) with
                | [] => []
                | first :: others =>
                    fold_left associateOgTag
                      (doc (AttrPrefix "meta" "property" "og:image")) first :: others
                end).
    intros tags. induction tags as [|t tags IH]; [reflexivity|].
    cbn [flat_map]. rewrite map_app, IH. f_equal.
    unfold finderOgTagImage, ogTagImage.
    destruct (nonempty (tag_url t)); reflexivity.
  - intros doc baseUrl. unfold extractFromTwitterTags, extractOGFromTwitterTags.
    destruct (sel_attr _ "content") as [image|]; [|reflexivity].
    destruct (nonempty image); reflexivity.
  - intros doc baseUrl. unfold extractFromJsonLd, extractOGFromJsonLd.
    assert (Himage : forall l,
               for_of (finderJsonLdImage baseUrl) l
               = (map withoutFlag (fst (for_of (jsonLdImage baseUrl) l)),
                  snd (for_of (jsonLdImage baseUrl) l))).
    { induction l as [|v l IH]; [reflexivity|]. cbn [for_of]. rewrite IH.
      assert (Hv : finderJsonLdImage baseUrl v
                   = (map withoutFlag (fst (jsonLdImage baseUrl v)),
                      snd (jsonLdImage baseUrl v))).
      { unfold finderJsonLdImage, jsonLdImage.
        destruct (match v with VString _ => Normal v | _ => get_prop v "url" end)
          as [url|]; [|reflexivity].
        destruct (truthy url); [|reflexivity].
        destruct (resolveUrl_value url baseUrl); reflexivity. }
      rewrite Hv. destruct (jsonLdImage baseUrl v) as [out completed].
      destruct (for_of (jsonLdImage baseUrl) l) as [out' completed'].
      cbn [fst snd]. destruct completed; cbn [fst snd]; [|reflexivity].
      rewrite map_app. reflexivity. }
    assert (Hitem : forall l,
               for_of (finderJsonLdItem baseUrl) l
               = (map withoutFlag (fst (for_of (jsonLdItem baseUrl) l)),
                  snd (for_of (jsonLdItem baseUrl) l))).
    { induction l as [|v l IH]; [reflexivity|]. cbn [for_of]. rewrite IH.
      assert (Hv : finderJsonLdItem baseUrl v
                   = (map withoutFlag (fst (jsonLdItem baseUrl v)),
                      snd (jsonLdItem baseUrl v))).
      { unfold finderJsonLdItem, jsonLdItem.
        destruct (get_prop v "image") as [image|]; [|reflexivity].
        destruct (truthy image); [|reflexivity]. apply Himage. }
      rewrite Hv. destruct (jsonLdItem baseUrl v) as [out completed].
      destruct (for_of (jsonLdItem baseUrl) l) as [out' completed'].
      cbn [fst snd]. destruct completed; cbn [fst snd]; [|reflexivity].
      rewrite map_app. reflexivity. }
    induction (doc (AttrEquals "script" "type" "application/ld+json"))
      as [|element elements IH]; [reflexivity|].
    cbn [flat_map]. rewrite map_app, IH. f_equal.
    unfold finderJsonLdBlock, jsonLdBlock.
    destruct (inner_html element) as [jsonText|]; [|reflexivity].
    destruct (nonempty jsonText); [|reflexivity].
    destruct (JSON_parse jsonText) as [schema|]; [|reflexivity].
    rewrite Hitem. reflexivity.
Qed.

(** ** What holds of every candidate *)

Section Candidates.

Context `{Env}.

Variable P : FaviconSource -> Prop.
Variable Q : OGImageSource -> Prop.

Hypothesis P_linkTag : forall baseUrl element, Forall P (linkTagFavicon baseUrl element).
Hypothesis P_manifest : forall baseUrl icon, Forall P (fst (manifestIcon baseUrl icon)).
Hypothesis P_favicon_ico : forall baseUrl, P (staticFavicon baseUrl "/favicon.ico" 10).
Hypothesis P_apple_touch :
  forall baseUrl, P (staticFavicon baseUrl "/apple-touch-icon.png" 20).
Hypothesis P_api : forall domain size, P (fallbackApiFavicon domain size).
Hypothesis Q_ogTag : forall baseUrl tag, Forall Q (ogTagImage baseUrl tag).
Hypothesis Q_twitter : forall doc baseUrl, Forall Q (extractOGFromTwitterTags doc baseUrl).
Hypothesis Q_jsonLd : forall baseUrl value, Forall Q (fst (jsonLdImage baseUrl value)).

Lemma extractFaviconFromManifest_Forall :
  forall baseUrl config st l st',
    extractFaviconFromManifest baseUrl config st = (Normal l, st') ->
    Forall P l.
Proof.
  intros baseUrl config st l st'.
  unfold extractFaviconFromManifest, try_catch, bind, fetch, await_opt, lift,
    ret, throw.
  destruct (net (world st) (manifestRequest baseUrl config)) as [[response|] w];
    [|intros Hrun; injection Hrun as <- _; constructor].
  destruct (resp_ok response);
    [|intros Hrun; injection Hrun as <- _; constructor].
  destruct (resp_json response) as [manifest|];
    [|intros Hrun; injection Hrun as <- _; constructor].
  destruct (get_prop manifest "icons") as [icons|];
    [|intros Hrun; injection Hrun as <- _; constructor].
  destruct icons; intros Hrun; injection Hrun as <- _; try constructor.
  apply for_of_Forall, P_manifest.
Qed.

Lemma extractOGFromJsonLd_Forall :
  forall doc baseUrl, Forall Q (extractOGFromJsonLd doc baseUrl).
Proof.
  intros doc baseUrl. apply Forall_flat_map_each. intros element.
  unfold jsonLdBlock. destruct (inner_html element) as [jsonText|]; [|constructor].
  destruct (nonempty jsonText); [|constructor].
  destruct (JSON_parse jsonText) as [schema|]; [|constructor].
  apply for_of_Forall. intros schemaItem. unfold jsonLdItem.
  destruct (get_prop schemaItem "image") as [image|]; [|constructor].
  destruct (truthy image); [|constructor].
  apply for_of_Forall, Q_jsonLd.
Qed.

Lemma analyzePage_try_Forall :
  forall targetUrl config st favs ogs md st',
    try_catch (analyzePage_try targetUrl config) (ret emptyLocals) st
      = (Normal (favs, ogs, md), st') ->
    Forall P favs /\ Forall Q ogs.
Proof.
  intros targetUrl config st favs ogs md st' Hrun.
  destruct (fetchHtml targetUrl config st) as [[[html finalUrl]|] st1] eqn:Hfetch.
  - destruct (URL_parse finalUrl) as [u|] eqn:Hu.
    + destruct (analyzePage_try_fetched _ config _ _ _ _ _ Hfetch Hu)
        as (mf & st2 & Htry & Hm).
      rewrite (try_catch_normal _ _ _ _ _ _ Htry) in Hrun.
      injection Hrun as <- <- _ _. split.
      * repeat (apply Forall_app; split).
        -- apply Forall_flat_map_each, P_linkTag.
        -- constructor; [apply P_favicon_ico | constructor].
        -- constructor; [apply P_apple_touch | constructor].
        -- apply (extractFaviconFromManifest_Forall _ _ _ _ _ Hm).
      * repeat (apply Forall_app; split).
        -- apply Forall_flat_map_each, Q_ogTag.
        -- apply Q_twitter.
        -- apply extractOGFromJsonLd_Forall.
    + unfold try_catch, analyzePage_try in Hrun.
      rewrite (bind_normal _ _ _ _ _ _ _ Hfetch) in Hrun.
      unfold new_URL in Hrun. rewrite Hu in Hrun. cbn in Hrun.
      injection Hrun as <- <- _ _. split; constructor.
  - rewrite (analyzePage_try_failed _ _ _ _ Hfetch) in Hrun.
    injection Hrun as <- <- _ _. split; constructor.
Qed.

(** A run of [analyzePage] that returns, cut at its three stages: the
    [try] block, the fallback API, the sort. *)
Lemma analyzePage_stages :
  forall url config size st r st',
    analyzePage url config size st = (Normal r, st') ->
    exists favs ogs md,
      try_catch (analyzePage_try (withProtocol url) config) (ret emptyLocals) st
        = (Normal (favs, ogs, md), st')
      /\ ogImages r = Array_sort byScoreOG ogs
      /\ metadata r = md
      /\ ((USE_FALLBACK_API config = false
           /\ favicons r = Array_sort byScoreFavicon favs)
          \/ (USE_FALLBACK_API config = true
              /\ exists parsedUrl,
                  URL_parse (withProtocol (String_trim url)) = Some parsedUrl
                  /\ favicons r
                     = Array_sort byScoreFavicon
                         (favs ++ [fallbackApiFavicon
                                     ("https://" ++ hostname parsedUrl) size]))).
Proof.
  intros url config size st r st' Hrun.
  destruct (try_catch_ret_total _
              (analyzePage_try (withProtocol url) config) emptyLocals st)
    as ([[favs ogs] md] & st1 & Htry).
  destruct (USE_FALLBACK_API config) eqn:Hflag.
  - destruct (URL_parse (withProtocol (String_trim url))) as [p|] eqn:Hp.
    + rewrite (analyzePage_of_collect _ _ _ _ _ _ _ _
                 (analyzePage_collect_with_api _ _ size _ _ _ _ _ _
                    Htry Hflag Hp)) in Hrun.
      injection Hrun as <- <-. exists favs, ogs, md.
      split; [exact Htry|]. split; [reflexivity|]. split; [reflexivity|].
      right. split; [reflexivity|]. exists p. split; reflexivity.
    + unfold analyzePage in Hrun.
      rewrite (bind_abrupt _ _ _ _ _ _
                 (analyzePage_collect_api_throws _ _ size _ _ _
                    Htry Hflag Hp)) in Hrun.
      discriminate Hrun.
  - rewrite (analyzePage_of_collect _ _ _ _ _ _ _ _
               (analyzePage_collect_without_api _ _ size _ _ _ _ _
                  Htry Hflag)) in Hrun.
    injection Hrun as <- <-. exists favs, ogs, md.
    split; [exact Htry|]. split; [reflexivity|]. split; [reflexivity|].
    left. split; reflexivity.
Qed.

Lemma analyzePage_Forall :
  forall url config size st r st',
    analyzePage url config size st = (Normal r, st') ->
    Forall P (favicons r) /\ Forall Q (ogImages r).
Proof.
  intros url config size st r st' Hrun.
  destruct (analyzePage_stages _ _ _ _ _ _ Hrun)
    as (favs & ogs & md & Htry & Hogs & _ & Hfavs).
  destruct (analyzePage_try_Forall _ _ _ _ _ _ _ Htry) as [HP HQ].
  split.
  - destruct Hfavs as [[_ ->] | [_ (p & _ & ->)]].
    + eapply Permutation_Forall; [apply (Array_sort_perm _ fav_score)|exact HP].
    + eapply Permutation_Forall; [apply (Array_sort_perm _ fav_score)|].
      apply Forall_app. split; [exact HP|].
      constructor; [apply P_api | constructor].
  - rewrite Hogs.
    eapply Permutation_Forall; [apply (Array_sort_perm _ og_score)|exact HQ].
Qed.

End Candidates.

(** ** Ranking *)

Section Ranking.

Variable A : Type.
Variable score : A -> Z.

Let byScore (a b : A) : Z := score b - score a.

(** A candidate that scores at most as much as all the others and was
    extracted last stays last. *)
Lemma Array_sort_lowest_last :
  forall l x,
    Forall (fun y => score x <= score y) l ->
    Array_sort byScore (l ++ [x]) = (Array_sort byScore l ++ [x])%list.
Proof.
  intros l x Hl. induction Hl as [|y l Hy Hl IH]; [reflexivity|].
  cbn [app Array_sort fold_right]. fold (Array_sort byScore (l ++ [x])).
  fold (Array_sort byScore l). rewrite IH. clear IH.
  induction (Array_sort byScore l) as [|z sorted IH]; cbn [app insert_sorted].
  - unfold byScore. destruct (Z.leb_spec (score x - score y) 0); [reflexivity|lia].
  - destruct (byScore y z <=? 0); [reflexivity|]. rewrite IH. reflexivity.
Qed.

Lemma descending_front :
  forall l1 a rest,
    descending score (l1 ++ a :: rest) ->
    Forall (fun x => score x >= score a) l1.
Proof.
  unfold descending. induction l1 as [|x l1 IH]; intros a rest Hs; [constructor|].
  cbn [app] in Hs. inversion Hs as [|? ? Hs' Hall]; subst.
  constructor.
  - rewrite Forall_forall in Hall. apply Hall. apply in_app_iff. right. left.
    reflexivity.
  - apply (IH _ _ Hs').
Qed.

(** In a list ordered by descending score, a candidate with a strictly
    higher score stands before one with a lower score. *)
Lemma descending_before :
  forall l a b,
    descending score l -> In a l -> In b l -> score a > score b ->
    exists l1 l2 l3, l = (l1 ++ a :: l2 ++ b :: l3)%list.
Proof.
  intros l a b Hs Ha Hb Hab.
  destruct (in_split _ _ Ha) as (l1 & rest & ->).
  pose proof (descending_front _ _ _ Hs) as Hfront.
  apply in_app_iff in Hb. destruct Hb as [Hb | [Hb | Hb]].
  - rewrite Forall_forall in Hfront. specialize (Hfront _ Hb). lia.
  - subst b. lia.
  - destruct (in_split _ _ Hb) as (l2 & l3 & ->). exists l1, l2, l3. reflexivity.
Qed.

End Ranking.

Section Bands.

Context `{Env}.

Lemma linkTagFavicon_band :
  forall baseUrl element, Forall faviconBand (linkTagFavicon baseUrl element).
Proof.
  intros baseUrl element. unfold linkTagFavicon.
  destruct (attr element "href") as [href|]; [|constructor].
  destruct (nonempty href); [|constructor].
  constructor; [|constructor]. unfold faviconBand. cbn [fav_source fav_score].
  apply calculateFaviconScore_bounds.
Qed.

Lemma manifestIcon_band :
  forall baseUrl icon, Forall faviconBand (fst (manifestIcon baseUrl icon)).
Proof.
  intros baseUrl icon. unfold manifestIcon.
  destruct (get_prop icon "src") as [src|]; [|constructor].
  destruct (truthy src); [|constructor].
  destruct (resolveUrl_value src baseUrl); [|constructor].
  destruct (parseSizes_value _); [|constructor].
  constructor; [reflexivity | constructor].
Qed.

Lemma ogTagImage_band :
  forall baseUrl tag, Forall imageBand (ogTagImage baseUrl tag).
Proof.
  intros baseUrl tag. unfold ogTagImage.
  destruct (nonempty (tag_url tag)); [|constructor].
  constructor; [|constructor]. unfold imageBand. cbn [og_source og_score].
  rewrite calculateOGScore_sum. change (sourceBonus "og:image") with 100.
  pose proof (dimensionBonus_range
                (opt_number_value
                   (if str_truthy (tag_width tag)
                    then option_map parseInt10 (tag_width tag) else None))
                (opt_number_value
                   (if str_truthy (tag_height tag)
                    then option_map parseInt10 (tag_height tag) else None))).
  pose proof (imageTypeBonus_range (tag_type tag)). lia.
Qed.

Lemma extractOGFromTwitterTags_band :
  forall doc baseUrl, Forall imageBand (extractOGFromTwitterTags doc baseUrl).
Proof.
  intros doc baseUrl. unfold extractOGFromTwitterTags.
  destruct (sel_attr _ "content") as [image|]; [|constructor].
  destruct (nonempty image); [|constructor].
  constructor; [reflexivity | constructor].
Qed.

Lemma jsonLdImage_band :
  forall baseUrl value, Forall imageBand (fst (jsonLdImage baseUrl value)).
Proof.
  intros baseUrl value. unfold jsonLdImage.
  destruct (match value with VString _ => Normal value
                           | _ => get_prop value "url" end) as [url|];
    [|constructor].
  destruct (truthy url); [|constructor].
  destruct (resolveUrl_value url baseUrl); [|constructor].
  constructor; [|constructor]. unfold imageBand. cbn [og_source og_score].
  rewrite calculateOGScore_sum. change (sourceBonus "schema.org") with 60.
  change (imageTypeBonus None) with 0.
  match goal with
  | |- context [dimensionBonus ?w ?h] => pose proof (dimensionBonus_range w h)
  end. lia.
Qed.

Lemma analyzePage_bands :
  forall url config size st r st',
    analyzePage url config size st = (Normal r, st') ->
    Forall faviconBand (favicons r) /\ Forall imageBand (ogImages r).
Proof.
  intros url config size st r st' Hrun.
  eapply (analyzePage_Forall faviconBand imageBand); [..|exact Hrun].
  - apply linkTagFavicon_band.
  - apply manifestIcon_band.
  - intros baseUrl. left. reflexivity.
  - intros baseUrl. right. reflexivity.
  - intros domain sz. reflexivity.
  - apply ogTagImage_band.
  - apply extractOGFromTwitterTags_band.
  - apply jsonLdImage_band.
Qed.

(** X5. In the lists that [analyzePage] returns every candidate scores
    within the band of its source: a link-tag icon between 40 and 270, a
    manifest icon 40, a static fallback location 10 or 20, the fallback API
    1; an [og:image] between 150 and 265, the [twitter:image] 130, a
    [schema.org] image between 110 and 200.  No OpenGraph candidate has the
    source 'fallback'. *)
Theorem analyzePage_score_bands :
  forall url config size st r st',
    analyzePage url config size st = (Normal r, st') ->
    Forall faviconBand (favicons r)
    /\ Forall imageBand (ogImages r)
    /\ Forall (fun c => og_source c <> OgFallback) (ogImages r).
Proof.
  intros url config size st r st' Hrun.
  destruct (analyzePage_bands _ _ _ _ _ _ Hrun) as [Hfav Hog].
  split; [exact Hfav|]. split; [exact Hog|].
  eapply Forall_impl; [|exact Hog].
  intros c Hband Hsource. unfold imageBand in Hband. rewrite Hsource in Hband.
  exact Hband.
Qed.

End Bands.

Lemma analyzePage_score_bands_witness :
  exists r st',
    @analyzePage demoEnv "example.com" demo_config None (demo_state Online)
    = (Normal r, st')
    /\ Forall faviconBand (favicons r)
    /\ Forall imageBand (ogImages r)
    /\ Forall (fun c => og_source c <> OgFallback) (ogImages r).
Proof.
  eexists. eexists. split; [reflexivity|].
  apply (@analyzePage_score_bands demoEnv "example.com" demo_config None
           (demo_state Online) _ _ eq_refl).
Defined.

Section Order.

Context `{Env}.

(** The candidates that the [try] block of [analyzePage] collects do not
    come from the fallback API and score at least 10. *)
Lemma analyzePage_try_above_api :
  forall targetUrl config st favs ogs md st',
    try_catch (analyzePage_try targetUrl config) (ret emptyLocals) st
      = (Normal (favs, ogs, md), st') ->
    Forall (fun c => fav_source c <> FallbackApi /\ 10 <= fav_score c) favs.
Proof.
  intros targetUrl config st favs ogs md st' Htry.
  eapply proj1.
  eapply (analyzePage_try_Forall
            (fun c => fav_source c <> FallbackApi /\ 10 <= fav_score c)
            (fun _ => True)); [..|exact Htry].
  - intros baseUrl element. unfold linkTagFavicon.
    destruct (attr element "href") as [href|]; [|constructor].
    destruct (nonempty href); [|constructor].
    constructor; [|constructor]. cbn [fav_source fav_score].
    split; [discriminate|].
    match goal with
    | |- _ <= calculateFaviconScore ?s ?t ?r =>
        pose proof (calculateFaviconScore_bounds s t r)
    end. lia.
  - intros baseUrl icon. unfold manifestIcon.
    destruct (get_prop icon "src") as [src|]; [|constructor].
    destruct (truthy src); [|constructor].
    destruct (resolveUrl_value src baseUrl); [|constructor].
    destruct (parseSizes_value _); [|constructor].
    constructor; [|constructor]. cbn. split; [discriminate | lia].
  - intros baseUrl. cbn. split; [discriminate | lia].
  - intros baseUrl. cbn. split; [discriminate | lia].
  - intros baseUrl tag. apply Forall_forall. intros; exact I.
  - intros doc baseUrl. apply Forall_forall. intros; exact I.
  - intros baseUrl value. apply Forall_forall. intros; exact I.
Qed.

(** X6. With the fallback API enabled, the last favicon candidate that
    [analyzePage] returns is the one of the fallback API, built from the
    hostname of the trimmed input; no candidate before it comes from the
    fallback API, and each of them scores at least 10. *)
Theorem analyzePage_fallback_api_last :
  forall url config size st r st',
    USE_FALLBACK_API config = true ->
    analyzePage url config size st = (Normal r, st') ->
    exists front parsedUrl,
      URL_parse (withProtocol (String_trim url)) = Some parsedUrl
      /\ favicons r
         = (front ++ [fallbackApiFavicon ("https://" ++ hostname parsedUrl) size])%list
      /\ Forall (fun c => fav_source c <> FallbackApi /\ 10 <= fav_score c) front.
Proof.
  intros url config size st r st' Hflag Hrun.
  destruct (analyzePage_stages _ _ _ _ _ _ Hrun)
    as (favs & ogs & md & Htry & _ & _ & Hfavs).
  destruct Hfavs as [[Hoff _] | [_ (p & Hp & Hsorted)]];
    [rewrite Hflag in Hoff; discriminate Hoff|].
  pose proof (analyzePage_try_above_api _ _ _ _ _ _ _ Htry) as Hfront.
  exists (Array_sort byScoreFavicon favs), p.
  split; [exact Hp|]. split.
  - rewrite Hsorted. apply (Array_sort_lowest_last _ fav_score).
    eapply Forall_impl; [|exact Hfront].
    intros c [_ Hc]. cbn [fallbackApiFavicon fav_score]. lia.
  - eapply Permutation_Forall; [apply (Array_sort_perm _ fav_score)|exact Hfront].
Qed.

(** X7. In the OpenGraph list that [analyzePage] returns, an image read
    from an [og:image] tag stands before the image of the Twitter card. *)
Theorem analyzePage_og_before_twitter :
  forall url config size st r st' a b,
    analyzePage url config size st = (Normal r, st') ->
    In a (ogImages r) -> og_source a = OgImage ->
    In b (ogImages r) -> og_source b = TwitterImage ->
    og_score a > og_score b
    /\ exists l1 l2 l3, ogImages r = (l1 ++ a :: l2 ++ b :: l3)%list.
Proof.
  intros url config size st r st' a b Hrun Ha Hsa Hb Hsb.
  destruct (analyzePage_bands _ _ _ _ _ _ Hrun) as [_ Hbands].
  rewrite Forall_forall in Hbands.
  pose proof (Hbands _ Ha) as Hba. pose proof (Hbands _ Hb) as Hbb.
  unfold imageBand in Hba, Hbb. rewrite Hsa in Hba. rewrite Hsb in Hbb.
  assert (Hgt : og_score a > og_score b) by lia.
  split; [exact Hgt|].
  destruct (analyzePage_stages _ _ _ _ _ _ Hrun)
    as (favs & ogs & md & _ & Hogs & _).
  apply (descending_before _ og_score); try assumption.
  rewrite Hogs. apply Array_sort_descending.
Qed.

(** X8. In the favicon list that [analyzePage] returns, an icon declared
    by the site (a link tag or the manifest) stands before the static
    fallback locations, and of those [/apple-touch-icon.png] stands before
    [/favicon.ico]. *)
Theorem analyzePage_declared_before_static :
  forall url config size st r st' a b,
    analyzePage url config size st = (Normal r, st') ->
    In a (favicons r) -> In b (favicons r) ->
    (fav_source a = LinkTag \/ fav_source a = Manifest
     \/ (fav_source a = Fallback /\ fav_score a = 20 /\ fav_score b = 10)) ->
    fav_source b = Fallback ->
    exists l1 l2 l3, favicons r = (l1 ++ a :: l2 ++ b :: l3)%list.
Proof.
  intros url config size st r st' a b Hrun Ha Hb Hsa Hsb.
  destruct (analyzePage_bands _ _ _ _ _ _ Hrun) as [Hbands _].
  rewrite Forall_forall in Hbands.
  pose proof (Hbands _ Ha) as Hba. pose proof (Hbands _ Hb) as Hbb.
  unfold faviconBand in Hba, Hbb. rewrite Hsb in Hbb.
  assert (Hgt : fav_score a > fav_score b).
  { destruct Hsa as [Hs | [Hs | (Hs & H20 & H10)]]; [rewrite Hs in Hba; lia ..|lia]. }
  destruct (analyzePage_stages _ _ _ _ _ _ Hrun)
    as (favs & ogs & md & _ & _ & _ & Hfavs).
  apply (descending_before _ fav_score); try assumption.
  destruct Hfavs as [[_ ->] | [_ (p & _ & ->)]]; apply Array_sort_descending.
Qed.

End Order.

Lemma analyzePage_fallback_api_last_witness :
  USE_FALLBACK_API demo_config = true
  /\ exists r st',
      @analyzePage demoEnv "example.com" demo_config None (demo_state Online)
      = (Normal r, st')
      /\ exists front parsedUrl,
          @URL_parse demoEnv (withProtocol (@String_trim demoEnv "example.com"))
          = Some parsedUrl
          /\ favicons r
             = (front ++ [@fallbackApiFavicon demoEnv
                            ("https://" ++ hostname parsedUrl) None])%list
          /\ Forall (fun c => fav_source c <> FallbackApi /\ 10 <= fav_score c)
                front.
Proof.
  split; [reflexivity|].
  eexists. eexists. split; [reflexivity|].
  apply (@analyzePage_fallback_api_last demoEnv "example.com" demo_config None
           (demo_state Online) _ _ eq_refl eq_refl).
Defined.

Lemma analyzePage_og_before_twitter_witness :
  exists r st' a b,
    @analyzePage demoEnv "example.com" demo_config None (demo_state Online)
    = (Normal r, st')
    /\ In a (ogImages r) /\ og_source a = OgImage
    /\ In b (ogImages r) /\ og_source b = TwitterImage
    /\ og_score a > og_score b
    /\ exists l1 l2 l3, ogImages r = (l1 ++ a :: l2 ++ b :: l3)%list.
Proof.
  eexists. eexists. eexists. eexists.
  split; [reflexivity|].
  split; [left; reflexivity|]. split; [reflexivity|].
  split; [right; left; reflexivity|]. split; [reflexivity|].
  apply (@analyzePage_og_before_twitter demoEnv "example.com" demo_config None
           (demo_state Online) _ _ _ _ eq_refl).
  - left. reflexivity.
  - reflexivity.
  - right. left. reflexivity.
  - reflexivity.
Defined.

Lemma analyzePage_declared_before_static_witness :
  exists r st' a b,
    @analyzePage demoEnv "example.com" demo_config None (demo_state Online)
    = (Normal r, st')
    /\ In a (favicons r) /\ fav_source a = LinkTag
    /\ In b (favicons r) /\ fav_source b = Fallback
    /\ exists l1 l2 l3, favicons r = (l1 ++ a :: l2 ++ b :: l3)%list.
Proof.
  eexists. eexists. eexists. eexists.
  split; [reflexivity|].
  split; [left; reflexivity|]. split; [reflexivity|].
  split; [right; right; left; reflexivity|]. split; [reflexivity|].
  apply (@analyzePage_declared_before_static demoEnv "example.com" demo_config
           None (demo_state Online) _ _ _ _ eq_refl).
  - left. reflexivity.
  - right. right. left. reflexivity.
  - left. reflexivity.
  - reflexivity.
Defined.

(** ** Fetching *)

Section Fetching.

Context `{Env}.

Lemma fetch_run :
  forall r st,
    fetch r st
    = (match fst (net (world st) r) with
       | Some response => Normal response
       | None => Abrupt
       end, after_fetch st r).
Proof.
  intros r st. unfold fetch, after_fetch.
  destruct (net (world st) r) as [[response|] w]; reflexivity.
Qed.

(** [fetchHtml], by the answers to its two requests. *)
Lemma fetchHtml_run :
  forall url config st,
    let first := htmlRequest url (USER_AGENT config) in
    let second := htmlRequest url BROWSER_USER_AGENT in
    let st1 := after_fetch st first in
    let st2 := after_fetch st1 second in
    fetchHtml url config st
    = match fst (net (world st) first) with
      | Some {| resp_ok := true; resp_text := Some html; resp_url := finalUrl |} =>
          (Normal (html, finalUrl), st1)
      | _ =>
          match fst (net (world st1) second) with
          | Some {| resp_ok := true; resp_text := Some html; resp_url := finalUrl |} =>
              (Normal (html, finalUrl), st2)
          | _ => (Abrupt, st2)
          end
      end.
Proof.
  intros url config st first second st1 st2.
  unfold fetchHtml, bind, try_catch. rewrite fetch_run. fold first. fold st1.
  assert (Hsecond :
            (response <- fetch second;;
             (if negb (resp_ok response)
              then throw
              else html <- await_opt (resp_text response);;
                   ret (html, resp_url response))) st1
            = match fst (net (world st1) second) with
              | Some {| resp_ok := true; resp_text := Some html;
                        resp_url := finalUrl |} => (Normal (html, finalUrl), st2)
              | _ => (Abrupt, st2)
              end).
  { unfold bind. rewrite fetch_run. fold st2.
    destruct (fst (net (world st1) second)) as [[ok status u [text|] json body]|];
      [destruct ok; reflexivity | destruct ok; reflexivity | reflexivity]. }
  unfold bind in Hsecond.
  destruct (fst (net (world st) first)) as [[ok status u [text|] json body]|];
    cbn [resp_ok resp_text resp_url await_opt ret throw].
  - destruct ok; [reflexivity | exact Hsecond].
  - destruct ok; exact Hsecond.
  - exact Hsecond.
Qed.

(** X9. [fetchHtml] makes one request with the configured user agent.
    When that gives a readable 2xx answer, the page is returned after this
    single request.  When it does not (the request fails, the status is not
    2xx, or the body cannot be read), a second request for the same URL is
    made with the browser user agent, and its answer alone decides: a
    readable 2xx answer is returned, anything else raises.  There is never
    a third request, and a page that is returned is the body and the final
    URL of a 2xx answer to one of the two. *)
Theorem fetchHtml_two_attempts :
  forall url config st,
    let first := htmlRequest url (USER_AGENT config) in
    let second := htmlRequest url BROWSER_USER_AGENT in
    (trace (snd (fetchHtml url config st)) = (trace st ++ [EvFetch first])%list
     \/ trace (snd (fetchHtml url config st))
        = (trace st ++ [EvFetch first; EvFetch second])%list)
    /\ (forall response,
          fst (net (world st) first) = Some response ->
          resp_ok response = true ->
          forall html, resp_text response = Some html ->
          fetchHtml url config st
          = (Normal (html, resp_url response), after_fetch st first))
    /\ (forall html finalUrl st',
          fetchHtml url config st = (Normal (html, finalUrl), st') ->
          exists response,
            (fst (net (world st) first) = Some response
             \/ fst (net (world (after_fetch st first)) second) = Some response)
            /\ resp_ok response = true
            /\ resp_text response = Some html
            /\ resp_url response = finalUrl)
    /\ (forall page,
          page_of (fst (net (world st) first)) = Some page ->
          fetchHtml url config st = (Normal page, after_fetch st first)
          /\ trace (snd (fetchHtml url config st))
             = (trace st ++ [EvFetch first])%list)
    /\ (page_of (fst (net (world st) first)) = None ->
        snd (fetchHtml url config st)
        = after_fetch (after_fetch st first) second
        /\ trace (snd (fetchHtml url config st))
           = (trace st ++ [EvFetch first; EvFetch second])%list
        /\ fst (fetchHtml url config st)
           = match page_of (fst (net (world (after_fetch st first)) second)) with
             | Some page => Normal page
             | None => Abrupt
             end)
    /\ (req_url first = url /\ req_url second = url
        /\ request_header "User-Agent" first = Some (USER_AGENT config)
        /\ request_header "User-Agent" second = Some BROWSER_USER_AGENT).
Proof.
  intros url config st first second.
  pose proof (fetchHtml_run url config st) as Hrun. cbv zeta in Hrun.
  fold first second in Hrun.
  split; [|split; [|split; [|split; [|split]]]].
  - rewrite Hrun.
    destruct (fst (net (world st) first)) as [[[|] status u [text|] json body]|];
      try (left; reflexivity);
      (right;
       destruct (fst (net (world (after_fetch st first)) second))
         as [[[|] status' u' [text'|] json' body']|];
       cbn [snd after_fetch trace]; rewrite <- app_assoc; reflexivity).
  - intros response Hfirst Hok html Htext. rewrite Hrun, Hfirst.
    destruct response as [ok status u text json body]. cbn in Hok, Htext.
    subst ok text. reflexivity.
  - intros html finalUrl st' Hnormal. rewrite Hrun in Hnormal.
    destruct (fst (net (world st) first)) as [[[|] status u [text|] json body]|]
      eqn:Hfirst;
      try (injection Hnormal as <- <- _; eexists; split;
           [left; reflexivity | repeat split]);
      (destruct (fst (net (world (after_fetch st first)) second))
         as [[[|] status' u' [text'|] json' body']|] eqn:Hsecond;
       try discriminate Hnormal;
       injection Hnormal as <- <- _; eexists; split;
       [right; reflexivity | repeat split]).
  - intros page Hpage. rewrite Hrun. unfold page_of in Hpage.
    destruct (fst (net (world st) first)) as [[[|] status u [text|] json body]|];
      cbn [resp_ok resp_text resp_url] in Hpage; try discriminate Hpage.
    injection Hpage as <-. split; reflexivity.
  - intros Hpage. rewrite Hrun. unfold page_of in Hpage.
    assert (Hsecond :
              forall answer,
                snd (match answer with
                     | Some {| resp_ok := true; resp_text := Some html;
                               resp_url := finalUrl |} =>
                         (Normal (html, finalUrl),
                          after_fetch (after_fetch st first) second)
                     | _ => (Abrupt, after_fetch (after_fetch st first) second)
                     end)
                = after_fetch (after_fetch st first) second
                /\ fst (match answer with
                        | Some {| resp_ok := true; resp_text := Some html;
                                  resp_url := finalUrl |} =>
                            (Normal (html, finalUrl),
                             after_fetch (after_fetch st first) second)
                        | _ => (Abrupt, after_fetch (after_fetch st first) second)
                        end)
                   = match page_of answer with
                     | Some page => Normal page
                     | None => Abrupt
                     end).
    { intros [[[|] status' u' [text'|] json' body']|]; split; reflexivity. }
    destruct (fst (net (world st) first)) as [[[|] status u [text|] json body]|];
      cbn [resp_ok resp_text resp_url] in Hpage; try discriminate Hpage;
      (destruct (Hsecond (fst (net (world (after_fetch st first)) second)))
         as [Hstate Hresult];
       rewrite Hstate; split; [reflexivity|]; split;
       [cbn [after_fetch trace]; rewrite <- app_assoc; reflexivity
       | exact Hresult]).
  - repeat split.
Qed.

End Fetching.

Lemma fetchHtml_two_attempts_witness :
  (exists response,
      fst (@net demoEnv Online (htmlRequest "https://example.com" "favicon-api"))
      = Some response
      /\ resp_ok response = true
      /\ resp_text response = Some "<html>"
      /\ @fetchHtml demoEnv "https://example.com" demo_config (demo_state Online)
         = (Normal ("<html>", resp_url response),
            @after_fetch demoEnv (demo_state Online)
              (htmlRequest "https://example.com" "favicon-api")))
  /\ (page_of (fst (@net demoEnv Online
                      (htmlRequest "https://example.com/missing" "favicon-api")))
      = None
      /\ trace (snd (@fetchHtml demoEnv "https://example.com/missing" demo_config
                       (demo_state Online)))
         = [EvFetch (htmlRequest "https://example.com/missing" "favicon-api");
            EvFetch (htmlRequest "https://example.com/missing" BROWSER_USER_AGENT)]).
Proof.
  split.
  - eexists. split; [reflexivity|]. split; [reflexivity|]. split; [reflexivity|].
    apply (proj1 (proj2 (@fetchHtml_two_attempts demoEnv "https://example.com"
                           demo_config (demo_state Online)))); reflexivity.
  - split; [reflexivity|].
    apply (proj1 (proj2 (proj2 (proj2 (proj2
             (@fetchHtml_two_attempts demoEnv "https://example.com/missing"
                demo_config (demo_state Online))))))).
    reflexivity.
Defined.


Section ManifestAndFinder.

Context `{Env}.

(** X10. [extractFaviconFromManifest] never raises and makes exactly one
    request, for [baseUrl/manifest.json].  When that request fails, is not
    answered with a 2xx status, or its body is not JSON, the result is
    empty; and every candidate it gives has source 'manifest', score 40 and
    no [isFallback] field. *)
Theorem extractFaviconFromManifest_safe :
  forall baseUrl config st,
    exists l,
      extractFaviconFromManifest baseUrl config st
      = (Normal l, after_fetch st (manifestRequest baseUrl config))
      /\ req_url (manifestRequest baseUrl config) = baseUrl ++ "/manifest.json"
      /\ Forall (fun c => fav_source c = Manifest /\ fav_score c = 40
                          /\ fav_isFallback c = None) l
      /\ (match fst (net (world st) (manifestRequest baseUrl config)) with
          | Some response =>
              resp_ok response = false \/ resp_json response = None
          | None => True
          end -> l = []).
Proof.
  intros baseUrl config st.
  unfold extractFaviconFromManifest, try_catch, bind. rewrite fetch_run.
  destruct (fst (net (world st) (manifestRequest baseUrl config)))
    as [response|]; cbn [ret].
  - destruct (resp_ok response) eqn:Hok.
    + unfold await_opt. destruct (resp_json response) as [manifest|] eqn:Hjson;
        cbn [ret throw].
      * unfold lift. destruct (get_prop manifest "icons") as [icons|]; cbn [ret throw].
        -- destruct icons;
             try (exists []; repeat split; try constructor;
                  intros [Hno | Hno]; discriminate Hno).
           eexists. split; [reflexivity|]. split; [reflexivity|]. split.
           ++ apply for_of_Forall. intros icon. unfold manifestIcon.
              destruct (get_prop icon "src") as [src|]; [|constructor].
              destruct (truthy src); [|constructor].
              destruct (resolveUrl_value src baseUrl); [|constructor].
              destruct (parseSizes_value _); [|constructor].
              constructor; [repeat split | constructor].
           ++ intros [Hno | Hno]; discriminate Hno.
        -- exists []. repeat split; try constructor.
      * exists []. repeat split; try constructor.
    + exists []. repeat split; try constructor.
  - exists []. repeat split; try constructor.
Qed.

Lemma Array_sort_map :
  forall (A : Type) (cmp : A -> A -> Z) (f : A -> A) l,
    (forall a b, cmp (f a) (f b) = cmp a b) ->
    Array_sort cmp (map f l) = map f (Array_sort cmp l).
Proof.
  intros A cmp f l Hf. induction l as [|x l IH]; [reflexivity|].
  cbn [map Array_sort fold_right]. fold (Array_sort cmp (map f l)).
  fold (Array_sort cmp l). rewrite IH. clear IH.
  induction (Array_sort cmp l) as [|y sorted IH]; [reflexivity|].
  cbn [map insert_sorted]. rewrite Hf.
  destruct (cmp x y <=? 0); [reflexivity|]. cbn [map]. rewrite IH. reflexivity.
Qed.

(** [findOGImages], by the outcome of [fetchHtml]. *)
Lemma findOGImages_run :
  forall url config st,
    findOGImages url config st
    = match fetchHtml (withProtocol url) config st with
      | (Normal (html, finalUrl), st1) =>
          match URL_parse finalUrl with
          | Some u =>
              let baseUrl := protocol u ++ "//" ++ hostname u in
              let doc := cheerio_load html in
              (Normal (Array_sort byScoreOG
                         (extractFromOGTags doc baseUrl
                            ++ extractFromTwitterTags doc baseUrl
                            ++ extractFromJsonLd doc baseUrl)), st1)
          | None => (Normal [], st1)
          end
      | (Abrupt, st1) => (Normal [], st1)
      end.
Proof.
  intros url config st.
  unfold findOGImages, findOGImages_try, bind, try_catch, new_URL, await_opt.
  destruct (fetchHtml (withProtocol url) config st) as [[[html finalUrl]|] st1];
    [|reflexivity].
  destruct (URL_parse finalUrl); reflexivity.
Qed.

(** The OpenGraph candidates of [analyzePage], by the outcome of
    [fetchHtml]. *)
Lemma analyzePage_ogImages :
  forall url config size st r st',
    analyzePage url config size st = (Normal r, st') ->
    ogImages r
    = match fetchHtml (withProtocol url) config st with
      | (Normal (html, finalUrl), _) =>
          match URL_parse finalUrl with
          | Some u =>
              let baseUrl := protocol u ++ "//" ++ hostname u in
              let doc := cheerio_load html in
              Array_sort byScoreOG
                (extractOGFromTags doc baseUrl
                   ++ extractOGFromTwitterTags doc baseUrl
                   ++ extractOGFromJsonLd doc baseUrl)
          | None => []
          end
      | (Abrupt, _) => []
      end.
Proof.
  intros url config size st r st' Hrun.
  destruct (analyzePage_stages _ _ _ _ _ _ Hrun)
    as (favs & ogs & md & Htry & -> & _).
  destruct (fetchHtml (withProtocol url) config st) as [[[html finalUrl]|] st1]
    eqn:Hfetch.
  - destruct (URL_parse finalUrl) as [u|] eqn:Hu.
    + destruct (analyzePage_try_fetched _ config _ _ _ _ _ Hfetch Hu)
        as (mf & st2 & Hok & _).
      rewrite (try_catch_normal _ _ _ _ _ _ Hok) in Htry.
      injection Htry as _ <- _ _. reflexivity.
    + unfold try_catch, analyzePage_try in Htry.
      rewrite (bind_normal _ _ _ _ _ _ _ Hfetch) in Htry.
      unfold new_URL in Htry. rewrite Hu in Htry. cbn in Htry.
      injection Htry as _ <- _ _. reflexivity.
  - rewrite (analyzePage_try_failed _ _ _ _ Hfetch) in Htry.
    injection Htry as _ <- _ _. reflexivity.
Qed.

(** X11. [findOGImages] never raises: a page that cannot be fetched, or a
    final URL that does not parse, gives the empty list.  Its result is
    ordered by descending score, it makes no request beyond those of
    [fetchHtml], and it is the OpenGraph list of [analyzePage] on the same
    input, without the [isFallback] fields. *)
Theorem findOGImages_agrees_with_analyzePage :
  forall url config st,
    (exists images,
        findOGImages url config st
        = (Normal images, snd (fetchHtml (withProtocol url) config st))
        /\ descending og_score images
        /\ (forall st1, fetchHtml (withProtocol url) config st = (Abrupt, st1) ->
                        images = []))
    /\ (forall size r st',
          analyzePage url config size st = (Normal r, st') ->
          fst (findOGImages url config st) = Normal (map withoutFlag (ogImages r))).
Proof.
  intros url config st. split.
  - rewrite findOGImages_run.
    destruct (fetchHtml (withProtocol url) config st) as [[[html finalUrl]|] st1].
    + destruct (URL_parse finalUrl) as [u|]; cbv zeta.
      * eexists. split; [reflexivity|]. split.
        -- apply (Array_sort_descending _ og_score).
        -- intros st2 Hno. discriminate Hno.
      * exists []. split; [reflexivity|]. split; [constructor|reflexivity].
    + exists []. split; [reflexivity|]. split; [constructor|reflexivity].
  - intros size r st' Hrun.
    rewrite (analyzePage_ogImages _ _ _ _ _ _ Hrun), findOGImages_run.
    destruct (fetchHtml (withProtocol url) config st) as [[[html finalUrl]|] st1];
      [|reflexivity].
    destruct (URL_parse finalUrl) as [u|]; [|reflexivity].
    cbv zeta. cbn [fst].
    destruct finder_extractors_agree as (_ & Hog & Htw & Hld).
    rewrite Hog, Htw, Hld, <- !map_app.
    rewrite Array_sort_map; [reflexivity|].
    intros a b. reflexivity.
Qed.

End ManifestAndFinder.

Lemma findOGImages_agrees_with_analyzePage_witness :
  exists r st',
    @analyzePage demoEnv "example.com" demo_config None (demo_state Online)
    = (Normal r, st')
    /\ fst (@findOGImages demoEnv "example.com" demo_config (demo_state Online))
       = Normal (map withoutFlag (ogImages r)).
Proof.
  eexists. eexists. split; [reflexivity|].
  apply (proj2 (@findOGImages_agrees_with_analyzePage demoEnv "example.com"
                  demo_config (demo_state Online)) None _ _ eq_refl).
Defined.

Lemma extractFaviconFromManifest_safe_witness :
  exists l,
    @extractFaviconFromManifest demoEnv "https://example.com" demo_config
      (demo_state Online)
    = (Normal l, @after_fetch demoEnv (demo_state Online)
                   (manifestRequest "https://example.com" demo_config))
    /\ l = [].
Proof.
  destruct (@extractFaviconFromManifest_safe demoEnv "https://example.com"
              demo_config (demo_state Online)) as (l & Hrun & _ & _ & Hempty).
  exists l. split; [exact Hrun|]. apply Hempty. left. reflexivity.
Defined.

(** ** Resolved assets *)

Lemma detectFormat_in_known :
  forall buffer hint, In (detectFormat buffer hint) known_formats.
Proof.
  intros buffer hint. unfold detectFormat, known_formats.
  repeat match goal with
         | |- context [if ?c then _ else _] => destruct c
         end; cbn; tauto.
Qed.

(** X12. [detectFormat] answers with one of png, jpg, webp, gif and svg,
    whatever the bytes and the hint are; it never answers ico. *)
Theorem detectFormat_known_format :
  forall buffer hint,
    In (detectFormat buffer hint) known_formats
    /\ detectFormat buffer hint <> "ico".
Proof.
  intros buffer hint. pose proof (detectFormat_in_known buffer hint) as Hin.
  split; [exact Hin|].
  intros Hico. rewrite Hico in Hin. cbn in Hin.
  repeat destruct Hin as [Hin | Hin]; try discriminate Hin. exact Hin.
Qed.

Section Assets.

Context `{Env}.

Lemma spec_first_success_asset :
  forall images config st asset,
    fst (spec_first_success images config st) = Some asset ->
    0 < buffer_length (asset_data asset) <= MAX_IMAGE_SIZE config
    /\ validateImage (asset_data asset) = Normal true
    /\ exists image mimeType,
        In image images
        /\ asset_format asset
           = detectFormat (asset_data asset) (str_or mimeType (og_type image)).
Proof.
  induction images as [|image rest IH]; intros config st asset Hrun.
  - discriminate Hrun.
  - cbn [spec_first_success] in Hrun.
    destruct (spec_obtain image config st) as [o st1].
    destruct (spec_skip config o) eqn:Hskip.
    + destruct (IH _ _ _ Hrun) as (Hsize & Hvalid & image' & mime & Hin & Hformat).
      split; [exact Hsize|]. split; [exact Hvalid|].
      exists image', mime. split; [right; exact Hin | exact Hformat].
    + destruct o as [why|buffer mimeType]; cbn in Hrun, Hskip; [discriminate Hrun|].
      injection Hrun as <-. cbn [asset_data asset_format].
      pose proof (buffer_length_nonneg buffer).
      destruct (Z.eqb_spec (buffer_length buffer) 0); [discriminate Hskip|].
      destruct (Z.ltb_spec (MAX_IMAGE_SIZE config) (buffer_length buffer));
        [discriminate Hskip|].
      destruct (validateImage buffer) as [[|]|]; try discriminate Hskip.
      split; [lia|]. split; [reflexivity|].
      exists image, mimeType. split; [left; reflexivity | reflexivity].
Qed.

(** X13. An asset that [fetchBestOGImage] returns holds between 1 and
    MAX_IMAGE_SIZE bytes, and they passed [validateImage].  Its format is
    one of the five known formats, read from the bytes: an asset whose
    bytes start with 89 50 has format png whatever the candidate or the
    data URI declared. *)
Theorem fetchBestOGImage_asset_valid :
  forall images config st asset st',
    fetchBestOGImage images config st = (Normal (Some asset), st') ->
    0 < buffer_length (asset_data asset) <= MAX_IMAGE_SIZE config
    /\ validateImage (asset_data asset) = Normal true
    /\ In (asset_format asset) known_formats
    /\ (starts_with_bytes (asset_data asset) [x89; x50] = true ->
        asset_format asset = "png").
Proof.
  intros images config st asset st' Hrun.
  rewrite fetchBestOGImage_refines in Hrun. injection Hrun as Hasset _.
  destruct (spec_first_success_asset _ _ _ _ Hasset)
    as (Hsize & Hvalid & image & mime & _ & Hformat).
  split; [exact Hsize|]. split; [exact Hvalid|]. rewrite Hformat. split.
  - apply detectFormat_in_known.
  - intros Hpng. rewrite detectFormat_rules, Hpng. reflexivity.
Qed.

(** X14. With a size ceiling of zero or less no candidate can pass:
    [fetchBestOGImage] returns null for every list. *)
Theorem fetchBestOGImage_no_room :
  forall images config st,
    MAX_IMAGE_SIZE config <= 0 ->
    fst (fetchBestOGImage images config st) = Normal None.
Proof.
  intros images config st Hmax. rewrite fetchBestOGImage_refines. cbn [fst].
  f_equal. revert st.
  induction images as [|image rest IH]; intros st; [reflexivity|].
  cbn [spec_first_success]. destruct (spec_obtain image config st) as [o st1].
  assert (Hskip : exists why, spec_skip config o = Some why).
  { destruct o as [why|buffer mimeType]; cbn [spec_skip]; [eexists; reflexivity|].
    pose proof (buffer_length_nonneg buffer).
    destruct (Z.eqb_spec (buffer_length buffer) 0); [eexists; reflexivity|].
    destruct (Z.ltb_spec (MAX_IMAGE_SIZE config) (buffer_length buffer));
      [eexists; reflexivity | lia]. }
  destruct Hskip as [why ->]. apply IH.
Qed.

End Assets.

Lemma fetchBestOGImage_asset_valid_witness :
  exists asset st',
    @fetchBestOGImage demoEnv
      [demo_image "data:image/png;base64,iVBORw0KGgo="] demo_config
      (demo_state Offline) = (Normal (Some asset), st')
    /\ 0 < buffer_length (asset_data asset) <= MAX_IMAGE_SIZE demo_config
    /\ asset_format asset = "png".
Proof.
  eexists. eexists. split; [reflexivity|].
  destruct (@fetchBestOGImage_asset_valid demoEnv
              [demo_image "data:image/png;base64,iVBORw0KGgo="] demo_config
              (demo_state Offline) _ _ eq_refl) as (Hsize & _ & _ & Hpng).
  split; [exact Hsize | apply Hpng; reflexivity].
Defined.

Lemma fetchBestOGImage_no_room_witness :
  fst (@fetchBestOGImage demoEnv [demo_image "https://example.com/og.png"]
         {| USER_AGENT := "favicon-api"; REQUEST_TIMEOUT := 5000;
            MAX_IMAGE_SIZE := 0; USE_FALLBACK_API := false |}
         (demo_state Online))
  = Normal None.
Proof.
  apply (@fetchBestOGImage_no_room demoEnv). cbn. lia.
Defined.

(** ** The fallback response *)

Lemma header_with_header :
  forall headers k v, header k (with_header headers k v) = Some v.
Proof.
  intros headers k v. unfold with_header.
  induction (filter (fun kv => negb (String.eqb (fst kv) k)) headers)
    as [|[k' v'] l IH]; cbn [app header].
  - rewrite String.eqb_refl. reflexivity.
  - rewrite IH. reflexivity.
Qed.

(** Unfolds a run of [handleFallback] and splits it by what the
    environment answers. *)
Ltac run_handleFallback :=
  unfold handleFallback, try_catch, bind, call_fetchCustomDefault,
    call_getCachedFallback, log_event, lift, new_URL, await_opt, ret, throw;
  repeat match goal with
         | |- context [fetchCustomDefault ?d ?c ?w] =>
             destruct (fetchCustomDefault d c w) as [[?|] ?] eqn:?
         | |- context [getCachedFallback ?w] =>
             destruct (getCachedFallback w) as [?|] eqn:?
         | |- context [processImage ?b ?o] =>
             destruct (processImage b o) as [?|] eqn:?
         | |- context [URL_parse ?s] =>
             destruct (URL_parse s) as [?|] eqn:?
         | |- context [if ?c then _ else _] => destruct c eqn:?
         end.

Section FallbackResponse.

Context `{Env}.

(** X15. [handleFallback] never raises, and its response has one of three
    shapes: the error (status 500, 'Failed to fetch default image', error
    headers); for a JSON request, status 200 with a favicon marked
    [isFallback], of source 'default', and no OpenGraph image; for an image
    request, status 200 with a body and a Content-Type that is
    'image/svg+xml' or 'image/png'. *)
Theorem handleFallback_responses :
  forall c config response defaultImage size format st,
    exists resp,
      fst (handleFallback c config response defaultImage size format st)
      = Normal resp
      /\ (resp = c_json (ErrorBody "Failed to fetch default image") 500
                   (generateErrorHeaders config)
          \/ (response = json_response
              /\ exists result,
                  resp = c_json (ResultBody result) 200 (generateDefaultHeaders config)
                  /\ info_isFallback (res_favicon result) = Some true
                  /\ info_source (res_favicon result) = "default"
                  /\ res_ogImage result = None)
          \/ (response = image_response
              /\ exists data headers,
                  resp = c_body data 200 headers
                  /\ (header "Content-Type" headers = Some "image/svg+xml"
                      \/ header "Content-Type" headers = Some "image/png"))).
Proof.
  intros c config response defaultImage size format st.
  destruct response.
  - run_handleFallback; cbn [fst];
      (eexists; split; [reflexivity|]);
      try (left; reflexivity);
      (right; right; split; [reflexivity|]; eexists; eexists;
       split; [reflexivity|]; rewrite header_with_header; tauto).
  - run_handleFallback; cbn [fst];
      (eexists; split; [reflexivity|]);
      try (left; reflexivity);
      (right; left; split; [reflexivity|]; eexists;
       split; [reflexivity|]; repeat split).
Qed.

(** X16. Without a default image (none, or the empty string)
    [handleFallback] reads the cached default and never calls
    [fetchCustomDefault]: the outside world is left as it was, and an image
    request without size and format is answered with the cached bytes. *)
Theorem handleFallback_cached_default :
  forall c config response defaultImage size format st,
    str_truthy defaultImage = false ->
    world (snd (handleFallback c config response defaultImage size format st))
    = world st
    /\ (exists events,
          trace (snd (handleFallback c config response defaultImage size format st))
          = (trace st ++ EvGetCachedFallback :: events)%list
          /\ forall url, ~ In (EvFetchCustomDefault url) events)
    /\ (forall image,
          getCachedFallback (world st) = Normal image ->
          fst (handleFallback c config image_response defaultImage None None st)
          = Normal (c_body (di_buffer image) 200
                      (with_header (generateDefaultHeaders config) "Content-Type"
                         (if String.eqb (di_format image) "svg"
                          then "image/svg+xml" else "image/png")))).
Proof.
  intros c config response defaultImage size format st Hdefault.
  split; [|split].
  - unfold handleFallback. rewrite Hdefault. run_handleFallback; reflexivity.
  - unfold handleFallback. rewrite Hdefault.
    run_handleFallback; cbn [snd trace];
      first [ exists []; split; [reflexivity | intros url []]
            | exists [EvLogError "Error fetching default image"];
              split; [rewrite <- app_assoc; reflexivity|];
              intros url [Hin | []]; discriminate Hin ].
  - intros image Himage. unfold handleFallback. rewrite Hdefault.
    unfold try_catch, bind, call_getCachedFallback, ret. rewrite Himage.
    reflexivity.
Qed.

End FallbackResponse.

Lemma handleFallback_cached_default_witness :
  str_truthy None = false
  /\ fst (@handleFallback demoEnv demo_context demo_config image_response None
            None None (demo_state Offline))
     = Normal (c_body png_bytes 200
                 [("Cache-Control", "public"); ("Content-Type", "image/png")]).
Proof.
  split; [reflexivity|].
  apply (proj2 (proj2 (@handleFallback_cached_default demoEnv demo_context
                         demo_config image_response None None None
                         (demo_state Offline) eq_refl))
           demo_default).
  reflexivity.
Defined.

(** ** Sizes, extensions and MIME types *)

Lemma span_digits_spec :
  forall s,
    s = fst (span_digits s) ++ snd (span_digits s)
    /\ all_digits (fst (span_digits s)) = true.
Proof.
  induction s as [|c s IH]; [split; reflexivity|].
  cbn [span_digits]. destruct (is_digit c) eqn:Hc; [|split; reflexivity].
  destruct (span_digits s) as [run rest]. cbn [fst snd] in *.
  destruct IH as [Hs Hrun]. split.
  - cbn [append]. f_equal. exact Hs.
  - cbn [all_digits]. rewrite Hc, Hrun. reflexivity.
Qed.

Lemma span_digits_stop :
  forall w c rest,
    all_digits w = true -> is_digit c = false ->
    span_digits (w ++ String c rest) = (w, String c rest).
Proof.
  induction w as [|d w IH]; intros c rest Hw Hc.
  - cbn. rewrite Hc. reflexivity.
  - cbn [all_digits] in Hw. apply andb_prop in Hw as [Hd Hw].
    cbn [append span_digits]. rewrite Hd, (IH _ _ Hw Hc). reflexivity.
Qed.

Lemma match_sizes_here_sound :
  forall s g,
    match_sizes_here s = Some g ->
    exists d rest,
      s = g ++ String "x" (String d rest)
      /\ nonempty g = true /\ all_digits g = true /\ is_digit d = true.
Proof.
  intros s g. unfold match_sizes_here.
  destruct (span_digits_spec s) as [Hs Hrun].
  destruct (span_digits s) as [run rest]. cbn [fst snd] in *.
  destruct (nonempty run) eqn:Hne; [|intros Hg; discriminate Hg].
  destruct rest as [|x rest]; [intros Hg; discriminate Hg|].
  destruct rest as [|d rest];
    [destruct x as [[] [] [] [] [] [] [] []]; intros Hg; discriminate Hg|].
  destruct x as [[] [] [] [] [] [] [] []]; try (intros Hg; discriminate Hg).
  destruct (is_digit d) eqn:Hd; [|intros Hg; discriminate Hg].
  intros Hg. injection Hg as <-. exists d, rest. repeat split; assumption.
Qed.

Lemma match_sizes_sound :
  forall s g,
    match_sizes s = Some g ->
    exists before d rest,
      s = before ++ g ++ String "x" (String d rest)
      /\ nonempty g = true /\ all_digits g = true /\ is_digit d = true.
Proof.
  induction s as [|c s IH]; intros g Hg; [discriminate Hg|].
  cbn [match_sizes] in Hg.
  destruct (match_sizes_here (String c s)) as [g'|] eqn:Hhere.
  - injection Hg as ->.
    destruct (match_sizes_here_sound _ _ Hhere) as (d & rest & Hs & Hprops).
    exists EmptyString, d, rest. split; [exact Hs | exact Hprops].
  - destruct (IH _ Hg) as (before & d & rest & Hs & Hprops).
    exists (String c before), d, rest. split; [|exact Hprops].
    cbn [append]. f_equal. exact Hs.
Qed.

(** X17. [parseSizes] reads the width of the first 'WxH' of a sizes
    attribute.  A size it gives is [parseInt] of a non-empty run of digits
    that stands in the attribute in front of an 'x' and a digit; an
    attribute that starts with such a width (as '32x32' or '180x180 any' do)
    gives that width; and a missing or empty attribute gives no size. *)
Theorem parseSizes_width :
  forall `{Env},
    (forall s n,
        parseSizes (Some s) = Some n ->
        exists before g d rest,
          s = before ++ g ++ String "x" (String d rest)
          /\ nonempty g = true /\ all_digits g = true /\ is_digit d = true
          /\ n = parseInt10 g)
    /\ (forall w d rest,
          nonempty w = true -> all_digits w = true -> is_digit d = true ->
          parseSizes (Some (w ++ String "x" (String d rest))) = Some (parseInt10 w))
    /\ parseSizes None = None
    /\ parseSizes (Some EmptyString) = None.
Proof.
  intros E. split; [|split; [|split; reflexivity]].
  - intros s n Hn. unfold parseSizes in Hn.
    destruct (nonempty s); [|discriminate Hn].
    destruct (match_sizes s) as [g|] eqn:Hg; [|discriminate Hn].
    injection Hn as <-.
    destruct (match_sizes_sound _ _ Hg) as (before & d & rest & Hs & Hne & Hd & Hx).
    exists before, g, d, rest. repeat split; assumption.
  - intros w d rest Hne Hw Hd.
    destruct w as [|c w]; [discriminate Hne|].
    unfold parseSizes. cbn [append nonempty match_sizes].
    unfold match_sizes_here.
    change (String c (w ++ String "x" (String d rest)))
      with (String c w ++ String "x" (String d rest)).
    rewrite (span_digits_stop (String c w) "x" (String d rest) Hw eq_refl).
    cbn [nonempty]. rewrite Hd. reflexivity.
Qed.

Lemma parseSizes_width_witness :
  @parseSizes demoEnv (Some "180x180 any") = Some (Num 180).
Proof.
  apply (proj1 (proj2 (@parseSizes_width demoEnv)) "180" "1"%char "80 any");
    reflexivity.
Defined.

Lemma has_dot_app :
  forall p e, has_dot (p ++ String "." e) = true.
Proof.
  induction p as [|c p IH]; intros e; cbn [append has_dot].
  - reflexivity.
  - rewrite IH. apply orb_true_r.
Qed.

(** X18. [last_segment], the type guessed from a URL
    ([href.split('.').pop()]): the result holds no dot; a URL without a dot
    is its own result; and the result of [p.e] is [e] when [e] holds no
    dot, so that the URL ends with its result. *)
Theorem last_segment_after_last_dot :
  (forall s, has_dot (last_segment s) = false)
  /\ (forall s, has_dot s = false -> last_segment s = s)
  /\ (forall p e, has_dot e = false -> last_segment (p ++ String "." e) = e)
  /\ (forall s, exists before, s = before ++ last_segment s).
Proof.
  split; [|split; [|split]].
  - induction s as [|c s IH]; [reflexivity|].
    cbn [last_segment]. destruct (has_dot s) eqn:Hs; [exact IH|].
    destruct (is_dot c) eqn:Hc; [exact Hs|].
    cbn [has_dot]. rewrite Hc, Hs. reflexivity.
  - induction s as [|c s IH]; intros Hs; [reflexivity|].
    cbn [has_dot] in Hs. apply orb_false_elim in Hs as [Hc Hs].
    cbn [last_segment]. rewrite Hs, Hc. reflexivity.
  - induction p as [|c p IH]; intros e He; cbn [append last_segment].
    + rewrite He. reflexivity.
    + rewrite has_dot_app. apply IH, He.
  - induction s as [|c s IH]; [exists EmptyString; reflexivity|].
    cbn [last_segment]. destruct (has_dot s).
    + destruct IH as [before Hs]. exists (String c before).
      cbn [append]. f_equal. exact Hs.
    + destruct (is_dot c).
      * exists (String c EmptyString). reflexivity.
      * exists EmptyString. reflexivity.
Qed.

Lemma last_segment_after_last_dot_witness :
  has_dot "png" = false
  /\ last_segment "https://cdn.example.com/icon.v2.png" = "png".
Proof.
  split; [reflexivity|].
  apply (proj1 (proj2 (proj2 last_segment_after_last_dot))
           "https://cdn.example.com/icon.v2" "png").
  reflexivity.
Defined.

Lemma substring_all :
  forall s, substring 0 (String.length s) s = s.
Proof.
  induction s as [|c s IH]; [reflexivity|]. cbn. rewrite IH. reflexivity.
Qed.

Lemma prefix_split :
  forall p s, String.prefix p s = true -> exists t, s = p ++ t.
Proof.
  induction p as [|a p IH]; intros s Hp.
  - exists s. reflexivity.
  - destruct s as [|b s]; cbn [String.prefix] in Hp; [discriminate Hp|].
    destruct (ascii_dec a b) as [<-|]; [|discriminate Hp].
    destruct (IH _ Hp) as [t ->]. exists t. reflexivity.
Qed.

Lemma prefix_append :
  forall p t, String.prefix p (p ++ t) = true.
Proof.
  induction p as [|a p IH]; intros t.
  - destruct t; reflexivity.
  - cbn [append String.prefix]. destruct (ascii_dec a a); [apply IH | contradiction].
Qed.

Lemma take_mime_spec :
  forall t,
    no_separator (take_mime t) = true /\ exists rest, t = take_mime t ++ rest.
Proof.
  induction t as [|c t [IHn [rest IHr]]]; [split; [reflexivity | exists EmptyString; reflexivity]|].
  cbn [take_mime]. destruct (Ascii.eqb c ";" || Ascii.eqb c ",") eqn:Hc.
  - split; [reflexivity | exists (String c t); reflexivity].
  - split.
    + cbn [no_separator]. rewrite Hc, IHn. reflexivity.
    + exists rest. cbn [append]. f_equal. exact IHr.
Qed.

Lemma take_mime_stop :
  forall m c rest,
    no_separator m = true -> Ascii.eqb c ";" || Ascii.eqb c "," = true ->
    take_mime (m ++ String c rest) = m.
Proof.
  induction m as [|a m IH]; intros c rest Hm Hc.
  - cbn. rewrite Hc. reflexivity.
  - cbn [no_separator] in Hm. apply andb_prop in Hm as [Ha Hm].
    apply negb_true_iff in Ha.
    cbn [append take_mime]. rewrite Ha, (IH _ _ Hm Hc). reflexivity.
Qed.

Lemma data_mime_data :
  forall t,
    data_mime ("data:" ++ t)
    = if nonempty (take_mime t) then Some (take_mime t) else None.
Proof.
  intros t. unfold data_mime.
  change (startsWith ("data:" ++ t) "data:") with (String.prefix "data:" ("data:" ++ t)).
  rewrite prefix_append.
  change (substring 5 (String.length ("data:" ++ t) - 5) ("data:" ++ t))
    with (substring 0 (String.length t - 0) t).
  rewrite Nat.sub_0_r, substring_all. reflexivity.
Qed.

(** X19. [data_mime], the type read from a data URI
    ([href.match(/^data:([^;,]+)/)]): of [data:M;...] and of [data:M,...]
    it is [M], when [M] is not empty and holds no ';' and no ','; and
    whatever it gives is not empty, holds no separator, and stands in the
    URI right after 'data:'. *)
Theorem data_mime_reads_type :
  (forall m c rest,
      nonempty m = true -> no_separator m = true ->
      Ascii.eqb c ";" || Ascii.eqb c "," = true ->
      data_mime ("data:" ++ m ++ String c rest) = Some m)
  /\ (forall href m,
        data_mime href = Some m ->
        nonempty m = true /\ no_separator m = true
        /\ startsWith href ("data:" ++ m) = true).
Proof.
  split.
  - intros m c rest Hne Hm Hc.
    rewrite data_mime_data, (take_mime_stop _ _ _ Hm Hc), Hne. reflexivity.
  - intros href m Hmime.
    assert (Hdata : exists t, href = "data:" ++ t).
    { unfold data_mime, startsWith in Hmime.
      destruct (String.prefix "data:" href) eqn:Hp; [|discriminate Hmime].
      apply prefix_split, Hp. }
    destruct Hdata as [t ->]. rewrite data_mime_data in Hmime.
    destruct (nonempty (take_mime t)) eqn:Hne; [|discriminate Hmime].
    injection Hmime as <-.
    destruct (take_mime_spec t) as [Hsep [rest Ht]].
    split; [exact Hne|]. split; [exact Hsep|].
    unfold startsWith. rewrite Ht at 2.
    apply (prefix_append ("data:" ++ take_mime t) rest).
Qed.

Lemma data_mime_reads_type_witness :
  data_mime "data:image/svg+xml;base64,PHN2Zz4=" = Some "image/svg+xml".
Proof.
  apply (proj1 data_mime_reads_type "image/svg+xml" ";"%char "base64,PHN2Zz4=");
    reflexivity.
Defined.

(** ** Resolved references *)

Lemma prefix_append_right :
  forall s p t, String.prefix p s = true -> String.prefix p (s ++ t) = true.
Proof.
  intros s p t Hp. destruct (prefix_split _ _ Hp) as [rest ->].
  replace ((p ++ rest) ++ t) with (p ++ (rest ++ t)).
  - apply prefix_append.
  - clear Hp. induction p as [|a p IH]; [reflexivity|].
    cbn [append]. f_equal. exact IH.
Qed.

(** X20. Against a base that starts with 'http', [resolveUrl] gives a
    data URI or a reference that starts with 'http', and resolving its
    result once more changes nothing. *)
Theorem resolveUrl_absolute :
  forall `{Env} url baseUrl,
    startsWith baseUrl "http" = true ->
    (isDataUrl (resolveUrl url baseUrl) = true
     \/ startsWith (resolveUrl url baseUrl) "http" = true)
    /\ resolveUrl (resolveUrl url baseUrl) baseUrl = resolveUrl url baseUrl.
Proof.
  intros E url baseUrl Hbase.
  assert (Habs : isDataUrl (resolveUrl url baseUrl) = true
                 \/ startsWith (resolveUrl url baseUrl) "http" = true).
  { unfold resolveUrl.
    destruct (isDataUrl url) eqn:Hdata; [left; exact Hdata|].
    destruct (startsWith url "http") eqn:Hhttp; [right; exact Hhttp|].
    right. unfold startsWith in *.
    destruct (String.prefix "//" url).
    - destruct url; reflexivity.
    - destruct (String.prefix "/" url); apply prefix_append_right, Hbase. }
  split; [exact Habs|].
  unfold resolveUrl at 1.
  destruct Habs as [-> | Hhttp]; [reflexivity|].
  rewrite Hhttp. destruct (isDataUrl (resolveUrl url baseUrl)); reflexivity.
Qed.

Lemma resolveUrl_absolute_witness :
  startsWith "https://example.com" "http" = true
  /\ @resolveUrl demoEnv (@resolveUrl demoEnv "img/a.png" "https://example.com")
       "https://example.com"
     = @resolveUrl demoEnv "img/a.png" "https://example.com".
Proof.
  split; [reflexivity|].
  apply (@resolveUrl_absolute demoEnv "img/a.png" "https://example.com").
  reflexivity.
Defined.

(** ** The OpenGraph tags *)

Section OgTags.

Context `{Env}.




End OgTags.

(** ** The requests of a page analysis *)

Section Requests.

Context `{Env}.






End Requests.


(** ** Dimensions and structured data *)

Section StructuredData.

Context `{Env}.

(** X23. When both dimensions of an image are numbers other than zero,
    its score never decreases when its area grows. *)
Theorem calculateOGScore_area_monotone :
  forall w1 h1 w2 h2 source type,
    w1 <> 0 -> h1 <> 0 -> w2 <> 0 -> h2 <> 0 ->
    w1 * h1 <= w2 * h2 ->
    calculateOGScore (VNumber (Num w1)) (VNumber (Num h1)) source type
    <= calculateOGScore (VNumber (Num w2)) (VNumber (Num h2)) source type.
Proof.
  intros w1 h1 w2 h2 source type Hw1 Hh1 Hw2 Hh2 Harea.
  rewrite !calculateOGScore_sum.
  assert (Hdim : dimensionBonus (VNumber (Num w1)) (VNumber (Num h1))
                 <= dimensionBonus (VNumber (Num w2)) (VNumber (Num h2))).
  { unfold dimensionBonus, truthy, num_truthy, ToNumber, num_mul, num_ge.
    destruct (Z.eqb_spec w1 0), (Z.eqb_spec h1 0), (Z.eqb_spec w2 0),
      (Z.eqb_spec h2 0); try contradiction.
    cbn [negb andb]. cbv zeta.
    repeat match goal with
           | |- context [?k <=? ?x] => destruct (Z.leb_spec k x)
           end; lia. }
  lia.
Qed.

Lemma for_of_cut_short :
  forall (A B : Type) (body : A -> Pushes B) before x after,
    snd (for_of body before) = true ->
    snd (body x) = false ->
    for_of body (before ++ x :: after)
    = ((fst (for_of body before) ++ fst (body x))%list, false).
Proof.
  intros A B body before x after. induction before as [|y before IH]; intros Hb Hx.
  - cbn [app for_of fst]. destruct (body x) as [out completed].
    cbn [snd] in Hx. subst completed. reflexivity.
  - cbn [app for_of] in *. destruct (body y) as [out completed].
    destruct completed; [|discriminate Hb].
    destruct (for_of body before) as [out' completed']. cbn [snd] in Hb.
    rewrite (IH Hb Hx). cbn [fst]. rewrite app_assoc. reflexivity.
Qed.

(** X24. Structured data: a JSON-LD item whose [image] is a non-empty
    string gives one [schema.org] candidate for that string, without
    dimensions, of score 110.  A [null] in the array of items of a block
    ends the block: the candidates of the items before it are kept, the
    items after it are not read. *)
Theorem jsonLd_candidates :
  forall baseUrl,
    (forall fields u,
        assoc "image" fields = Some (VString u) -> nonempty u = true ->
        jsonLdItem baseUrl (VObject fields)
        = ([ {| og_url := resolveUrl u baseUrl; og_width := None;
                og_height := None; og_alt := None; og_type := None;
                og_source := SchemaOrg; og_score := 110;
                og_isFallback := Some false |} ], true))
    /\ (forall element jsonText before after,
          inner_html element = Some jsonText -> nonempty jsonText = true ->
          JSON_parse jsonText = Some (VArray (before ++ VNull :: after)) ->
          snd (for_of (jsonLdItem baseUrl) before) = true ->
          jsonLdBlock baseUrl element = fst (for_of (jsonLdItem baseUrl) before)).
Proof.
  intros baseUrl. split.
  - intros fields u Himage Hu. unfold jsonLdItem. cbn [get_prop]. rewrite Himage.
    cbn [truthy]. rewrite Hu. cbn [for_of]. unfold jsonLdImage.
    cbn [truthy typeof_object resolveUrl_value]. rewrite Hu. reflexivity.
  - intros element jsonText before after Hhtml Hne Hparse Hbefore.
    unfold jsonLdBlock. rewrite Hhtml, Hne, Hparse.
    rewrite (for_of_cut_short _ _ _ _ _ _ Hbefore); [|reflexivity].
    cbn [fst jsonLdItem get_prop]. apply app_nil_r.
Qed.

End StructuredData.

Lemma calculateOGScore_area_monotone_witness :
  @calculateOGScore demoEnv (VNumber (Num 600)) (VNumber (Num 400)) "og:image" None
  <= @calculateOGScore demoEnv (VNumber (Num 1200)) (VNumber (Num 630)) "og:image"
       None.
Proof.
  apply (@calculateOGScore_area_monotone demoEnv 600 400 1200 630 "og:image" None);
    lia.
Defined.

Lemma jsonLd_candidates_witness :
  @jsonLdItem demoEnv "https://example.com"
    (VObject [("@type", VString "Article"); ("image", VString "/cover.png")])
  = ([ {| og_url := "https://example.com/cover.png"; og_width := None;
          og_height := None; og_alt := None; og_type := None;
          og_source := SchemaOrg; og_score := 110;
          og_isFallback := Some false |} ], true).
Proof.
  apply (proj1 (@jsonLd_candidates demoEnv "https://example.com")
           [("@type", VString "Article"); ("image", VString "/cover.png")]
           "/cover.png"); reflexivity.
Defined.
